(** * The file organizer of [projects/python-tools/file_organizer.py]

    A shallow embedding of the class [FileOrganizer]: its configuration
    table, the classifier [get_file_category], the placement resolver and
    executor [organize_file], and the driver [organize_directory], over an
    explicit model of the file system the script reads and mutates.

    Conventions of the model.
    - Python [str] is [string]; [str.lower] is modelled on ASCII letters.
    - A [pathlib.Path] is an absolute POSIX path, held as the list of its
      components below the root; [Path.name], [Path.stem] and [Path.suffix]
      follow pathlib (CPython 3.8 to 3.13).
    - A [dict] is an association list in insertion order, which is the
      order [dict.items()] iterates in.
    - The file system is a tree of directories and regular files (no
      symbolic links, no permissions); a folder or subfolder name of the
      configuration is a single path component, as in the default table.
    - [print] appends a message to the console trace of the state. *)

From Stdlib Require Import List String Ascii Bool Arith ZArith Lia.
From Stdlib Require Import DecimalString DecimalNat FinFun.
Import ListNotations.
Local Open Scope string_scope.
Local Open Scope list_scope.

Set Implicit Arguments.
Set Warnings "-register-all".

(** String concatenation, kept apart from list concatenation [++]. *)
Infix "+++" := String.append (right associativity, at level 60).

(* ================================================================== *)
(** ** Strings *)

Module Str.

(** [c.lower()] for one ASCII character. *)
Definition lower_ascii (c : ascii) : ascii :=
  let n := nat_of_ascii c in
  if ((65 <=? n) && (n <=? 90))%nat then ascii_of_nat (n + 32) else c.

(** [s.lower()] for an ASCII text [s]: the lower-casing of a platform
    whose names are ASCII. *)
Fixpoint ascii_lower (s : string) : string :=
  match s with
  | EmptyString => EmptyString
  | String c s' => String (lower_ascii c) (ascii_lower s')
  end.

(** [s.split("/")]: the segments of a text between its slashes. *)
Fixpoint segments (s : string) : list string :=
  match s with
  | EmptyString => [EmptyString]
  | String c s' =>
      if Ascii.eqb c "/" then EmptyString :: segments s'
      else match segments s' with
           | seg :: rest => String c seg :: rest
           | [] => [String c EmptyString]
           end
  end.

(** [pat in s] on strings: [pat] occurs in [s] as a substring. *)
Fixpoint contains (pat s : string) : bool :=
  String.prefix pat s
  || match s with
     | EmptyString => false
     | String _ s' => contains pat s'
     end.

(** [x in l] on a list of strings. *)
Definition mem (x : string) (l : list string) : bool :=
  existsb (String.eqb x) l.

(** [s.rfind('.')]; [None] stands for Python's -1. *)
Fixpoint rfind_dot (s : string) : option nat :=
  match s with
  | EmptyString => None
  | String c s' =>
      match rfind_dot s' with
      | Some i => Some (S i)
      | None => if Ascii.eqb c "."%char then Some 0 else None
      end
  end.

(** [str(n)] for a non-negative integer. *)
Definition of_nat (n : nat) : string :=
  NilEmpty.string_of_uint (Nat.to_uint n).

(** ["/".join(l)] and friends. *)
Fixpoint join (sep : string) (l : list string) : string :=
  match l with
  | [] => ""
  | [x] => x
  | x :: l' => x +++ sep +++ join sep l'
  end.

End Str.

(* ================================================================== *)
(** ** Paths *)

Definition Path := list string.

Module PurePath.

(** [p / child] for a child that is one name: the name of a directory
    entry, a name made from one, or a literal without a slash. *)
Definition div (p : Path) (child : string) : Path := p ++ [child].

(** The components pathlib reads in a text: its segments, without the
    empty ones and the dots. *)
Definition parts (text : string) : list string :=
  filter (fun seg => negb (String.eqb seg "" || String.eqb seg "."))
         (Str.segments text).

(** [p / text] for any text, as a configured folder name is: a text that
    starts with a slash is an absolute path and replaces [p]. *)
Definition truediv (p : Path) (text : string) : Path :=
  if String.prefix "/" text then parts text else p ++ parts text.

(** [p.name]: the final component, empty for the root. *)
Definition name (p : Path) : string := last p "".

(** [p.parent]; the root is its own parent. *)
Definition parent (p : Path) : Path := removelast p.

(** The index pathlib splits a name at: the last dot, when it is neither
    the first nor the last character. *)
Definition split_at (nm : string) : option nat :=
  match Str.rfind_dot nm with
  | Some i =>
      if ((0 <? i) && (i <? String.length nm - 1))%nat then Some i else None
  | None => None
  end.

(** [Path.suffix] of a file name. *)
Definition suffix_of (nm : string) : string :=
  match split_at nm with
  | Some i => substring i (String.length nm - i) nm
  | None => ""
  end.

(** [Path.stem] of a file name. *)
Definition stem_of (nm : string) : string :=
  match split_at nm with
  | Some i => substring 0 i nm
  | None => nm
  end.

Definition suffix (p : Path) : string := suffix_of (name p).
Definition stem (p : Path) : string := stem_of (name p).

(** [str(p)]. *)
Definition str (p : Path) : string := "/" +++ Str.join "/" p.

(** [other] is [p] or an ancestor of [p], component-wise; this is when
    [p.relative_to(other)] does not raise. *)
Fixpoint is_relative_to (p other : Path) : bool :=
  match other, p with
  | [], _ => true
  | o :: other', x :: p' => String.eqb o x && is_relative_to p' other'
  | _ :: _, [] => false
  end.

End PurePath.

(* ================================================================== *)
(** ** Configuration *)

(** One entry of [config["rules"]]. [subfolders] is [None] when the key is
    absent, as for ["archives"] in the default table. *)
Record Rule := mkRule {
  extensions : list string;
  folder : string;
  subfolders : option (list (string * list string))
}.

Record Config := mkConfig {
  rules : list (string * Rule);
  ignore_folders : list string;
  dry_run : bool;
  create_date_folders : bool;
  backup_enabled : bool
}.

(** [default_config] of [load_config]. *)
Definition default_config : Config := {|
  rules :=
    [ ("images",
       mkRule [".jpg"; ".jpeg"; ".png"; ".gif"; ".bmp"; ".tiff"; ".svg"]
              "Images"
              (Some [ ("screenshots", ["screenshot"; "screen_shot"; "capture"]);
                      ("photos", ["photo"; "img"; "picture"]);
                      ("icons", ["icon"; "ico"]) ]));
      ("documents",
       mkRule [".pdf"; ".doc"; ".docx"; ".txt"; ".rtf"; ".odt"]
              "Documents"
              (Some [ ("pdfs", [".pdf"]);
                      ("word_docs", [".doc"; ".docx"]);
                      ("text_files", [".txt"; ".rtf"]) ]));
      ("videos",
       mkRule [".mp4"; ".avi"; ".mov"; ".wmv"; ".flv"; ".mkv"]
              "Videos"
              (Some [ ("movies", ["movie"; "film"]);
                      ("tutorials", ["tutorial"; "guide"; "how_to"]) ]));
      ("audio",
       mkRule [".mp3"; ".wav"; ".flac"; ".aac"; ".ogg"]
              "Audio"
              (Some [ ("music", ["music"; "song"]);
                      ("podcasts", ["podcast"; "episode"]);
                      ("sounds", ["sound"; "sfx"; "effect"]) ]));
      ("archives",
       mkRule [".zip"; ".rar"; ".7z"; ".tar"; ".gz"; ".bz2"]
              "Archives"
              None);
      ("code",
       mkRule [".py"; ".js"; ".html"; ".css"; ".cpp"; ".java"; ".c"]
              "Code"
              (Some [ ("python", [".py"]);
                      ("web", [".html"; ".css"; ".js"]);
                      ("cpp", [".cpp"; ".c"; ".h"]) ])) ];
  ignore_folders := ["organized"; "system"; "program files"; "windows"];
  dry_run := false;
  create_date_folders := true;
  backup_enabled := true
|}.

(* ================================================================== *)
(** ** The classifier *)

Module Classifier.

(** [for pattern in patterns: if pattern in file_name or pattern ==
    file_ext: return ...]; [true] when the [return] fires. *)
Fixpoint scan_patterns (patterns : list string) (file_name file_ext : string)
  : bool :=
  match patterns with
  | [] => false
  | pattern :: rest =>
      if Str.contains pattern file_name || String.eqb pattern file_ext
      then true
      else scan_patterns rest file_name file_ext
  end.

(** [for subfolder, patterns in rules["subfolders"].items(): ...]. *)
Fixpoint scan_subfolders (subs : list (string * list string))
         (file_name file_ext : string) : option string :=
  match subs with
  | [] => None
  | (subfolder, patterns) :: rest =>
      if scan_patterns patterns file_name file_ext
      then Some subfolder
      else scan_subfolders rest file_name file_ext
  end.

(** [for category, rules in self.config["rules"].items(): ...]. *)
Fixpoint scan_rules (rs : list (string * Rule)) (file_name file_ext : string)
  : option (string * string) :=
  match rs with
  | [] => None
  | (category, r) :: rest =>
      if Str.mem file_ext (extensions r) then
        match subfolders r with
        | Some subs =>
            match scan_subfolders subs file_name file_ext with
            | Some subfolder => Some (category, subfolder)
            | None => Some (category, "")
            end
        | None => Some (category, "")
        end
      else scan_rules rest file_name file_ext
  end.

(** [FileOrganizer.get_file_category]; [lower] is [str.lower]. *)
Definition get_file_category (lower : string -> string) (cfg : Config)
           (file_path : Path) : string * string :=
  let file_ext := lower (PurePath.suffix file_path) in
  let file_name := lower (PurePath.stem file_path) in
  match scan_rules (rules cfg) file_name file_ext with
  | Some r => r
  | None => ("misc", "")
  end.

(** The contract of the classifier in the specification's words: the
    first category whose extension list contains the extension, with the
    first subfolder one of whose patterns occurs in the stem or equals
    the extension. *)
Definition pattern_matches (file_name file_ext pattern : string) : bool :=
  Str.contains pattern file_name || String.eqb pattern file_ext.

Definition first_match_category (lower : string -> string) (cfg : Config)
           (file_path : Path) : string * string :=
  let file_ext := lower (PurePath.suffix file_path) in
  let file_name := lower (PurePath.stem file_path) in
  match find (fun cr => Str.mem file_ext (extensions (snd cr))) (rules cfg) with
  | None => ("misc", "")
  | Some (category, r) =>
      let subs := match subfolders r with Some s => s | None => [] end in
      match find (fun sp => existsb (pattern_matches file_name file_ext) (snd sp))
                 subs with
      | Some (subfolder, _) => (category, subfolder)
      | None => (category, "")
      end
  end.

End Classifier.

(* ================================================================== *)
(** ** The file system *)

(** A directory entry: a regular file with its modification time (seconds
    since the epoch) and contents, or a directory with its modification
    time and its entries in listing order. *)
Inductive Node :=
| File (mtime : Z) (data : string)
| Dir (mtime : Z) (entries : list (string * Node)).

(** The exceptions the modelled operations raise; all of them are
    subclasses of Python's [Exception]. *)
Inductive exn :=
| FileNotFoundError
| FileExistsError
| NotADirectoryError
| IsADirectoryError
| SameFileError
| ShutilError
| KeyError (key : string)
| ValueError
| JSONDecodeError
| UnicodeDecodeError
| RecursionError
| OverflowError
| OSError.

Module FS.

(** The first entry of a listing with the given name. *)
Fixpoint assoc (nm : string) (es : list (string * Node)) : option Node :=
  match es with
  | [] => None
  | (k, v) :: es' => if String.eqb nm k then Some v else assoc nm es'
  end.

(** Replace the entry named [nm], or add it at the end of the listing. *)
Fixpoint set_entry (nm : string) (v : Node) (es : list (string * Node))
  : list (string * Node) :=
  match es with
  | [] => [(nm, v)]
  | (k, w) :: es' =>
      if String.eqb nm k then (k, v) :: es' else (k, w) :: set_entry nm v es'
  end.

(** Drop the entries named [nm]. *)
Definition del_entry (nm : string) (es : list (string * Node))
  : list (string * Node) :=
  filter (fun kv => negb (String.eqb nm (fst kv))) es.

Definition update_entry (nm : string) (c : option Node)
           (es : list (string * Node)) : list (string * Node) :=
  match c with
  | Some v => set_entry nm v es
  | None => del_entry nm es
  end.

(** Path resolution from a node that may be absent. *)
Fixpoint lookup_from (p : Path) (o : option Node) : option Node :=
  match p with
  | [] => o
  | x :: p' =>
      match o with
      | Some (Dir _ es) => lookup_from p' (assoc x es)
      | _ => None
      end
  end.

Definition lookup (fs : Node) (p : Path) : option Node :=
  lookup_from p (Some fs).

(** Path resolution with the error [os.stat] reports: [ENOENT] for a
    missing component, [ENOTDIR] for a component below a regular file. *)
Fixpoint resolve_from (p : Path) (o : option Node) : exn + Node :=
  match p, o with
  | _, None => inl FileNotFoundError
  | [], Some n => inr n
  | x :: p', Some (Dir _ es) => resolve_from p' (assoc x es)
  | _ :: _, Some (File _ _) => inl NotADirectoryError
  end.

Definition resolve (fs : Node) (p : Path) : exn + Node :=
  resolve_from p (Some fs).

(** [Path.exists], [Path.is_file], [Path.is_dir]. *)
Definition path_exists (fs : Node) (p : Path) : bool :=
  match lookup fs p with Some _ => true | None => false end.

Definition is_file (fs : Node) (p : Path) : bool :=
  match lookup fs p with Some (File _ _) => true | _ => false end.

Definition is_dir (fs : Node) (p : Path) : bool :=
  match lookup fs p with Some (Dir _ _) => true | _ => false end.

(** The names listed in a directory; empty when [p] is not one. *)
Definition listdir (fs : Node) (p : Path) : list string :=
  match lookup fs p with
  | Some (Dir _ es) => map fst es
  | _ => []
  end.

(** The one way the tree changes: apply [f] to what is found at [p].
    A component below a regular file is [ENOTDIR]; a missing directory on
    the way is [ENOENT], or is created (with time [now]) when [mk] is
    set, as [mkdir(parents=True)] does. [f] returning [None] removes the
    entry. *)
Fixpoint alter_from (mk : bool) (now : Z)
         (f : option Node -> exn + option Node)
         (p : Path) (o : option Node) : exn + option Node :=
  match p with
  | [] => f o
  | x :: p' =>
      match o with
      | None =>
          if mk then
            match alter_from mk now f p' None with
            | inl e => inl e
            | inr c => inr (Some (Dir now (update_entry x c [])))
            end
          else inl FileNotFoundError
      | Some (File _ _) => inl NotADirectoryError
      | Some (Dir m es) =>
          match alter_from mk now f p' (assoc x es) with
          | inl e => inl e
          | inr c => inr (Some (Dir m (update_entry x c es)))
          end
      end
  end.

(** The root directory cannot be removed. *)
Definition alter (mk : bool) (now : Z) (f : option Node -> exn + option Node)
           (p : Path) (fs : Node) : exn + Node :=
  match alter_from mk now f p (Some fs) with
  | inl e => inl e
  | inr (Some fs') => inr fs'
  | inr None => inl IsADirectoryError
  end.

(** What [os.mkdir] followed by the [exist_ok=True] recovery of
    [Path.mkdir] does at the final component. *)
Definition make_dir (now : Z) (o : option Node) : exn + option Node :=
  match o with
  | None => inr (Some (Dir now []))
  | Some (Dir _ _) => inr o
  | Some (File _ _) => inl FileExistsError
  end.

(** [p.mkdir(exist_ok=True)]. *)
Definition mkdir (now : Z) (p : Path) (fs : Node) : exn + Node :=
  alter false now (make_dir now) p fs.

(** [p.mkdir(parents=True, exist_ok=True)]. *)
Definition mkdir_parents (now : Z) (p : Path) (fs : Node) : exn + Node :=
  alter true now (make_dir now) p fs.

(** [open(p, 'w')] and writing [v]: creates or truncates a regular file. *)
Definition write_node (v : Node) (o : option Node) : exn + option Node :=
  match o with
  | Some (Dir _ _) => inl IsADirectoryError
  | _ => inr (Some v)
  end.

Definition write (p : Path) (v : Node) (fs : Node) : exn + Node :=
  alter false 0%Z (write_node v) p fs.

(** [os.unlink(p)]. *)
Definition unlink_node (o : option Node) : exn + option Node :=
  match o with
  | Some (File _ _) => inr None
  | Some (Dir _ _) => inl IsADirectoryError
  | None => inl FileNotFoundError
  end.

Definition unlink (p : Path) (fs : Node) : exn + Node :=
  alter false 0%Z unlink_node p fs.

(** [shutil.copy2(src, dst)]: a destination that is a directory receives
    the file under the source's name; an existing regular file is
    overwritten; the modification time is carried over. *)
Definition copy2 (src dst : Path) (fs : Node) : exn + Node :=
  let real_dst :=
    if is_dir fs dst then PurePath.div dst (PurePath.name src) else dst in
  if path_exists fs real_dst && path_exists fs src
     && if list_eq_dec string_dec src real_dst then true else false
  then inl SameFileError
  else
    match resolve fs src with
    | inl e => inl e
    | inr (Dir _ _) => inl IsADirectoryError
    | inr (File m d) => write real_dst (File m d) fs
    end.

(** [os.rename(src, dst)] for a destination that is not a directory: the
    node at [src] replaces what is at [dst] and leaves [src]. *)
Definition rename (src dst : Path) (fs : Node) : exn + Node :=
  match resolve fs src with
  | inl e => inl e
  | inr (File m d) =>
      match write dst (File m d) fs with
      | inl e => inl e
      | inr fs' =>
          if list_eq_dec string_dec src dst then inr fs' else unlink src fs'
      end
  | inr (Dir m es) =>
      if PurePath.is_relative_to dst src then inl ShutilError
      else if path_exists fs dst then inl FileExistsError
      else
        match alter false 0%Z (fun _ => inr (Some (Dir m es))) dst fs with
        | inl e => inl e
        | inr fs' => alter false 0%Z (fun _ => inr None) src fs'
        end
  end.

(** [shutil.move(src, dst)]: into [dst] when it is a directory, refusing
    to replace an entry there; otherwise a rename. *)
Definition move (src dst : Path) (fs : Node) : exn + Node :=
  if is_dir fs dst then
    if list_eq_dec string_dec src dst then inr fs
    else
      let real_dst := PurePath.div dst (PurePath.name src) in
      if path_exists fs real_dst then inl ShutilError
      else rename src real_dst fs
  else rename src dst fs.

End FS.

(* ================================================================== *)
(** ** Calendar *)

Module Calendar.
Local Open Scope Z_scope.

(** Year and month of the proleptic Gregorian calendar for a day count
    since 1970-01-01, as [datetime] computes them. *)
Definition civil_year_month (days : Z) : Z * Z :=
  let z := days + 719468 in
  let era := z / 146097 in
  let doe := z - era * 146097 in
  let yoe := (doe - doe / 1460 + doe / 36524 - doe / 146096) / 365 in
  let doy := doe - (365 * yoe + yoe / 4 - yoe / 100) in
  let mp := (5 * doy + 2) / 153 in
  let m := if mp <? 10 then mp + 3 else mp - 9 in
  let y := yoe + era * 400 in
  (if m <=? 2 then y + 1 else y, m).

(** Two decimal digits, zero padded: the [%m] of [strftime]. *)
Definition two_digits (n : Z) : string :=
  if n <? 10 then "0" +++ Str.of_nat (Z.to_nat n) else Str.of_nat (Z.to_nat n).

(** [datetime.fromtimestamp(t)] where the local time is [offset] seconds
    ahead of UTC at [t]: the year and month of the local date, or nothing
    when the year is outside [MINYEAR] to [MAXYEAR] and the call raises. *)
Definition fromtimestamp (offset : Z) (t : Z) : option (Z * Z) :=
  let file_date := civil_year_month ((t + offset) / 86400) in
  if (1 <=? fst file_date) && (fst file_date <=? 9999)
  then Some file_date else None.

(** [file_date.strftime("%Y-%m")]. *)
Definition strftime_Ym (file_date : Z * Z) : string :=
  let (y, m) := file_date in
  Str.of_nat (Z.to_nat y) +++ "-" +++ two_digits m.

End Calendar.

(* ================================================================== *)
(** ** The organizer's state and effects *)

(** [self.stats]. *)
Record Stats := mkStats {
  files_processed : nat;
  files_moved : nat;
  directories_created : nat;
  errors : nat
}.

(** What the script prints, one constructor per [print] site. *)
Inductive message :=
| MsgLoadedConfig (config_file : Path)
| MsgInvalidConfig
| MsgCreatedConfig (config_file : Path)
| MsgSourceMissing (source : Path)
| MsgStarting (source : Path) (dry : bool)
| MsgAction (action : string) (name : string) (relative : Path)
| MsgFileError (name : string) (e : exn)
| MsgSummary (s : Stats) (dry : bool)
| MsgHeader
| MsgTip (config_file : Path).

(** The instance fields of a [FileOrganizer] together with the world it
    acts on: the file system and the console. *)
Record State := mkState {
  config : Config;
  stats : Stats;
  fs : Node;
  console : list message
}.

(** What the platform supplies: the JSON codec for configurations, the
    clock, the local time zone as an offset from UTC at a time, and the
    lower-casing of the interpreter's Unicode tables.
    [json_load] is [json.load] on the contents of a file: the
    configuration read, or the exception raised, [JSONDecodeError] for a
    text that is not JSON, [UnicodeDecodeError] for bytes that are no
    text, [RecursionError] for a nesting too deep.
    [fromtimestamp_error] is the exception of [datetime.fromtimestamp]
    for a time it cannot represent: [ValueError] for a year outside 1 to
    9999, [OverflowError] or [OSError] beyond what the C library takes.
    [str_lower] is [str.lower]. *)
Record Platform := mkPlatform {
  json_load : string -> exn + Config;
  json_dump : Config -> string;
  time_now : Z;
  utcoffset : Z -> Z;
  fromtimestamp_error : Z -> exn;
  str_lower : string -> string
}.

(** A method body: it runs from a state and leaves a state, returning a
    value or raising; the state left behind on a raise keeps the effects
    performed before it. *)
Definition M (A : Type) : Type := State -> State * (exn + A).

Definition ret {A} (a : A) : M A := fun st => (st, inr a).

Definition bind {A B} (c : M A) (k : A -> M B) : M B :=
  fun st =>
    match c st with
    | (st', inl e) => (st', inl e)
    | (st', inr a) => k a st'
    end.

Definition raise {A} (e : exn) : M A := fun st => (st, inl e).

Notation "x <- c ;; k" := (bind c (fun x => k))
  (at level 61, c at next level, right associativity).
Notation "c ;;; k" := (bind c (fun _ => k))
  (at level 61, right associativity).

Definition get_config : M Config := fun st => (st, inr (config st)).
Definition get_fs : M Node := fun st => (st, inr (fs st)).
Definition get_stats : M Stats := fun st => (st, inr (stats st)).

Definition set_fs (fs' : Node) : M unit :=
  fun st => (mkState (config st) (stats st) fs' (console st), inr tt).

Definition set_stats (s : Stats) : M unit :=
  fun st => (mkState (config st) s (fs st) (console st), inr tt).

Definition print (m : message) : M unit :=
  fun st => (mkState (config st) (stats st) (fs st) (console st ++ [m]), inr tt).

(** Run a file-system operation: its result replaces the tree, its error
    is raised. *)
Definition fs_op (op : Node -> exn + Node) : M unit :=
  fun st =>
    match op (fs st) with
    | inl e => (st, inl e)
    | inr fs' => (mkState (config st) (stats st) fs' (console st), inr tt)
    end.

Definition when (b : bool) (c : M unit) : M unit := if b then c else ret tt.

Definition incr_files_processed : M unit :=
  fun st =>
    let s := stats st in
    set_stats (mkStats (S (files_processed s)) (files_moved s)
                       (directories_created s) (errors s)) st.

Definition incr_files_moved : M unit :=
  fun st =>
    let s := stats st in
    set_stats (mkStats (files_processed s) (S (files_moved s))
                       (directories_created s) (errors s)) st.

Definition incr_directories_created : M unit :=
  fun st =>
    let s := stats st in
    set_stats (mkStats (files_processed s) (files_moved s)
                       (S (directories_created s)) (errors s)) st.

Definition incr_errors : M unit :=
  fun st =>
    let s := stats st in
    set_stats (mkStats (files_processed s) (files_moved s)
                       (directories_created s) (S (errors s))) st.

(** A [dict] from strings, in insertion order. *)
Module Dict.

Fixpoint get {V} (k : string) (d : list (string * V)) : option V :=
  match d with
  | [] => None
  | (k', v) :: d' => if String.eqb k k' then Some v else get k d'
  end.

(** [d[k] = v]: an existing key keeps its place. *)
Fixpoint set {V} (k : string) (v : V) (d : list (string * V))
  : list (string * V) :=
  match d with
  | [] => [(k, v)]
  | (k', w) :: d' =>
      if String.eqb k k' then (k', v) :: d' else (k', w) :: set k v d'
  end.

(** [d[k]], raising [KeyError]. *)
Definition index (k : string) (d : list (string * Path)) : M Path :=
  match get k d with
  | Some v => ret v
  | None => raise (KeyError k)
  end.

End Dict.

Definition set_config (cfg : Config) : M unit :=
  fun st => (mkState cfg (stats st) (fs st) (console st), inr tt).

(** [try: body except Exception as e: handler(e)]. *)
Definition try_except {A} (body : M A) (handler : exn -> M A) : M A :=
  fun st =>
    match body st with
    | (st', inl e) => handler e st'
    | (st', inr a) => (st', inr a)
    end.

(* ================================================================== *)
(** ** The organizer *)

(** [f"{stem}_{counter}{suffix}"]: the name tried for a counter value. *)
Definition numbered (stem suffix : string) (counter : nat) : string :=
  stem +++ "_" +++ Str.of_nat counter +++ suffix.

(** The [while dest_path.exists()] loop of [organize_file], on the name
    inside the destination folder: [taken] is the existence test,
    [dest_name] the loop variable. [None] when [fuel] iterations do not
    reach the exit. *)
Fixpoint collision_loop (fuel : nat) (taken : string -> bool)
         (stem suffix : string) (counter : nat) (dest_name : string)
  : option string :=
  match fuel with
  | O => None
  | S fuel' =>
      if taken dest_name
      then collision_loop fuel' taken stem suffix (S counter)
                          (numbered stem suffix counter)
      else Some dest_name
  end.

(** Lines 223 to 229: the loop is run for two more iterations than the
    destination folder has entries, which always reaches its exit
    (lemma [collision_loop_reaches_exit] below), so the fall-back branch is
    never taken. *)
Definition resolve_conflict (fs : Node) (dest_folder file_path : Path) : Path :=
  let taken := fun nm => FS.path_exists fs (PurePath.div dest_folder nm) in
  match collision_loop (2 + List.length (FS.listdir fs dest_folder)) taken
                       (PurePath.stem file_path) (PurePath.suffix file_path)
                       1 (PurePath.name file_path) with
  | Some nm => PurePath.div dest_folder nm
  | None => PurePath.div dest_folder (PurePath.name file_path)
  end.

(** [FileOrganizer.should_ignore_folder]. *)
Definition should_ignore_folder (lower : string -> string) (cfg : Config)
           (folder_name : string) : bool :=
  let folder_lower := lower folder_name in
  existsb (fun ignore => Str.contains ignore folder_lower) (ignore_folders cfg).

(** The body of the [for file in files] loop of lines 183 to 187. *)
Definition keep_file (root : Path) (file : string) : list Path :=
  let file_path := PurePath.div root file in
  if negb (Str.contains "organized" (PurePath.str file_path))
  then [file_path] else [].

(** Lines 179 to 187: [os.walk] top-down over the directory [n] found at
    [root], with the pruning of [dirs] and the filter on the path text. *)
Fixpoint walk (lower : string -> string) (cfg : Config) (root : Path)
         (n : Node) {struct n} : list Path :=
  match n with
  | File _ _ => []
  | Dir _ es =>
      flat_map (fun kv => match snd kv with
                          | File _ _ => keep_file root (fst kv)
                          | Dir _ _ => []
                          end) es
      ++ (fix below (l : list (string * Node)) : list Path :=
            match l with
            | [] => []
            | (d, c) :: l' =>
                match c with
                | Dir _ _ =>
                    if should_ignore_folder lower cfg d then []
                    else walk lower cfg (PurePath.div root d) c
                | File _ _ => []
                end ++ below l'
            end) es
  end.

(** What a run of [organize_directory] amounts to: it returned at the
    missing-source check, or went through with the given candidates. *)
Inductive RunResult :=
| SourceMissing
| Completed (files_to_process : list Path).

Definition zero_stats : Stats := mkStats 0 0 0 0.

(** Command-line arguments of [main]; the read-only [--analyze] report is
    not part of the model. *)
Record Args := mkArgs {
  arg_directory : Path;
  arg_execute : bool;
  arg_recursive : bool;
  arg_config : Path;
  arg_backup : bool;
  arg_no_date_folders : bool
}.

Section Organizer.

Variable os : Platform.

(** [FileOrganizer.save_config]. *)
Definition save_config (config_file : Path) : M unit :=
  cfg <- get_config;;
  fs_op (FS.write config_file (File (time_now os) (json_dump os cfg))).

(** [FileOrganizer.load_config], lines 88 to 99. The [except] clause of
    line 93 names [json.JSONDecodeError]: any other exception of
    [json.load] leaves the method. *)
Definition load_config (config_file : Path) : M unit :=
  tree <- get_fs;;
  if FS.path_exists tree config_file then
    match FS.resolve tree config_file with
    | inl e => raise e
    | inr (Dir _ _) => raise IsADirectoryError
    | inr (File _ data) =>
        match json_load os data with
        | inr cfg => set_config cfg;;; print (MsgLoadedConfig config_file)
        | inl JSONDecodeError =>
            print MsgInvalidConfig;;; set_config default_config
        | inl e => raise e
        end
    end
  else
    set_config default_config;;;
    save_config config_file;;;
    print (MsgCreatedConfig config_file).

(** [FileOrganizer.__init__] on a file system and console: the state the
    new object starts in, or the exception [load_config] raised. *)
Definition init (config_file : Path) (tree : Node) (out : list message)
  : State * (exn + unit) :=
  (load_config config_file;;; set_stats zero_stats)
    (mkState default_config zero_stats tree out).

(** The inner loop of [create_organized_structure], lines 140 to 145. *)
Fixpoint create_subfolders (category : string) (category_path : Path)
         (subs : list (string * list string))
         (folder_map : list (string * Path)) : M (list (string * Path)) :=
  match subs with
  | [] => ret folder_map
  | (subfolder, _) :: rest =>
      let subfolder_path := PurePath.truediv category_path subfolder in
      cfg <- get_config;;
      when (negb (dry_run cfg))
           (fs_op (FS.mkdir (time_now os) subfolder_path);;;
            incr_directories_created);;;
      create_subfolders category category_path rest
        (Dict.set (category +++ "_" +++ subfolder) subfolder_path folder_map)
  end.

(** The outer loop of [create_organized_structure], lines 129 to 145. *)
Fixpoint create_categories (organized_path : Path) (rs : list (string * Rule))
         (folder_map : list (string * Path)) : M (list (string * Path)) :=
  match rs with
  | [] => ret folder_map
  | (category, r) :: rest =>
      let category_path := PurePath.truediv organized_path (folder r) in
      cfg <- get_config;;
      when (negb (dry_run cfg))
           (fs_op (FS.mkdir_parents (time_now os) category_path);;;
            incr_directories_created);;;
      let folder_map := Dict.set category category_path folder_map in
      folder_map <- match subfolders r with
                    | Some subs =>
                        create_subfolders category category_path subs folder_map
                    | None => ret folder_map
                    end;;
      create_categories organized_path rest folder_map
  end.

(** [FileOrganizer.create_organized_structure]. *)
Definition create_organized_structure (base_path : Path)
  : M (list (string * Path)) :=
  let organized_path := PurePath.div base_path "organized" in
  cfg <- get_config;;
  folder_map <- create_categories organized_path (rules cfg) [];;
  let misc_path := PurePath.div organized_path "Miscellaneous" in
  cfg <- get_config;;
  when (negb (dry_run cfg))
       (fs_op (FS.mkdir_parents (time_now os) misc_path));;;
  ret (Dict.set "misc" misc_path folder_map).

(** [file_path.stat().st_mtime]. *)
Definition stat_mtime (file_path : Path) : M Z :=
  tree <- get_fs;;
  match FS.resolve tree file_path with
  | inl e => raise e
  | inr (File m _) => ret m
  | inr (Dir m _) => ret m
  end.

(** [dest_path.relative_to(other)]. *)
Definition relative_to (dest_path other : Path) : M Path :=
  if PurePath.is_relative_to dest_path other
  then ret (skipn (List.length other) dest_path)
  else raise ValueError.

(** [datetime.fromtimestamp(t)] in the local time zone. *)
Definition fromtimestamp (t : Z) : M (Z * Z) :=
  match Calendar.fromtimestamp (utcoffset os t) t with
  | Some file_date => ret file_date
  | None => raise (fromtimestamp_error os t)
  end.

(** Lines 204 to 220 of [organize_file]: the destination folder, with the
    date folder made when it is enabled and the run is not a dry run. *)
Definition destination_folder (file_path : Path)
           (folder_map : list (string * Path)) : M Path :=
  cfg <- get_config;;
  let (category, subfolder) :=
    Classifier.get_file_category (str_lower os) cfg file_path in
  dest_folder <-
    (if negb (String.eqb subfolder "") then
       fallback <- Dict.index category folder_map;;
       ret (match Dict.get (category +++ "_" +++ subfolder) folder_map with
            | Some v => v
            | None => fallback
            end)
     else Dict.index category folder_map);;
  if create_date_folders cfg then
    mtime <- stat_mtime file_path;;
    file_date <- fromtimestamp mtime;;
    let date_folder :=
      PurePath.div dest_folder (Calendar.strftime_Ym file_date) in
    when (negb (dry_run cfg)) (fs_op (FS.mkdir (time_now os) date_folder));;;
    ret date_folder
  else ret dest_folder.

(** [FileOrganizer.organize_file]. *)
Definition organize_file (file_path : Path) (folder_map : list (string * Path))
  : M unit :=
  dest_folder <- destination_folder file_path folder_map;;
  cfg <- get_config;;
  tree <- get_fs;;
  let dest_path := resolve_conflict tree dest_folder file_path in
  let action := if negb (backup_enabled cfg) then "MOVE" else "COPY" in
  relative <- relative_to dest_path
                          (PurePath.parent (PurePath.parent file_path));;
  print (MsgAction action (PurePath.name file_path) relative);;;
  when (negb (dry_run cfg))
       ((if backup_enabled cfg
         then fs_op (FS.copy2 file_path dest_path)
         else fs_op (FS.move file_path dest_path));;;
        incr_files_moved).

(** [FileOrganizer.print_summary]. *)
Definition print_summary : M unit :=
  s <- get_stats;;
  cfg <- get_config;;
  print (MsgSummary s (dry_run cfg)).

(** The loop of lines 192 to 198. *)
Fixpoint process_files (files_to_process : list Path)
         (folder_map : list (string * Path)) : M unit :=
  match files_to_process with
  | [] => ret tt
  | file_path :: rest =>
      try_except
        (organize_file file_path folder_map;;; incr_files_processed)
        (fun e =>
           print (MsgFileError (PurePath.name file_path) e);;; incr_errors);;;
      process_files rest folder_map
  end.

(** Lines 176 to 189: the candidates. [os.walk] yields nothing when the
    top is not a directory; [iterdir] raises. *)
Definition gather (source : Path) (recursive : bool) : M (list Path) :=
  cfg <- get_config;;
  tree <- get_fs;;
  if recursive then
    match FS.lookup tree source with
    | Some n => ret (walk (str_lower os) cfg source n)
    | None => ret []
    end
  else
    match FS.resolve tree source with
    | inl e => raise e
    | inr (File _ _) => raise NotADirectoryError
    | inr (Dir _ es) =>
        ret (filter (FS.is_file tree)
                    (map (fun kv => PurePath.div source (fst kv)) es))
    end.

(** [FileOrganizer.organize_directory]; [source] is the resolved path. *)
Definition organize_directory (source : Path) (recursive : bool)
  : M RunResult :=
  tree <- get_fs;;
  if negb (FS.path_exists tree source) then
    print (MsgSourceMissing source);;;
    ret SourceMissing
  else
    cfg <- get_config;;
    print (MsgStarting source (dry_run cfg));;;
    folder_map <- create_organized_structure source;;
    files_to_process <- gather source recursive;;
    process_files files_to_process folder_map;;;
    print_summary;;;
    ret (Completed files_to_process).

(** [main] without [--analyze]: construct the organizer, override the
    configuration from the flags, run. *)
Definition main (args : Args) (tree : Node) (out : list message)
  : State * (exn + RunResult) :=
  match init (arg_config args) tree out with
  | (st, inl e) => (st, inl e)
  | (st, inr _) =>
      (cfg <- get_config;;
       let cfg := if negb (arg_execute args)
                  then mkConfig (rules cfg) (ignore_folders cfg) true
                                (create_date_folders cfg) (backup_enabled cfg)
                  else cfg in
       let cfg := if arg_backup args
                  then mkConfig (rules cfg) (ignore_folders cfg) (dry_run cfg)
                                (create_date_folders cfg) true
                  else cfg in
       let cfg := if arg_no_date_folders args
                  then mkConfig (rules cfg) (ignore_folders cfg) (dry_run cfg)
                                false (backup_enabled cfg)
                  else cfg in
       set_config cfg;;;
       print MsgHeader;;;
       r <- organize_directory (arg_directory args) (arg_recursive args);;
       print (MsgTip (arg_config args));;;
       ret r) st
  end.

End Organizer.

(* ================================================================== *)
(** ** Vocabulary of the properties *)

(** Operations on an entry that leave a directory found there as it is. *)
Definition keeps_dirs (f : option Node -> exn + option Node) : Prop :=
  forall m es r, f (Some (Dir m es)) = inr r -> r = Some (Dir m es).

(** A step that leaves the configuration and the two per-file counters
    alone, and the file system too when the run is a dry run. *)
Definition quiet (st st' : State) : Prop :=
  config st' = config st
  /\ files_processed (stats st') = files_processed (stats st)
  /\ errors (stats st') = errors (stats st)
  /\ (dry_run (config st) = true -> fs st' = fs st).

(** Every regular file, other than the one at [except], is still there
    with its contents and time. *)
Definition files_kept (except : option Path) (st st' : State) : Prop :=
  forall q m d,
    Some q <> except ->
    FS.lookup (fs st) q = Some (File m d) ->
    FS.lookup (fs st') q = Some (File m d).

(** Every directory is still a directory. *)
Definition dirs_kept (st st' : State) : Prop :=
  forall q, FS.is_dir (fs st) q = true -> FS.is_dir (fs st') q = true.

(** A step of the structure-building code. *)
Definition settled (st st' : State) : Prop :=
  quiet st st' /\ files_kept None st st' /\ dirs_kept st st'.

(** A step that leaves the configuration alone, and the file system too
    when the run is a dry run. *)
Definition frame (st st' : State) : Prop :=
  config st' = config st
  /\ (dry_run (config st) = true -> fs st' = fs st).

(** The candidates a run gathered: none when it stopped before the
    gathering. *)
Definition gathered (r : exn + RunResult) : list Path :=
  match r with
  | inr (Completed files_to_process) => files_to_process
  | _ => []
  end.


(** [rel] names the way from the directory [n] down to a regular file:
    folder names first, the file name last. *)
Inductive file_below : Node -> list string -> Prop :=
| file_here m es nm fm fd :
    In (nm, File fm fd) es -> file_below (Dir m es) [nm]
| file_deeper m es d dm des rel :
    In (d, Dir dm des) es ->
    file_below (Dir dm des) rel ->
    file_below (Dir m es) (d :: rel).

(** No folder on the way is pruned by [should_ignore_folder]. *)
Definition no_folder_ignored (lower : string -> string) (cfg : Config)
           (rel : list string) : Prop :=
  Forall (fun d => should_ignore_folder lower cfg d = false) (removelast rel).

(** The candidate set as the specification words it: a file under the
    source that is in no folder named in [ignore_folders] (compared
    without regard to case) and is not under the organized root. *)
Definition claimed_candidate (lower : string -> string) (cfg : Config)
           (source : Path) (n : Node) (p : Path) : Prop :=
  exists rel,
    p = source ++ rel
    /\ file_below n rel
    /\ (forall d, In d (removelast rel) ->
                  ~ In (lower d) (ignore_folders cfg))
    /\ hd_error rel <> Some "organized".

(** The folder map [create_organized_structure] builds, as a function of
    the rule table alone: the entries of the inner loop, of the outer
    loop, and the whole map. *)
Fixpoint subfolder_entries (category : string) (category_path : Path)
         (subs : list (string * list string))
         (folder_map : list (string * Path)) : list (string * Path) :=
  match subs with
  | [] => folder_map
  | (subfolder, _) :: rest =>
      subfolder_entries category category_path rest
        (Dict.set (category +++ "_" +++ subfolder)
                  (PurePath.truediv category_path subfolder) folder_map)
  end.

Fixpoint category_entries (organized_path : Path) (rs : list (string * Rule))
         (folder_map : list (string * Path)) : list (string * Path) :=
  match rs with
  | [] => folder_map
  | (category, r) :: rest =>
      let category_path := PurePath.truediv organized_path (folder r) in
      let folder_map := Dict.set category category_path folder_map in
      category_entries organized_path rest
        match subfolders r with
        | Some subs => subfolder_entries category category_path subs folder_map
        | None => folder_map
        end
  end.

Definition folder_map_of (cfg : Config) (base_path : Path)
  : list (string * Path) :=
  let organized_path := PurePath.div base_path "organized" in
  Dict.set "misc" (PurePath.div organized_path "Miscellaneous")
           (category_entries organized_path (rules cfg) []).

(** Every folder of a folder map is a directory of the tree. *)
Definition all_dirs (tree : Node) (folder_map : list (string * Path)) : Prop :=
  Forall (fun kv => FS.is_dir tree (snd kv) = true) folder_map.

(* ================================================================== *)
(** ** A worked input *)

Module Sample.

(** The contents of a file that is no text: the single byte 255. *)
Definition binary : string := String (ascii_of_nat 255) EmptyString.

(** A platform whose JSON reader rejects every text and cannot decode
    [binary], at a fixed time, in UTC, with ASCII names. *)
Definition platform : Platform :=
  mkPlatform (fun data => if String.eqb data binary
                          then inl UnicodeDecodeError
                          else inl JSONDecodeError)
             (fun _ => "{}") 1700000000%Z (fun _ => 0%Z)
             (fun _ => ValueError) Str.ascii_lower.

(** The directory [/home/u]: two files to organize, a folder whose name
    contains an ignored word, a nested folder, and an organized tree from
    an earlier run that already holds a [notes.txt]. *)
Definition source_node : Node :=
  Dir 0 [ ("screenshot_2024.png", File 1710000000 "PNG");
          ("notes.txt", File 1700000000 "new");
          ("ecosystem", Dir 0 [ ("a.txt", File 1 "x") ]);
          ("sub", Dir 0 [ ("deep", Dir 0 [ ("a.mp3", File 5 "x") ]);
                          ("b.py", File 6 "y") ]);
          ("organized",
           Dir 0 [ ("Documents",
                    Dir 0 [ ("text_files",
                             Dir 0 [ ("2023-11",
                                      Dir 0 [ ("notes.txt", File 1 "old") ])
                                   ]) ]) ]) ].

Definition tree : Node := Dir 0 [ ("home", Dir 0 [ ("u", source_node) ]) ].

Definition source : Path := ["home"; "u"].

Definition config_file : Path := ["home"; "u"; "organizer_config.json"].

(** The same tree with a configuration file that is not JSON. *)
Definition tree_with_bad_config : Node :=
  Dir 0 [ ("home",
           Dir 0 [ ("u", Dir 0 [ ("organizer_config.json", File 7 "{oops") ]) ])
        ].

(** The same tree with a configuration file that is no text. *)
Definition tree_with_binary_config : Node :=
  Dir 0 [ ("home",
           Dir 0 [ ("u", Dir 0 [ ("organizer_config.json", File 7 binary) ]) ])
        ].

Definition dry_config : Config :=
  mkConfig (rules default_config) (ignore_folders default_config) true
           (create_date_folders default_config)
           (backup_enabled default_config).

(** A freshly constructed organizer in live mode and in dry-run mode. *)
Definition live : State := mkState default_config zero_stats tree [].
Definition dry : State := mkState dry_config zero_stats tree [].

Definition folder_map : list (string * Path) :=
  folder_map_of default_config source.

(** The command line [organizer.py /home/u --config ...], without
    [--execute]. *)
Definition args : Args :=
  mkArgs source false false config_file false false.

End Sample.

(* ================================================================== *)
(** ** Vocabulary of the further properties *)

(** [p] lies in the organized root of [base_path]. *)
Definition under_organized (base_path p : Path) : Prop :=
  exists rest, p = base_path ++ "organized" :: rest.

(** No folder and no subfolder of the rule table is written as an
    absolute path. *)
Definition relative_names (rs : list (string * Rule)) : bool :=
  forallb
    (fun cr =>
       negb (String.prefix "/" (folder (snd cr)))
       && match subfolders (snd cr) with
          | Some subs =>
              forallb (fun sp => negb (String.prefix "/" (fst sp))) subs
          | None => true
          end)
    rs.

(** The [mkdir] calls [create_organized_structure] counts: one for each
    category and one for each subfolder. *)
Definition structure_size (rs : list (string * Rule)) : nat :=
  fold_right
    (fun cr n =>
       S (match subfolders (snd cr) with
          | Some subs => List.length subs
          | None => 0
          end + n))
    0 rs.

(** The directories [create_organized_structure] makes, in the order it
    makes them. *)
Definition category_paths (organized_path : Path) (rs : list (string * Rule))
  : list Path :=
  flat_map
    (fun cr =>
       let category_path :=
         PurePath.truediv organized_path (folder (snd cr)) in
       category_path
       :: match subfolders (snd cr) with
          | Some subs =>
              map (fun sp => PurePath.truediv category_path (fst sp)) subs
          | None => []
          end)
    rs.

Definition structure_paths (cfg : Config) (base_path : Path) : list Path :=
  let organized_path := PurePath.div base_path "organized" in
  category_paths organized_path (rules cfg)
  ++ [PurePath.div organized_path "Miscellaneous"].

(** The string has an ASCII upper-case letter. *)
Definition is_upper (c : ascii) : bool :=
  let n := nat_of_ascii c in ((65 <=? n) && (n <=? 90))%nat.

Fixpoint has_upper (s : string) : bool :=
  match s with
  | EmptyString => false
  | String c s' => is_upper c || has_upper s'
  end.

(** No two entries of a directory have the same name, at any depth. *)
Inductive unique_names : Node -> Prop :=
| unique_file m d : unique_names (File m d)
| unique_dir m es :
    NoDup (map fst es) ->
    Forall (fun kv => unique_names (snd kv)) es ->
    unique_names (Dir m es).

(** A platform whose JSON reader reads back the one text its writer
    produces. *)
Definition round_trip_platform : Platform :=
  mkPlatform (fun text => if String.eqb text "{}" then inr default_config
                          else inl JSONDecodeError)
             (fun _ => "{}") 1700000000%Z (fun _ => 0%Z)
             (fun _ => ValueError) Str.ascii_lower.

(** A step that leaves the configuration and [files_moved] alone, and
    [directories_created] too when the run is a dry run. *)
Definition counters_idle (st st' : State) : Prop :=
  config st' = config st
  /\ files_moved (stats st') = files_moved (stats st)
  /\ (dry_run (config st) = true ->
      directories_created (stats st') = directories_created (stats st)).

(** A step of the file loop: the configuration and [directories_created]
    are as before, a dry run leaves [files_moved] alone, and a live run
    adds to [files_moved] what it adds to [files_processed]. *)
Definition moves_tally (st st' : State) : Prop :=
  config st' = config st
  /\ directories_created (stats st') = directories_created (stats st)
  /\ (dry_run (config st) = true ->
      files_moved (stats st') = files_moved (stats st))
  /\ (dry_run (config st) = false ->
      files_moved (stats st') + files_processed (stats st)
      = files_moved (stats st) + files_processed (stats st')).

(** What a whole run keeps: the configuration; in a dry run
    [files_moved] and [directories_created]; in a live run the equality
    of what is added to [files_moved] and to [files_processed]. *)
Definition run_tally (st st' : State) : Prop :=
  config st' = config st
  /\ (dry_run (config st) = true ->
      files_moved (stats st') = files_moved (stats st)
      /\ directories_created (stats st') = directories_created (stats st))
  /\ (dry_run (config st) = false ->
      files_moved (stats st') + files_processed (stats st)
      = files_moved (stats st) + files_processed (stats st')).

(** A step that leaves the configuration alone and keeps every regular
    file. *)
Definition keeps_all_files (st st' : State) : Prop :=
  config st' = config st /\ files_kept None st st'.

(* ================================================================== *)
(** ** The analysis report *)

(** One value of the [analysis] dictionary of [analyze_directory]: the
    keys [count], [size] and [files]. *)
Record Tally := mkTally {
  tally_count : nat;
  tally_size : nat;
  tally_files : list string
}.

(** [source.rglob("*")] over the directory [n] found at [root]: every
    entry below it, the entries of a directory before those of its
    subdirectories; nothing when [n] is not a directory. *)
Fixpoint rglob (root : Path) (n : Node) {struct n} : list Path :=
  match n with
  | File _ _ => []
  | Dir _ es =>
      map (fun kv => PurePath.div root (fst kv)) es
      ++ (fix below (l : list (string * Node)) : list Path :=
            match l with
            | [] => []
            | (d, c) :: l' => rglob (PurePath.div root d) c ++ below l'
            end) es
  end.

(** [f"{category}/{subfolder}" if subfolder else category]. *)
Definition analysis_key (cs : string * string) : string :=
  if String.eqb (snd cs) "" then fst cs else fst cs +++ "/" +++ snd cs.

(** [analysis[key]["count"] += 1] and the two lines after it; [st_size]
    is the length of the contents. *)
Definition record_file (t : Tally) (file_name data : string) : Tally :=
  mkTally (S (tally_count t)) (tally_size t + String.length data)
          (tally_files t ++ [file_name]).

(** The body of the loop of lines 261 to 271. The entry read at line 269
    is the one line 267 has just made when the key was new. *)
Definition analyze_file (lower : string -> string) (cfg : Config)
           (tree : Node) (analysis : list (string * Tally))
           (file_path : Path) : list (string * Tally) :=
  match FS.lookup tree file_path with
  | Some (File _ data) =>
      let key :=
        analysis_key (Classifier.get_file_category lower cfg file_path) in
      let analysis :=
        match Dict.get key analysis with
        | None => Dict.set key (mkTally 0 0 []) analysis
        | Some _ => analysis
        end in
      match Dict.get key analysis with
      | Some t =>
          Dict.set key (record_file t (PurePath.name file_path) data) analysis
      | None => analysis
      end
  | _ => analysis
  end.

(** Lines 258 to 271 of [analyze_directory]: the dictionary the report is
    printed from. *)
Definition analysis_of (lower : string -> string) (cfg : Config)
           (tree : Node) (source : Path) : list (string * Tally) :=
  match FS.lookup tree source with
  | Some n => fold_left (analyze_file lower cfg tree) (rglob source n) []
  | None => []
  end.

(** Lines 281 to 287: the names printed for a category, and the number
    announced as [... and n more]. *)
Definition listed (files : list string) : list string * option nat :=
  if (List.length files <=? 5)%nat then (files, None)
  else (firstn 3 files, Some (List.length files - 3)).

(** The function [analyze_file] computes on a dictionary, written by
    recursion on the entries. *)
Fixpoint recorded (key file_name data : string) (d : list (string * Tally))
  : list (string * Tally) :=
  match d with
  | [] => [(key, record_file (mkTally 0 0 []) file_name data)]
  | (k, t) :: d' =>
      if String.eqb key k then (k, record_file t file_name data) :: d'
      else (k, t) :: recorded key file_name data d'
  end.

Definition total_count (d : list (string * Tally)) : nat :=
  list_sum (map (fun kt => tally_count (snd kt)) d).

(** An entry counts the names it lists, and lists one at least. *)
Definition sound_tally (kt : string * Tally) : Prop :=
  tally_count (snd kt) = List.length (tally_files (snd kt))
  /\ (0 < tally_count (snd kt))%nat.

(* ================================================================== *)
(** * Properties *)

Unset Implicit Arguments.

(** ** The classifier *)

Lemma scan_patterns_existsb patterns file_name file_ext :
  Classifier.scan_patterns patterns file_name file_ext
  = existsb (Classifier.pattern_matches file_name file_ext) patterns.
Proof.
  induction patterns as [|pattern rest IH]; simpl; [reflexivity|].
  unfold Classifier.pattern_matches at 1.
  destruct (Str.contains pattern file_name || String.eqb pattern file_ext);
    simpl; [reflexivity | exact IH].
Qed.

Lemma scan_subfolders_find subs file_name file_ext :
  Classifier.scan_subfolders subs file_name file_ext
  = option_map fst
      (find (fun sp => existsb (Classifier.pattern_matches file_name file_ext)
                               (snd sp))
            subs).
Proof.
  induction subs as [|[subfolder patterns] rest IH]; simpl; [reflexivity|].
  rewrite scan_patterns_existsb.
  destruct (existsb (Classifier.pattern_matches file_name file_ext) patterns);
    simpl; [reflexivity | exact IH].
Qed.

(** C1. For every configuration and file path, [get_file_category]
    returns the first category, in iteration order, whose extension list
    contains the lower-cased extension, paired with the first subfolder
    of that category one of whose patterns is a substring of the
    lower-cased stem or equals the extension; the subfolder is empty when
    the category has none that matches, and the result is
    [("misc", "")] when no category lists the extension. *)
Theorem get_file_category_first_match (lower : string -> string)
        (cfg : Config) (file_path : Path) :
  Classifier.get_file_category lower cfg file_path
  = Classifier.first_match_category lower cfg file_path.
Proof.
  unfold Classifier.get_file_category, Classifier.first_match_category.
  set (file_ext := lower (PurePath.suffix file_path)).
  set (file_name := lower (PurePath.stem file_path)).
  induction (rules cfg) as [|[category r] rest IH]; simpl; [reflexivity|].
  destruct (Str.mem file_ext (extensions r)); [|exact IH].
  destruct (subfolders r) as [subs|]; simpl; [|reflexivity].
  rewrite scan_subfolders_find.
  destruct (find _ subs) as [[subfolder patterns]|]; reflexivity.
Qed.

(** The classifier and pathlib's splitting on some names. *)
Example split_names :
  (PurePath.stem_of "screenshot_2024.png", PurePath.suffix_of "screenshot_2024.png")
  = ("screenshot_2024", ".png")
  /\ (PurePath.stem_of "a.tar.gz", PurePath.suffix_of "a.tar.gz")
     = ("a.tar", ".gz")
  /\ (PurePath.stem_of ".bashrc", PurePath.suffix_of ".bashrc") = (".bashrc", "")
  /\ (PurePath.stem_of "notes.", PurePath.suffix_of "notes.") = ("notes.", "").
Proof. repeat split; reflexivity. Qed.

Example classify_default :
  let classify :=
    Classifier.get_file_category Str.ascii_lower default_config in
  classify ["home"; "u"; "Screenshot_2024.PNG"] = ("images", "screenshots")
  /\ classify ["home"; "u"; "report.pdf"] = ("documents", "pdfs")
  /\ classify ["home"; "u"; "backup.zip"] = ("archives", "")
  /\ classify ["home"; "u"; "logo.png"] = ("images", "")
  /\ classify ["home"; "u"; "util.h"] = ("misc", "").
Proof. repeat split; reflexivity. Qed.

Example year_month_of_a_timestamp :
  let year_month offset t :=
    option_map Calendar.strftime_Ym (Calendar.fromtimestamp offset t) in
  year_month 0%Z 1710000000%Z = Some "2024-03"
  /\ year_month 0%Z 1735689599%Z = Some "2024-12"
  /\ year_month 3600%Z 1735689599%Z = Some "2025-01"
  /\ year_month 0%Z 951782400%Z = Some "2000-02"
  /\ year_month 0%Z 253402300800%Z = None
  /\ year_month 0%Z (-62135596801)%Z = None.
Proof. repeat split; reflexivity. Qed.

(** ** Strings *)

Lemma length_append (s t : string) :
  String.length (s +++ t) = String.length s + String.length t.
Proof. induction s as [|c s IH]; simpl; [reflexivity | now rewrite IH]. Qed.

Lemma append_inj_l (s x y : string) : s +++ x = s +++ y -> x = y.
Proof.
  induction s as [|c s IH]; simpl; intros H; [exact H|].
  injection H as H. auto.
Qed.

Lemma append_inj_r (t x y : string) : x +++ t = y +++ t -> x = y.
Proof.
  revert y. induction x as [|c x IH]; intros [|d y] H; simpl in H.
  - reflexivity.
  - apply (f_equal String.length) in H. simpl in H.
    rewrite length_append in H. lia.
  - apply (f_equal String.length) in H. simpl in H.
    rewrite length_append in H. lia.
  - injection H as Hc H. subst d. f_equal. auto.
Qed.

Lemma of_nat_inj (a b : nat) : Str.of_nat a = Str.of_nat b -> a = b.
Proof.
  unfold Str.of_nat. intros H.
  assert (Hu : Some (Nat.to_uint a) = Some (Nat.to_uint b)).
  { rewrite <- !NilEmpty.usu. now rewrite H. }
  injection Hu as Hu.
  rewrite <- (Unsigned.of_to a), <- (Unsigned.of_to b). now rewrite Hu.
Qed.

Lemma numbered_inj (stem suffix : string) (a b : nat) :
  numbered stem suffix a = numbered stem suffix b -> a = b.
Proof.
  unfold numbered. intros H.
  apply append_inj_l in H. apply append_inj_l in H.
  apply append_inj_r in H. now apply of_nat_inj.
Qed.

(** ** The collision loop *)

Lemma collision_loop_none fuel taken stem suffix counter dest_name :
  collision_loop fuel taken stem suffix counter dest_name = None ->
  forall i, S i < fuel -> taken (numbered stem suffix (counter + i)) = true.
Proof.
  revert counter dest_name.
  induction fuel as [|fuel IH]; intros counter dest_name H i Hi; [lia|].
  simpl in H. destruct (taken dest_name); [|discriminate].
  destruct fuel as [|fuel]; [lia|].
  destruct i as [|i].
  - rewrite Nat.add_0_r. simpl in H.
    destruct (taken (numbered stem suffix counter)); [reflexivity|discriminate].
  - replace (counter + S i) with (S counter + i) by lia.
    apply (IH _ _ H). lia.
Qed.

Lemma collision_loop_some fuel taken stem suffix counter dest_name r :
  collision_loop fuel taken stem suffix counter dest_name = Some r ->
  taken r = false
  /\ ((r = dest_name)
      \/ (taken dest_name = true
          /\ exists k, counter <= k /\ r = numbered stem suffix k
                       /\ forall j, counter <= j < k ->
                                    taken (numbered stem suffix j) = true)).
Proof.
  revert counter dest_name.
  induction fuel as [|fuel IH]; intros counter dest_name H; [discriminate|].
  simpl in H. destruct (taken dest_name) eqn:Hd.
  - destruct (IH _ _ H) as [Hr [Heq | [Ht [k [Hk [Hrk Hall]]]]]].
    + split; [exact Hr|]. right. split; [reflexivity|].
      exists counter. repeat split; [lia | exact Heq | intros j Hj; lia].
    + split; [exact Hr|]. right. split; [reflexivity|].
      exists k. repeat split; [lia | exact Hrk |].
      intros j Hj. destruct (Nat.eq_dec j counter) as [->|Hne];
        [exact Ht | apply Hall; lia].
  - injection H as <-. split; [exact Hd | now left].
Qed.

Lemma collision_loop_mono fuel fuel' taken stem suffix counter dest_name r :
  collision_loop fuel taken stem suffix counter dest_name = Some r ->
  fuel <= fuel' ->
  collision_loop fuel' taken stem suffix counter dest_name = Some r.
Proof.
  revert fuel' counter dest_name.
  induction fuel as [|fuel IH]; intros fuel' counter dest_name H Hle;
    [discriminate|].
  destruct fuel' as [|fuel']; [lia|].
  simpl in *. destruct (taken dest_name); [|exact H].
  apply IH; [exact H | lia].
Qed.

(** Pigeonhole: the numbered names are pairwise distinct, so a directory
    with [n] entries cannot hold [n + 1] of them. *)
Lemma numbered_not_all_taken taken (entries : list string) stem suffix counter :
  (forall nm, taken nm = true -> In nm entries) ->
  ~ (forall i, i <= List.length entries ->
               taken (numbered stem suffix (counter + i)) = true).
Proof.
  intros Hfin Hall.
  set (cands := map (fun i => numbered stem suffix (counter + i))
                    (seq 0 (S (List.length entries)))).
  assert (Hnd : NoDup cands).
  { apply Injective_map_NoDup; [|apply seq_NoDup].
    intros a b Hab. apply numbered_inj in Hab. lia. }
  assert (Hincl : incl cands entries).
  { intros nm Hin. apply in_map_iff in Hin as [i [<- Hi]].
    apply in_seq in Hi. apply Hfin, Hall. lia. }
  pose proof (NoDup_incl_length Hnd Hincl) as Hlen.
  unfold cands in Hlen. rewrite length_map, length_seq in Hlen. lia.
Qed.

Lemma collision_loop_reaches_exit taken (entries : list string)
      stem suffix counter dest_name :
  (forall nm, taken nm = true -> In nm entries) ->
  exists r, collision_loop (2 + List.length entries) taken stem suffix counter
                           dest_name = Some r.
Proof.
  intros Hfin.
  destruct (collision_loop (2 + List.length entries) taken stem suffix counter
                           dest_name) as [r|] eqn:H; [now exists r|].
  exfalso. apply (@numbered_not_all_taken taken entries stem suffix counter Hfin).
  intros i Hi. apply (collision_loop_none _ _ _ _ _ _ H). lia.
Qed.

(** C8. For every finite set of existing directory entries (the names
    [taken] holds of are among the list [entries]), the collision loop
    reaches its exit within two more iterations than there are entries,
    and any larger bound gives the same result; the name it returns is not
    taken, so it is not an existing entry. *)
Theorem collision_loop_terminates taken (entries : list string)
        stem suffix dest_name :
  (forall nm, taken nm = true <-> In nm entries) ->
  exists r,
    (forall fuel, 2 + List.length entries <= fuel ->
                  collision_loop fuel taken stem suffix 1 dest_name = Some r)
    /\ taken r = false
    /\ ~ In r entries.
Proof.
  intros Hfin.
  destruct (@collision_loop_reaches_exit taken entries stem suffix 1 dest_name)
    as [r Hr]; [intros nm; apply Hfin|].
  exists r. split; [|split].
  - intros fuel Hle. eapply collision_loop_mono; eassumption.
  - eapply collision_loop_some; eassumption.
  - intros Hin. apply Hfin in Hin.
    apply collision_loop_some in Hr as [Hr _]. congruence.
Qed.

(** ** The file system *)

Lemma assoc_set_entry_same x v es : FS.assoc x (FS.set_entry x v es) = Some v.
Proof.
  induction es as [|[k w] es IH]; simpl.
  - now rewrite String.eqb_refl.
  - destruct (String.eqb x k) eqn:E; simpl; rewrite E; [reflexivity | exact IH].
Qed.

Lemma assoc_set_entry_other x y v es :
  x <> y -> FS.assoc y (FS.set_entry x v es) = FS.assoc y es.
Proof.
  intros Hne. induction es as [|[k w] es IH]; simpl.
  - destruct (String.eqb_spec y x); [congruence | reflexivity].
  - destruct (String.eqb_spec x k) as [->|Hxk]; simpl.
    + destruct (String.eqb_spec y k); [congruence | reflexivity].
    + now rewrite IH.
Qed.

Lemma assoc_del_entry_same x es : FS.assoc x (FS.del_entry x es) = None.
Proof.
  induction es as [|[k w] es IH]; simpl; [reflexivity|].
  destruct (String.eqb x k) eqn:E; simpl; [exact IH | now rewrite E].
Qed.

Lemma assoc_del_entry_other x y es :
  x <> y -> FS.assoc y (FS.del_entry x es) = FS.assoc y es.
Proof.
  intros Hne. induction es as [|[k w] es IH]; simpl; [reflexivity|].
  destruct (String.eqb_spec x k) as [->|Hxk]; simpl.
  - destruct (String.eqb_spec y k); [congruence | exact IH].
  - now rewrite IH.
Qed.

Lemma assoc_update_same x c es : FS.assoc x (FS.update_entry x c es) = c.
Proof.
  destruct c; simpl; [apply assoc_set_entry_same | apply assoc_del_entry_same].
Qed.

Lemma assoc_update_other x y c es :
  x <> y -> FS.assoc y (FS.update_entry x c es) = FS.assoc y es.
Proof.
  destruct c; simpl; [apply assoc_set_entry_other | apply assoc_del_entry_other].
Qed.

Lemma assoc_In nm es v : FS.assoc nm es = Some v -> In nm (map fst es).
Proof.
  induction es as [|[k w] es IH]; simpl; [discriminate|].
  destruct (String.eqb_spec nm k); [now left | right; auto].
Qed.

Lemma lookup_from_None p : FS.lookup_from p None = None.
Proof. destruct p; reflexivity. Qed.

Lemma lookup_from_app p q o :
  FS.lookup_from (p ++ q) o = FS.lookup_from q (FS.lookup_from p o).
Proof.
  revert o. induction p as [|x p IH]; intros o; simpl; [reflexivity|].
  destruct o as [[m d|m es]|]; try apply IH.
  - now rewrite lookup_from_None.
  - now rewrite lookup_from_None.
Qed.

Lemma lookup_div fs p nm :
  FS.lookup fs (PurePath.div p nm)
  = match FS.lookup fs p with
    | Some (Dir _ es) => FS.assoc nm es
    | _ => None
    end.
Proof.
  unfold FS.lookup, PurePath.div. rewrite lookup_from_app. simpl.
  destruct (FS.lookup_from p (Some fs)) as [[m d|m es]|]; reflexivity.
Qed.

(** An entry that exists in a directory is one of its listed names. *)
Lemma path_exists_listdir fs p nm :
  FS.path_exists fs (PurePath.div p nm) = true -> In nm (FS.listdir fs p).
Proof.
  unfold FS.path_exists, FS.listdir. rewrite lookup_div.
  destruct (FS.lookup fs p) as [[m d|m es]|]; try discriminate.
  destruct (FS.assoc nm es) eqn:E; [|discriminate].
  intros _. eapply assoc_In; eassumption.
Qed.

Lemma keeps_dirs_make_dir now : keeps_dirs (FS.make_dir now).
Proof. intros m es r H. simpl in H. now injection H as <-. Qed.

Lemma keeps_dirs_write_node v : keeps_dirs (FS.write_node v).
Proof. intros m es r H. discriminate. Qed.

Lemma keeps_dirs_unlink_node : keeps_dirs FS.unlink_node.
Proof. intros m es r H. discriminate. Qed.

(** What [f] returned is what is found at [p] afterwards. *)
Lemma alter_from_at mk now f p o o' :
  FS.alter_from mk now f p o = inr o' ->
  exists r, f (FS.lookup_from p o) = inr r /\ FS.lookup_from p o' = r.
Proof.
  revert o o'. induction p as [|x p IH]; intros o o' H; simpl in H.
  - exists o'. split; [exact H | reflexivity].
  - destruct o as [[m d|m es]|].
    + discriminate.
    + destruct (FS.alter_from mk now f p (FS.assoc x es)) as [e|c] eqn:E;
        [discriminate|].
      injection H as <-. destruct (IH _ _ E) as [r [Hf Hl]].
      exists r. split; [exact Hf|]. simpl. now rewrite assoc_update_same.
    + destruct mk; [|discriminate].
      destruct (FS.alter_from true now f p None) as [e|c] eqn:E;
        [discriminate|].
      injection H as <-. destruct (IH _ _ E) as [r [Hf Hl]].
      exists r. split.
      * simpl. now rewrite lookup_from_None in Hf.
      * simpl. now rewrite assoc_update_same.
Qed.

(** A regular file elsewhere is left as it is. *)
Lemma alter_from_keeps_file mk now f p q o o' m d :
  keeps_dirs f -> q <> p ->
  FS.lookup_from q o = Some (File m d) ->
  FS.alter_from mk now f p o = inr o' ->
  FS.lookup_from q o' = Some (File m d).
Proof.
  intros Hf. revert q o o'.
  induction p as [|x p IH]; intros q o o' Hne Hq H; simpl in H.
  - destruct q as [|y q]; [congruence|].
    simpl in Hq. destruct o as [[fm fd|dm es]|]; try discriminate.
    apply Hf in H. subst o'. exact Hq.
  - destruct o as [[fm fd|dm es]|].
    + discriminate.
    + destruct (FS.alter_from mk now f p (FS.assoc x es)) as [e|c] eqn:E;
        [discriminate|].
      injection H as <-.
      destruct q as [|y q]; [discriminate|]. simpl in *.
      destruct (String.eqb_spec x y) as [->|Hxy].
      * rewrite assoc_update_same. eapply IH; [congruence | exact Hq | exact E].
      * rewrite assoc_update_other by exact Hxy. exact Hq.
    + now rewrite lookup_from_None in Hq.
Qed.

(** A directory stays a directory. *)
Lemma alter_from_keeps_dir mk now f p q o o' m es :
  keeps_dirs f ->
  FS.lookup_from q o = Some (Dir m es) ->
  FS.alter_from mk now f p o = inr o' ->
  exists m' es', FS.lookup_from q o' = Some (Dir m' es').
Proof.
  intros Hf. revert q o o'.
  induction p as [|x p IH]; intros q o o' Hq H; simpl in H.
  - destruct q as [|y q].
    + simpl in Hq. subst o. apply Hf in H. subst o'. simpl. eauto.
    + simpl in Hq. destruct o as [[fm fd|dm des]|]; try discriminate.
      apply Hf in H. subst o'. simpl. eauto.
  - destruct o as [[fm fd|dm des]|].
    + discriminate.
    + destruct (FS.alter_from mk now f p (FS.assoc x des)) as [e|c] eqn:E;
        [discriminate|].
      injection H as <-.
      destruct q as [|y q]; [simpl; eauto|]. simpl in *.
      destruct (String.eqb_spec x y) as [->|Hxy].
      * rewrite assoc_update_same. eapply IH; [exact Hq | exact E].
      * rewrite assoc_update_other by exact Hxy. eauto.
    + now rewrite lookup_from_None in Hq.
Qed.

(** The operation goes through when the parent is a directory and [f]
    accepts what is found there. *)
Lemma alter_from_succeeds mk now f p x o m es r :
  FS.lookup_from p o = Some (Dir m es) ->
  f (FS.assoc x es) = inr r ->
  exists o', FS.alter_from mk now f (p ++ [x]) o = inr (Some o').
Proof.
  revert o. induction p as [|y p IH]; intros o Hp Hf; simpl in *.
  - subst o. rewrite Hf. eauto.
  - destruct o as [[fm fd|dm des]|]; try discriminate.
    destruct (IH _ Hp Hf) as [o' ->]. eauto.
Qed.

Lemma alter_inr mk now f p fs fs' :
  FS.alter mk now f p fs = inr fs' ->
  FS.alter_from mk now f p (Some fs) = inr (Some fs').
Proof.
  unfold FS.alter.
  destruct (FS.alter_from mk now f p (Some fs)) as [e|[n|]]; try discriminate.
  now intros [= ->].
Qed.

Lemma alter_keeps_file mk now f p q fs fs' m d :
  keeps_dirs f -> q <> p ->
  FS.lookup fs q = Some (File m d) ->
  FS.alter mk now f p fs = inr fs' ->
  FS.lookup fs' q = Some (File m d).
Proof.
  intros Hf Hne Hq H. apply alter_inr in H.
  eapply alter_from_keeps_file; eassumption.
Qed.

Lemma alter_keeps_dir mk now f p q fs fs' :
  keeps_dirs f ->
  FS.is_dir fs q = true ->
  FS.alter mk now f p fs = inr fs' ->
  FS.is_dir fs' q = true.
Proof.
  unfold FS.is_dir. intros Hf Hq H. apply alter_inr in H.
  destruct (FS.lookup fs q) as [[fm fd|m es]|] eqn:E; try discriminate.
  destruct (alter_from_keeps_dir _ _ _ _ _ _ _ _ _ Hf E H) as [m' [es' Hl]].
  unfold FS.lookup. now rewrite Hl.
Qed.

Lemma alter_at mk now f p fs fs' :
  FS.alter mk now f p fs = inr fs' ->
  exists r, f (FS.lookup fs p) = inr r /\ FS.lookup fs' p = r.
Proof. intros H. apply alter_inr in H. eapply alter_from_at; eassumption. Qed.

Lemma resolve_from_lookup p o n :
  FS.resolve_from p o = inr n <-> FS.lookup_from p o = Some n.
Proof.
  revert o. induction p as [|x p IH]; intros o; simpl.
  - destruct o; split; intros H; try discriminate; now inversion H.
  - destruct o as [[m d|m es]|]; try (split; discriminate). apply IH.
Qed.

Lemma resolve_lookup fs p n : FS.resolve fs p = inr n <-> FS.lookup fs p = Some n.
Proof. apply resolve_from_lookup. Qed.

(** [mkdir], with or without [parents], leaves every regular file and
    every directory in place. *)
Lemma make_dir_keeps_file mk now p q fs fs' m d :
  FS.lookup fs q = Some (File m d) ->
  FS.alter mk now (FS.make_dir now) p fs = inr fs' ->
  FS.lookup fs' q = Some (File m d).
Proof.
  intros Hq H.
  destruct (list_eq_dec string_dec q p) as [->|Hne].
  - destruct (alter_at _ _ _ _ _ _ H) as [r [Hf _]].
    rewrite Hq in Hf. discriminate.
  - eapply alter_keeps_file; eauto using keeps_dirs_make_dir.
Qed.

Lemma make_dir_keeps_dir mk now p q fs fs' :
  FS.is_dir fs q = true ->
  FS.alter mk now (FS.make_dir now) p fs = inr fs' ->
  FS.is_dir fs' q = true.
Proof. intros. eapply alter_keeps_dir; eauto using keeps_dirs_make_dir. Qed.

Lemma make_dir_is_dir mk now p fs fs' :
  FS.alter mk now (FS.make_dir now) p fs = inr fs' ->
  FS.is_dir fs' p = true.
Proof.
  intros H. destruct (alter_at _ _ _ _ _ _ H) as [r [Hf Hl]].
  unfold FS.is_dir. rewrite Hl.
  destruct (FS.lookup fs p) as [[m d|m es]|]; simpl in Hf;
    try discriminate; now injection Hf as <-.
Qed.

(** [mkdir(exist_ok=True)] does not change what is found below the
    directory it makes. *)
Lemma mkdir_below now p nm fs fs' :
  FS.mkdir now p fs = inr fs' ->
  FS.lookup fs' (PurePath.div p nm) = FS.lookup fs (PurePath.div p nm).
Proof.
  intros H. destruct (alter_at _ _ _ _ _ _ H) as [r [Hf Hl]].
  rewrite !lookup_div, Hl.
  destruct (FS.lookup fs p) as [[m d|m es]|]; simpl in Hf;
    try discriminate; now injection Hf as <-.
Qed.

Lemma path_exists_false_lookup fs p :
  FS.path_exists fs p = false <-> FS.lookup fs p = None.
Proof.
  unfold FS.path_exists. destruct (FS.lookup fs p); split; congruence.
Qed.

Lemma not_exists_not_dir fs p : FS.path_exists fs p = false -> FS.is_dir fs p = false.
Proof.
  unfold FS.path_exists, FS.is_dir. destruct (FS.lookup fs p); congruence.
Qed.

Lemma write_keeps_file p v q fs fs' m d :
  q <> p ->
  FS.lookup fs q = Some (File m d) ->
  FS.write p v fs = inr fs' ->
  FS.lookup fs' q = Some (File m d).
Proof. intros. eapply alter_keeps_file; eauto using keeps_dirs_write_node. Qed.

Lemma write_at p v fs fs' : FS.write p v fs = inr fs' -> FS.lookup fs' p = Some v.
Proof.
  intros H. destruct (alter_at _ _ _ _ _ _ H) as [r [Hf Hl]].
  rewrite Hl. unfold FS.write_node in Hf.
  destruct (FS.lookup fs p) as [[m d|m es]|]; try discriminate;
    now injection Hf as <-.
Qed.

Lemma unlink_keeps_file p q fs fs' m d :
  q <> p ->
  FS.lookup fs q = Some (File m d) ->
  FS.unlink p fs = inr fs' ->
  FS.lookup fs' q = Some (File m d).
Proof. intros. eapply alter_keeps_file; eauto using keeps_dirs_unlink_node. Qed.

Lemma unlink_at p fs fs' : FS.unlink p fs = inr fs' -> FS.lookup fs' p = None.
Proof.
  intros H. destruct (alter_at _ _ _ _ _ _ H) as [r [Hf Hl]].
  rewrite Hl. unfold FS.unlink_node in Hf.
  destruct (FS.lookup fs p) as [[m d|m es]|]; try discriminate;
    now injection Hf as <-.
Qed.

(** [copy2] onto a path that does not exist: the copy is there, with the
    source's contents and time, and every regular file is as before. *)
Lemma copy2_fresh src dst fs fs' :
  FS.path_exists fs dst = false ->
  FS.copy2 src dst fs = inr fs' ->
  (exists m d, FS.lookup fs src = Some (File m d)
               /\ FS.lookup fs' dst = Some (File m d))
  /\ (forall q m d, FS.lookup fs q = Some (File m d) ->
                    FS.lookup fs' q = Some (File m d)).
Proof.
  intros Hdst H. unfold FS.copy2 in H.
  rewrite (not_exists_not_dir _ _ Hdst), Hdst in H. simpl in H.
  destruct (FS.resolve fs src) as [e|[m d|m es]] eqn:Hsrc; try discriminate.
  apply resolve_lookup in Hsrc. split.
  - exists m, d. split; [exact Hsrc | eapply write_at; eassumption].
  - intros q qm qd Hq. eapply write_keeps_file; [|exact Hq|exact H].
    intros ->. apply path_exists_false_lookup in Hdst. congruence.
Qed.

(** [move] of a regular file onto a path that does not exist: the file is
    there, its old path is gone, and every other regular file is as
    before. *)
Lemma move_fresh src dst fs fs' m d :
  FS.path_exists fs dst = false ->
  FS.lookup fs src = Some (File m d) ->
  FS.move src dst fs = inr fs' ->
  FS.lookup fs' dst = Some (File m d)
  /\ FS.lookup fs' src = None
  /\ (forall q qm qd, q <> src -> FS.lookup fs q = Some (File qm qd) ->
                      FS.lookup fs' q = Some (File qm qd)).
Proof.
  intros Hdst Hsrc H. unfold FS.move in H.
  rewrite (not_exists_not_dir _ _ Hdst) in H. unfold FS.rename in H.
  rewrite (proj2 (resolve_lookup _ _ _) Hsrc) in H.
  destruct (FS.write dst (File m d) fs) as [e|fs1] eqn:Hw; [discriminate|].
  assert (Hne : src <> dst).
  { intros ->. apply path_exists_false_lookup in Hdst. congruence. }
  destruct (list_eq_dec string_dec src dst) as [Heq|_]; [contradiction|].
  split; [|split].
  - eapply unlink_keeps_file; [|eapply write_at; exact Hw|exact H]. congruence.
  - eapply unlink_at; exact H.
  - intros q qm qd Hq Hl.
    eapply unlink_keeps_file; [exact Hq| |exact H].
    eapply write_keeps_file; [|exact Hl|exact Hw].
    intros ->. apply path_exists_false_lookup in Hdst. congruence.
Qed.

(** The path the collision loop settles on does not exist. *)
Lemma resolve_conflict_fresh fs dest_folder file_path :
  FS.path_exists fs (resolve_conflict fs dest_folder file_path) = false.
Proof.
  unfold resolve_conflict.
  set (taken := fun nm => FS.path_exists fs (PurePath.div dest_folder nm)).
  destruct (collision_loop_reaches_exit taken (FS.listdir fs dest_folder)
              (PurePath.stem file_path) (PurePath.suffix file_path) 1
              (PurePath.name file_path)) as [r Hr].
  { intros nm. apply path_exists_listdir. }
  rewrite Hr. apply collision_loop_some in Hr as [Hr _]. exact Hr.
Qed.

(** The bound [resolve_conflict] runs the loop with does not show in its
    result: every larger bound gives the same name. *)
Lemma resolve_conflict_is_loop fs dest_folder file_path :
  exists nm,
    resolve_conflict fs dest_folder file_path = PurePath.div dest_folder nm
    /\ forall fuel,
         2 + List.length (FS.listdir fs dest_folder) <= fuel ->
         collision_loop fuel
           (fun nm => FS.path_exists fs (PurePath.div dest_folder nm))
           (PurePath.stem file_path) (PurePath.suffix file_path) 1
           (PurePath.name file_path) = Some nm.
Proof.
  unfold resolve_conflict.
  set (taken := fun nm => FS.path_exists fs (PurePath.div dest_folder nm)).
  destruct (collision_loop_reaches_exit taken (FS.listdir fs dest_folder)
              (PurePath.stem file_path) (PurePath.suffix file_path) 1
              (PurePath.name file_path)) as [r Hr].
  { intros nm. apply path_exists_listdir. }
  exists r. rewrite Hr. split; [reflexivity|].
  intros fuel Hle. eapply collision_loop_mono; eassumption.
Qed.

(** What the collision loop settles on: the plain name when it is free,
    otherwise the numbered name with the least counter that is free. *)
Lemma resolve_conflict_least fs dest_folder file_path :
  let taken := fun nm => FS.path_exists fs (PurePath.div dest_folder nm) in
  let stem := PurePath.stem file_path in
  let suffix := PurePath.suffix file_path in
  (taken (PurePath.name file_path) = false
   /\ resolve_conflict fs dest_folder file_path
      = PurePath.div dest_folder (PurePath.name file_path))
  \/ (taken (PurePath.name file_path) = true
      /\ exists k, 1 <= k
           /\ resolve_conflict fs dest_folder file_path
              = PurePath.div dest_folder (numbered stem suffix k)
           /\ taken (numbered stem suffix k) = false
           /\ forall j, 1 <= j < k -> taken (numbered stem suffix j) = true).
Proof.
  intros taken stem suffix. unfold resolve_conflict. fold taken stem suffix.
  destruct (collision_loop_reaches_exit taken (FS.listdir fs dest_folder)
              stem suffix 1 (PurePath.name file_path)) as [r Hr].
  { intros nm. apply path_exists_listdir. }
  rewrite Hr.
  destruct (taken (PurePath.name file_path)) eqn:Hnm.
  - right. split; [reflexivity|].
    apply collision_loop_some in Hr as [Hfree [-> | [_ [k [Hk [-> Hall]]]]]];
      [congruence|].
    exists k. repeat split; assumption.
  - left. split; [reflexivity|].
    destruct (2 + List.length (FS.listdir fs dest_folder)) eqn:E; [discriminate|].
    simpl in Hr. rewrite Hnm in Hr. now injection Hr as <-.
Qed.

(** ** Steps of the organizer *)

Lemma quiet_refl st : quiet st st.
Proof. repeat split. Qed.

Lemma quiet_trans a b c : quiet a b -> quiet b c -> quiet a c.
Proof.
  intros (Hc1 & Hp1 & He1 & Hf1) (Hc2 & Hp2 & He2 & Hf2).
  repeat split; try congruence.
  intros Hdry. rewrite Hf2, Hf1; congruence.
Qed.

Lemma files_kept_refl except st : files_kept except st st.
Proof. intros q m d _ H. exact H. Qed.

Lemma files_kept_trans except a b c :
  files_kept except a b -> files_kept except b c -> files_kept except a c.
Proof. intros H1 H2 q m d Hq H. eauto. Qed.

Lemma files_kept_weaken except a b : files_kept None a b -> files_kept except a b.
Proof. intros H q m d _ Hq. apply (H q m d); [discriminate | exact Hq]. Qed.

Lemma dirs_kept_refl st : dirs_kept st st.
Proof. intros q H. exact H. Qed.

Lemma dirs_kept_trans a b c : dirs_kept a b -> dirs_kept b c -> dirs_kept a c.
Proof. intros H1 H2 q H. eauto. Qed.

Lemma settled_refl st : settled st st.
Proof.
  split; [apply quiet_refl | split; [apply files_kept_refl | apply dirs_kept_refl]].
Qed.

Lemma settled_trans a b c : settled a b -> settled b c -> settled a c.
Proof.
  intros (Hq1 & Hf1 & Hd1) (Hq2 & Hf2 & Hd2).
  split; [eapply quiet_trans | split; [eapply files_kept_trans | eapply dirs_kept_trans]];
    eassumption.
Qed.

(** The state after a successful [mkdir] in a live run, whatever happens
    to the console and to the counters of directories and of moves. *)
Lemma settled_make_dir mk now p st fs' s' out' :
  dry_run (config st) = false ->
  FS.alter mk now (FS.make_dir now) p (fs st) = inr fs' ->
  files_processed s' = files_processed (stats st) ->
  errors s' = errors (stats st) ->
  settled st (mkState (config st) s' fs' out').
Proof.
  intros Hdry H Hp He. split; [|split].
  - repeat split; simpl; try assumption. congruence.
  - intros q m d _ Hq. simpl. eapply make_dir_keeps_file; eassumption.
  - intros q Hq. simpl. eapply make_dir_keeps_dir; eassumption.
Qed.

(** A state that differs in the console and in the counters of
    directories and of moves only. *)
Lemma settled_same_fs st s' out' :
  files_processed s' = files_processed (stats st) ->
  errors s' = errors (stats st) ->
  settled st (mkState (config st) s' (fs st) out').
Proof.
  intros Hp He. split; [|split].
  - repeat split; simpl; assumption.
  - intros q m d _ Hq. exact Hq.
  - intros q Hq. exact Hq.
Qed.

(** Symbolic execution of a method body: unfold the monad, then split on
    the innermost scrutinee that is left. *)
Ltac unfold_m :=
  unfold Dict.index, stat_mtime, fromtimestamp, relative_to, print_summary,
    incr_files_processed, incr_files_moved, incr_directories_created,
    incr_errors in *;
  unfold bind, ret, raise, when, get_config, get_fs, get_stats, set_fs,
    set_stats, set_config, print, fs_op, try_except in *.

Ltac case_step :=
  match goal with
  | |- context [match ?x with _ => _ end] =>
      lazymatch x with
      | context [match _ with _ => _ end] => fail
      | _ => destruct x eqn:?
      end
  end.

Ltac flags :=
  repeat match goal with
         | H : negb _ = true |- _ => apply negb_true_iff in H
         | H : negb _ = false |- _ => apply negb_false_iff in H
         end.

Ltac settle :=
  flags;
  first
    [ apply settled_refl
    | apply settled_same_fs; reflexivity
    | eapply settled_make_dir; [eassumption | eassumption | reflexivity ..] ].

Lemma destination_folder_settled os file_path folder_map st :
  settled st (fst (destination_folder os file_path folder_map st)).
Proof.
  unfold destination_folder. unfold_m.
  repeat (case_step; simpl); settle.
Qed.

(** Sequencing, for a transitive relation between the states of a run. *)
Lemma bind_step {A B} (R : State -> State -> Prop) (c : M A) (k : A -> M B) st :
  (forall x y z, R x y -> R y z -> R x z) ->
  R st (fst (c st)) ->
  (forall a st', c st = (st', inr a) -> R st' (fst (k a st'))) ->
  R st (fst (bind c k st)).
Proof.
  intros Htrans Hc Hk. unfold bind.
  destruct (c st) as [st' [e|a]] eqn:E; simpl in *; [exact Hc|].
  eapply Htrans; [exact Hc | apply Hk; reflexivity].
Qed.

Lemma mkdir_counted_settled mk now p st :
  settled st
    (fst (when (negb (dry_run (config st)))
               (fs_op (FS.alter mk now (FS.make_dir now) p);;;
                incr_directories_created) st)).
Proof. unfold_m. repeat (case_step; simpl); settle. Qed.

Lemma mkdir_uncounted_settled mk now p st :
  settled st
    (fst (when (negb (dry_run (config st)))
               (fs_op (FS.alter mk now (FS.make_dir now) p)) st)).
Proof. unfold_m. repeat (case_step; simpl); settle. Qed.

Lemma create_subfolders_settled os category category_path subs :
  forall folder_map st,
    settled st
      (fst (create_subfolders os category category_path subs folder_map st)).
Proof.
  induction subs as [|[subfolder patterns] rest IH]; intros folder_map st; simpl.
  - apply settled_refl.
  - apply bind_step; [exact settled_trans | apply settled_refl |].
    intros cfg st' [= <- <-].
    apply bind_step; [exact settled_trans | apply mkdir_counted_settled |].
    intros _ st' _. apply IH.
Qed.

Lemma create_categories_settled os organized_path rs :
  forall folder_map st,
    settled st (fst (create_categories os organized_path rs folder_map st)).
Proof.
  induction rs as [|[category r] rest IH]; intros folder_map st; simpl.
  - apply settled_refl.
  - apply bind_step; [exact settled_trans | apply settled_refl |].
    intros cfg st' [= <- <-].
    apply bind_step; [exact settled_trans | apply mkdir_counted_settled |].
    intros _ st' _.
    apply bind_step; [exact settled_trans | | intros; apply IH].
    destruct (subfolders r);
      [apply create_subfolders_settled | apply settled_refl].
Qed.

Lemma create_organized_structure_settled os base_path st :
  settled st (fst (create_organized_structure os base_path st)).
Proof.
  unfold create_organized_structure.
  apply bind_step; [exact settled_trans | apply settled_refl |].
  intros cfg st' [= <- <-].
  apply bind_step; [exact settled_trans | apply create_categories_settled |].
  intros folder_map st' _.
  apply bind_step; [exact settled_trans | apply settled_refl |].
  intros cfg' st'' [= <- <-].
  apply bind_step; [exact settled_trans | apply mkdir_uncounted_settled |].
  intros _ st'' _. apply settled_refl.
Qed.

Lemma gather_same_state os source recursive st :
  fst (gather os source recursive st) = st.
Proof. unfold gather. unfold_m. repeat (case_step; simpl); reflexivity. Qed.

(** [organize_file] is quiet: the configuration and the two per-file
    counters are as before, and so is the file system in a dry run. *)
Lemma organize_file_quiet os file_path folder_map st :
  quiet st (fst (organize_file os file_path folder_map st)).
Proof.
  unfold organize_file.
  apply bind_step; [exact quiet_trans | apply destination_folder_settled |].
  intros dest_folder st' _.
  unfold_m. repeat (case_step; simpl); flags;
    repeat split; simpl; try reflexivity; congruence.
Qed.

Lemma frame_refl st : frame st st.
Proof. split; auto. Qed.

Lemma frame_trans a b c : frame a b -> frame b c -> frame a c.
Proof.
  intros (Hc1 & Hf1) (Hc2 & Hf2). split; [congruence|].
  intros Hdry. rewrite Hf2, Hf1; congruence.
Qed.

Lemma quiet_frame a b : quiet a b -> frame a b.
Proof. intros (Hc & _ & _ & Hf). split; assumption. Qed.

Lemma settled_quiet a b : settled a b -> quiet a b.
Proof. intros (H & _). exact H. Qed.

(** One turn of the file loop: it does not raise, it is a frame step, and
    exactly one of [files_processed] and [errors] is one more. *)
Lemma process_one os file_path folder_map st :
  let r := try_except
             (organize_file os file_path folder_map;;; incr_files_processed)
             (fun e => print (MsgFileError (PurePath.name file_path) e);;;
                       incr_errors) st in
  snd r = inr tt
  /\ frame st (fst r)
  /\ ((files_processed (stats (fst r)) = S (files_processed (stats st))
       /\ errors (stats (fst r)) = errors (stats st))
      \/ (files_processed (stats (fst r)) = files_processed (stats st)
          /\ errors (stats (fst r)) = S (errors (stats st)))).
Proof.
  pose proof (organize_file_quiet os file_path folder_map st)
    as (Hc & Hp & He & Hf).
  unfold_m.
  destruct (organize_file os file_path folder_map st) as [st1 [e|[]]];
    unfold frame; simpl in *; (split; [reflexivity|]);
    (split; [split; assumption|]).
  - right. split; congruence.
  - left. split; congruence.
Qed.

Lemma process_files_spec os files_to_process folder_map :
  forall st,
    let r := process_files os files_to_process folder_map st in
    snd r = inr tt
    /\ frame st (fst r)
    /\ files_processed (stats (fst r)) + errors (stats (fst r))
       = files_processed (stats st) + errors (stats st)
         + List.length files_to_process.
Proof.
  induction files_to_process as [|file_path rest IH]; intros st; cbv zeta.
  - simpl. repeat split; lia.
  - pose proof (process_one os file_path folder_map st) as H1. cbv zeta in H1.
    simpl process_files. set (step := try_except _ _) in *.
    unfold bind. destruct (step st) as [st1 [e|[]]];
      simpl in H1; destruct H1 as (Hr & Hfr & Hcnt); [discriminate|].
    destruct (IH st1) as (Hr' & Hfr' & Hcnt').
    split; [exact Hr'|]. split; [eapply frame_trans; eassumption|].
    rewrite Hcnt'. simpl. destruct Hcnt as [[-> ->]|[-> ->]]; lia.
Qed.


Lemma organize_directory_frame os source recursive st :
  frame st (fst (organize_directory os source recursive st)).
Proof.
  unfold organize_directory.
  apply bind_step; [exact frame_trans | apply frame_refl |].
  intros tree st' [= <- <-].
  destruct (negb (FS.path_exists (fs st) source)).
  - unfold_m. simpl. split; auto.
  - apply bind_step; [exact frame_trans | apply frame_refl |].
    intros cfg st' [= <- <-].
    apply bind_step; [exact frame_trans | unfold_m; simpl; split; auto |].
    intros _ st1 _.
    apply bind_step;
      [exact frame_trans
      | apply quiet_frame, settled_quiet, create_organized_structure_settled |].
    intros folder_map st2 _.
    apply bind_step;
      [exact frame_trans | rewrite gather_same_state; apply frame_refl |].
    intros files_to_process st3 _.
    apply bind_step;
      [exact frame_trans
      | apply (process_files_spec os files_to_process folder_map st3) |].
    intros _ st4 _.
    unfold_m. simpl. split; auto.
Qed.

(** C2, as amended. With [dry_run] set, a run of [organize_directory]
    leaves the file system exactly as it found it, whatever the directory,
    the configuration and the outcome of the run. *)
Theorem dry_run_no_mutation os source recursive st :
  dry_run (config st) = true ->
  fs (fst (organize_directory os source recursive st)) = fs st.
Proof.
  intros Hdry. apply (organize_directory_frame os source recursive st), Hdry.
Qed.

(** C5. When the source directory does not exist, [organize_directory]
    reports it and returns at once: the file system, the counters and the
    configuration are untouched, and no file is gathered or processed. *)
Theorem missing_source_aborts os source recursive st :
  FS.path_exists (fs st) source = false ->
  organize_directory os source recursive st
  = (mkState (config st) (stats st) (fs st)
             (console st ++ [MsgSourceMissing source]),
     inr SourceMissing).
Proof.
  intros H. unfold organize_directory. unfold_m. rewrite H. reflexivity.
Qed.


(** C7, as amended. When the configuration file exists and [json.load]
    rejects its contents with [JSONDecodeError], [load_config] prints the
    warning and sets the configuration to the built-in default, touching
    nothing else; so does the constructor, and what the organizer does
    from then on, starting with the classification of every file, is what
    the default rules give. *)
Theorem invalid_config_falls_back os config_file st m data :
  FS.lookup (fs st) config_file = Some (File m data) ->
  json_load os data = inl JSONDecodeError ->
  load_config os config_file st
  = (mkState default_config (stats st) (fs st)
             (console st ++ [MsgInvalidConfig]), inr tt)
  /\ init os config_file (fs st) (console st)
     = (mkState default_config zero_stats (fs st)
                (console st ++ [MsgInvalidConfig]), inr tt)
  /\ forall file_path,
       Classifier.get_file_category
         (str_lower os) (config (fst (load_config os config_file st)))
         file_path
       = Classifier.get_file_category (str_lower os) default_config
                                      file_path.
Proof.
  intros Hfile Hjson.
  assert (Hload : forall st0,
    fs st0 = fs st ->
    load_config os config_file st0
    = (mkState default_config (stats st0) (fs st0)
               (console st0 ++ [MsgInvalidConfig]), inr tt)).
  { intros st0 Hfs. unfold load_config. unfold_m.
    unfold FS.path_exists. rewrite Hfs, Hfile.
    rewrite (proj2 (resolve_lookup _ _ _) Hfile), Hjson. simpl.
    rewrite ?Hfs. reflexivity. }
  split; [apply Hload; reflexivity|]. split.
  - unfold init. unfold bind. rewrite Hload by reflexivity. reflexivity.
  - intros file_path. rewrite Hload by reflexivity. reflexivity.
Qed.

(** C3, as amended. When the destination [dest_folder / name] of a regular
    file already exists, [organize_file] settles on the name
    [stem_k suffix] with the least [k >= 1] that does not exist in the
    destination folder; in a live run that completes, the file is then
    found at that path with its contents and time; and in every mode and
    outcome each regular file other than the source is left as it was, so
    nothing already at the destination is overwritten. *)
Theorem collision_takes_least_free_suffix
        os st file_path folder_map st1 dest_folder m d :
  destination_folder os file_path folder_map st = (st1, inr dest_folder) ->
  FS.lookup (fs st) file_path = Some (File m d) ->
  FS.path_exists (fs st1) (PurePath.div dest_folder (PurePath.name file_path))
  = true ->
  exists k,
    let dest_path :=
      PurePath.div dest_folder
        (numbered (PurePath.stem file_path) (PurePath.suffix file_path) k) in
    1 <= k
    /\ resolve_conflict (fs st1) dest_folder file_path = dest_path
    /\ FS.path_exists (fs st1) dest_path = false
    /\ (forall j, 1 <= j < k ->
          FS.path_exists (fs st1)
            (PurePath.div dest_folder
               (numbered (PurePath.stem file_path) (PurePath.suffix file_path) j))
          = true)
    /\ (forall st',
          dry_run (config st) = false ->
          organize_file os file_path folder_map st = (st', inr tt) ->
          FS.lookup (fs st') dest_path = Some (File m d))
    /\ files_kept (Some file_path) st
                  (fst (organize_file os file_path folder_map st)).
Proof.
  intros Hdest Hfile Hcoll.
  pose proof (destination_folder_settled os file_path folder_map st) as Hs.
  rewrite Hdest in Hs. simpl in Hs.
  destruct Hs as ((Hcfg & _ & _ & _) & Hkept & _).
  assert (Hfile1 : FS.lookup (fs st1) file_path = Some (File m d)).
  { apply Hkept; [discriminate | exact Hfile]. }
  pose proof (resolve_conflict_fresh (fs st1) dest_folder file_path) as Hfresh.
  destruct (resolve_conflict_least (fs st1) dest_folder file_path)
    as [[Hfree _] | [_ (k & Hk & Heq & Hnot & Hall)]]; [congruence|].
  exists k. cbv zeta. repeat (split; [assumption|]).
  set (dest_path :=
         PurePath.div dest_folder
           (numbered (PurePath.stem file_path) (PurePath.suffix file_path) k))
    in *.
  assert (Hrun : organize_file os file_path folder_map st
    = (relative <- relative_to dest_path
                     (PurePath.parent (PurePath.parent file_path));;
       print (MsgAction (if negb (backup_enabled (config st)) then "MOVE"
                         else "COPY")
                        (PurePath.name file_path) relative);;;
       when (negb (dry_run (config st)))
            ((if backup_enabled (config st)
              then fs_op (FS.copy2 file_path dest_path)
              else fs_op (FS.move file_path dest_path));;;
             incr_files_moved)) st1).
  { unfold organize_file. unfold bind at 1. rewrite Hdest.
    unfold bind at 1. unfold get_config at 1. cbv beta iota.
    unfold bind at 1. unfold get_fs at 1. cbv beta iota.
    rewrite Heq, Hcfg. reflexivity. }
  rewrite Hrun. clear Hrun. unfold_m.
  split.
  - intros st' Hlive. rewrite Hlive. simpl.
    destruct (PurePath.is_relative_to dest_path _); simpl; [|discriminate].
    destruct (backup_enabled (config st)); simpl.
    + destruct (FS.copy2 file_path dest_path (fs st1)) as [e|n] eqn:Hcp;
        simpl; [discriminate|].
      intros [= <-]. simpl.
      destruct (copy2_fresh _ _ _ _ Hnot Hcp) as [(m' & d' & Hsrc & Hdst) _].
      congruence.
    + destruct (FS.move file_path dest_path (fs st1)) as [e|n] eqn:Hmv;
        simpl; [discriminate|].
      intros [= <-]. simpl.
      apply (proj1 (move_fresh _ _ _ _ _ _ Hnot Hfile1 Hmv)).
  - intros q qm qd Hq Hl.
    assert (Hl1 : FS.lookup (fs st1) q = Some (File qm qd)).
    { apply Hkept; [discriminate | exact Hl]. }
    assert (Hq' : q <> file_path) by congruence.
    repeat (case_step; simpl); try exact Hl1.
    + match goal with H : FS.copy2 _ _ _ = inr _ |- _ =>
        apply (proj2 (copy2_fresh _ _ _ _ Hnot H)); exact Hl1 end.
    + match goal with H : FS.move _ _ _ = inr _ |- _ =>
        apply (proj2 (proj2 (move_fresh _ _ _ _ _ _ Hnot Hfile1 H)));
          assumption end.
Qed.

(** ** Gathering the candidates *)

Lemma prefix_append (s t : string) : String.prefix s (s +++ t) = true.
Proof.
  induction s as [|c s IH]; simpl; [now destruct t|].
  destruct (ascii_dec c c); [exact IH | congruence].
Qed.

Lemma prefix_append_l (pat a b : string) :
  String.prefix pat a = true -> String.prefix pat (a +++ b) = true.
Proof.
  revert a. induction pat as [|c pat IH]; intros a H; simpl.
  - now destruct (a +++ b).
  - destruct a as [|x a]; simpl in *; [discriminate|].
    destruct (ascii_dec c x); [apply IH; exact H | discriminate].
Qed.

Lemma contains_cons (pat : string) (x : ascii) (a : string) :
  Str.contains pat (String x a)
  = String.prefix pat (String x a) || Str.contains pat a.
Proof. reflexivity. Qed.

Lemma contains_append_l (pat a b : string) :
  Str.contains pat a = true -> Str.contains pat (a +++ b) = true.
Proof.
  induction a as [|x a IH]; intros H.
  - simpl in H. rewrite orb_false_r in H. destruct pat; [|discriminate].
    destruct b; reflexivity.
  - change (String x a +++ b) with (String x (a +++ b)).
    rewrite contains_cons in *.
    apply orb_true_iff in H as [H|H].
    + change (String x (a +++ b)) with (String x a +++ b).
      rewrite (prefix_append_l _ _ _ H). reflexivity.
    + rewrite (IH H). apply orb_true_r.
Qed.

Lemma contains_append_r (pat a b : string) :
  Str.contains pat b = true -> Str.contains pat (a +++ b) = true.
Proof.
  intros H. induction a as [|x a IH]; [exact H|].
  change (String x a +++ b) with (String x (a +++ b)).
  rewrite contains_cons, IH. apply orb_true_r.
Qed.

Lemma prefix_refl (s : string) : String.prefix s s = true.
Proof.
  induction s as [|c s IH]; simpl; [reflexivity|].
  destruct (ascii_dec c c); [exact IH | congruence].
Qed.

Lemma contains_refl (s : string) : Str.contains s s = true.
Proof.
  destruct s as [|c s]; [reflexivity|].
  rewrite contains_cons, prefix_refl. reflexivity.
Qed.

Lemma contains_join (pat sep x : string) (l : list string) :
  In x l -> Str.contains pat x = true ->
  Str.contains pat (Str.join sep l) = true.
Proof.
  intros Hin Hx. induction l as [|y l IH]; [contradiction|].
  destruct Hin as [->|Hin].
  - destruct l as [|z l]; simpl; [exact Hx|].
    apply contains_append_l. exact Hx.
  - destruct l as [|z l]; [contradiction|].
    change (Str.join sep (y :: z :: l))
      with (y +++ sep +++ Str.join sep (z :: l)).
    apply contains_append_r, contains_append_r, IH, Hin.
Qed.

(** A path with a component named [organized] has [organized] in its
    text. *)
Lemma organized_component_in_text (p : Path) :
  In "organized" p -> Str.contains "organized" (PurePath.str p) = true.
Proof.
  intros H. unfold PurePath.str. apply contains_append_r.
  apply (contains_join "organized" "/" "organized" p H). reflexivity.
Qed.

Lemma Node_nested_ind (P : Node -> Prop) :
  (forall m d, P (File m d)) ->
  (forall m es, Forall (fun kv => P (snd kv)) es -> P (Dir m es)) ->
  forall n, P n.
Proof.
  intros Hf Hd. fix IH 1. intros [m d|m es]; [apply Hf|].
  apply Hd. induction es as [|[k v] es IHes]; constructor;
    [apply IH | exact IHes].
Qed.

Lemma or_iff_both (A B C D : Prop) :
  (A <-> B) -> (C <-> D) -> (A \/ C <-> B \/ D).
Proof. tauto. Qed.

(** Membership in what [walk] gathers from a directory: a regular file
    listed there whose path text passes the filter, or a candidate of a
    listed folder that is not pruned. *)
Lemma walk_Dir_In lower cfg root m es p :
  In p (walk lower cfg root (Dir m es)) <->
  (exists nm fm fd, In (nm, File fm fd) es
                    /\ p = PurePath.div root nm
                    /\ Str.contains "organized" (PurePath.str p) = false)
  \/ (exists d dm des, In (d, Dir dm des) es
                       /\ should_ignore_folder lower cfg d = false
                       /\ In p (walk lower cfg (PurePath.div root d) (Dir dm des))).
Proof.
  simpl walk. rewrite in_app_iff. apply or_iff_both.
  - rewrite in_flat_map. split.
    + intros [[nm [fm fd|dm des]] [Hin Hp]]; simpl in Hp; [|contradiction].
      unfold keep_file in Hp.
      destruct (Str.contains "organized" _) eqn:E; simpl in Hp; [contradiction|].
      destruct Hp as [<-|[]]. exists nm, fm, fd. auto.
    + intros (nm & fm & fd & Hin & -> & Hc).
      exists (nm, File fm fd). split; [exact Hin|]. simpl.
      unfold keep_file. rewrite Hc. simpl. now left.
  - induction es as [|[k v] es IH]; simpl.
    + split; [contradiction | intros (d & dm & des & [] & _)].
    + rewrite in_app_iff, IH. split.
      * intros [H|(d & dm & des & Hin & Hig & Hp)].
        -- destruct v as [fm fd|dm des]; [contradiction|].
           destruct (should_ignore_folder lower cfg k) eqn:E; [contradiction|].
           exists k, dm, des. auto.
        -- exists d, dm, des. auto.
      * intros (d & dm & des & [Heq|Hin] & Hig & Hp).
        -- injection Heq as -> ->. left. rewrite Hig. exact Hp.
        -- right. exists d, dm, des. auto.
Qed.

Lemma file_below_nonempty n rel : file_below n rel -> rel <> [].
Proof. intros H. destruct H; discriminate. Qed.

Lemma removelast_cons_nonempty (d : string) (rel : list string) :
  rel <> [] -> removelast (d :: rel) = d :: removelast rel.
Proof. destruct rel; [congruence | reflexivity]. Qed.

(** Every path [walk] gathers is a regular file below the top, reached
    through folders none of which is pruned, and its text passes the
    filter. *)
Lemma walk_sound lower cfg n :
  forall root p,
    In p (walk lower cfg root n) ->
    exists rel,
      p = root ++ rel
      /\ file_below n rel
      /\ no_folder_ignored lower cfg rel
      /\ Str.contains "organized" (PurePath.str p) = false.
Proof.
  induction n as [m d|m es IH] using Node_nested_ind; intros root p Hin.
  - contradiction.
  - apply walk_Dir_In in Hin
      as [(nm & fm & fd & Hes & -> & Hc)|(d & dm & des & Hes & Hig & Hp)].
    + exists [nm]. repeat split; [econstructor; eassumption | constructor | exact Hc].
    + rewrite Forall_forall in IH. specialize (IH _ Hes). simpl in IH.
      destruct (IH _ _ Hp) as (rel & -> & Hbelow & Hrel & Hc).
      exists (d :: rel). split; [|split; [|split]].
      * unfold PurePath.div. now rewrite <- app_assoc.
      * econstructor; eassumption.
      * unfold no_folder_ignored.
        rewrite removelast_cons_nonempty
          by (eapply file_below_nonempty; eassumption).
        constructor; assumption.
      * exact Hc.
Qed.

(** Every regular file below the top that is reached through folders none
    of which is pruned, and whose path text passes the filter, is
    gathered. *)
Lemma walk_complete lower cfg n rel :
  file_below n rel ->
  forall root,
    no_folder_ignored lower cfg rel ->
    Str.contains "organized" (PurePath.str (root ++ rel)) = false ->
    In (root ++ rel) (walk lower cfg root n).
Proof.
  induction 1 as [m es nm fm fd Hes|m es d dm des rel Hes Hbelow IH];
    intros root Hrel Hc; apply walk_Dir_In.
  - left. exists nm, fm, fd. auto.
  - right. exists d, dm, des.
    unfold no_folder_ignored in Hrel.
    rewrite removelast_cons_nonempty in Hrel
      by (eapply file_below_nonempty; eassumption).
    inversion Hrel as [|? ? Hd Hrest]; subst.
    split; [exact Hes|]. split; [exact Hd|].
    replace (root ++ d :: rel) with (PurePath.div root d ++ rel) in *
      by (unfold PurePath.div; now rewrite <- app_assoc).
    apply IH; assumption.
Qed.

(** C4, as amended. In recursive mode the candidates gathered from a
    source directory are regular files under it that are reached through
    folders none of which has a lower-cased name containing an entry of
    [ignore_folders], and that are not under the organized root; and every
    regular file under the source that is reached through such folders and
    whose path text does not contain [organized] is gathered. *)
Theorem recursive_candidates os source st n :
  FS.lookup (fs st) source = Some n ->
  exists files_to_process,
    gather os source true st = (st, inr files_to_process)
    /\ (forall p, In p files_to_process ->
          exists rel,
            p = source ++ rel
            /\ file_below n rel
            /\ no_folder_ignored (str_lower os) (config st) rel
            /\ hd_error rel <> Some "organized")
    /\ (forall rel,
          file_below n rel ->
          no_folder_ignored (str_lower os) (config st) rel ->
          Str.contains "organized" (PurePath.str (source ++ rel)) = false ->
          In (source ++ rel) files_to_process).
Proof.
  intros Hsrc. exists (walk (str_lower os) (config st) source n).
  split; [|split].
  - unfold gather. unfold_m. rewrite Hsrc. reflexivity.
  - intros p Hin.
    destruct (walk_sound _ _ _ _ _ Hin) as (rel & -> & Hbelow & Hrel & Hc).
    exists rel. repeat split; try assumption.
    intros Hhd. destruct rel as [|d rel]; [discriminate|].
    injection Hhd as ->.
    rewrite organized_component_in_text in Hc; [discriminate|].
    apply in_or_app. right. now left.
  - intros rel Hbelow Hrel Hc. apply walk_complete; assumption.
Qed.

(** ** The organized structure *)

Lemma dict_set_Forall {V} (P : string * V -> Prop) k v (d : list (string * V)) :
  Forall P d -> P (k, v) -> Forall P (Dict.set k v d).
Proof.
  intros Hd Hv. induction Hd as [|[k' w] d Hw Hd IH]; simpl.
  - constructor; [exact Hv | constructor].
  - destruct (String.eqb_spec k k') as [->|Hne]; constructor; assumption.
Qed.

Lemma dict_get_Forall {V} (P : string * V -> Prop) k v (d : list (string * V)) :
  Forall P d -> Dict.get k d = Some v -> P (k, v).
Proof.
  intros Hd. induction Hd as [|[k' w] d Hw Hd IH]; simpl; [discriminate|].
  destruct (String.eqb_spec k k') as [->|Hne]; [|exact IH].
  now intros [= <-].
Qed.

Lemma all_dirs_kept st st' folder_map :
  dirs_kept st st' -> all_dirs (fs st) folder_map -> all_dirs (fs st') folder_map.
Proof.
  intros Hk H. unfold all_dirs in *. rewrite Forall_forall in *.
  intros kv Hin. apply Hk, H, Hin.
Qed.

(** One live [mkdir] of the structure-building loops, when it goes
    through: the directory is there and the others still are. *)
Lemma mkdir_live mk now p (c : M unit) st st' folder_map key :
  dry_run (config st) = false ->
  all_dirs (fs st) folder_map ->
  when (negb (dry_run (config st)))
       (fs_op (FS.alter mk now (FS.make_dir now) p);;; c) st = (st', inr tt) ->
  (forall s, fs (fst (c s)) = fs s) ->
  all_dirs (fs st') (Dict.set key p folder_map).
Proof.
  intros Hdry Hall H Hc. rewrite Hdry in H. simpl in H. unfold_m.
  destruct (FS.alter mk now (FS.make_dir now) p (fs st)) as [e|n] eqn:Hmk;
    simpl in H; [discriminate|].
  set (s1 := mkState _ _ n _) in H.
  assert (Hfs : fs st' = n).
  { specialize (Hc s1). destruct (c s1) as [s2 r]. simpl in *.
    destruct r; injection H as <-; exact Hc. }
  rewrite Hfs. apply dict_set_Forall.
  - unfold all_dirs in *. rewrite Forall_forall in *. intros kv Hin.
    eapply make_dir_keeps_dir; [apply Hall, Hin | exact Hmk].
  - simpl. eapply make_dir_is_dir. exact Hmk.
Qed.

Lemma create_subfolders_live os category category_path subs :
  forall folder_map st st' folder_map',
    dry_run (config st) = false ->
    all_dirs (fs st) folder_map ->
    create_subfolders os category category_path subs folder_map st
    = (st', inr folder_map') ->
    folder_map' = subfolder_entries category category_path subs folder_map
    /\ all_dirs (fs st') folder_map'.
Proof.
  induction subs as [|[subfolder patterns] rest IH];
    intros folder_map st st' folder_map' Hdry Hall H; simpl in H.
  - injection H as <- <-. split; [reflexivity | exact Hall].
  - unfold bind at 1 in H. unfold get_config at 1 in H. cbv beta iota in H.
    unfold bind at 1 in H.
    pose proof (mkdir_counted_settled false (time_now os)
                  (PurePath.truediv category_path subfolder) st)
      as ((Hcfg & _) & _).
    destruct (when _ _ st) as [s1 [e|[]]] eqn:Hstep; [discriminate|].
    simpl in Hcfg.
    apply (IH _ _ _ _ (eq_trans (f_equal dry_run Hcfg) Hdry)) in H;
      [exact H|].
    eapply mkdir_live; [exact Hdry | exact Hall | exact Hstep |].
    intros s. reflexivity.
Qed.

Lemma create_categories_live os organized_path rs :
  forall folder_map st st' folder_map',
    dry_run (config st) = false ->
    all_dirs (fs st) folder_map ->
    create_categories os organized_path rs folder_map st
    = (st', inr folder_map') ->
    folder_map' = category_entries organized_path rs folder_map
    /\ all_dirs (fs st') folder_map'.
Proof.
  induction rs as [|[category r] rest IH];
    intros folder_map st st' folder_map' Hdry Hall H; simpl in H.
  - injection H as <- <-. split; [reflexivity | exact Hall].
  - unfold bind at 1 in H. unfold get_config at 1 in H. cbv beta iota in H.
    unfold bind at 1 in H.
    pose proof (mkdir_counted_settled true (time_now os)
                  (PurePath.truediv organized_path (folder r)) st)
      as ((Hcfg & _) & _).
    destruct (when _ _ st) as [s1 [e|[]]] eqn:Hstep; [discriminate|].
    simpl in Hcfg.
    assert (Hdry1 : dry_run (config s1) = false) by congruence.
    assert (Hall1 : all_dirs (fs s1)
                      (Dict.set category
                                (PurePath.truediv organized_path (folder r))
                                folder_map)).
    { eapply mkdir_live; [exact Hdry | exact Hall | exact Hstep |].
      intros s. reflexivity. }
    unfold bind at 1 in H. simpl.
    destruct (subfolders r) as [subs|].
    + pose proof (create_subfolders_settled os category
                    (PurePath.truediv organized_path (folder r)) subs
                    (Dict.set category
                              (PurePath.truediv organized_path (folder r))
                              folder_map) s1) as ((Hcfg2 & _) & _).
      destruct (create_subfolders os category _ subs _ s1)
        as [s2 [e|fm2]] eqn:Hsub; [discriminate|].
      simpl in Hcfg2.
      destruct (create_subfolders_live _ _ _ _ _ _ _ _ Hdry1 Hall1 Hsub)
        as [-> Hall2].
      apply (IH _ _ _ _ (eq_trans (f_equal dry_run Hcfg2) Hdry1) Hall2 H).
    + simpl in H. apply (IH _ _ _ _ Hdry1 Hall1 H).
Qed.

Lemma create_organized_structure_live os base_path st st' folder_map :
  dry_run (config st) = false ->
  create_organized_structure os base_path st = (st', inr folder_map) ->
  folder_map = folder_map_of (config st) base_path
  /\ all_dirs (fs st') folder_map
  /\ config st' = config st.
Proof.
  intros Hdry H.
  pose proof (create_organized_structure_settled os base_path st)
    as ((Hcfg & _) & _).
  rewrite H in Hcfg. simpl in Hcfg.
  unfold create_organized_structure in H.
  unfold bind at 1 in H. unfold get_config at 1 in H. cbv beta iota in H.
  unfold bind at 1 in H.
  pose proof (create_categories_settled os (PurePath.div base_path "organized")
                (rules (config st)) [] st) as ((Hcfg1 & _) & _).
  destruct (create_categories os _ (rules (config st)) [] st)
    as [s1 [e|fm1]] eqn:Hcat; [discriminate|].
  simpl in Hcfg1.
  destruct (create_categories_live _ _ _ _ _ _ _ Hdry (Forall_nil _) Hcat)
    as [-> Hall1].
  unfold bind at 1 in H. unfold get_config at 1 in H. cbv beta iota in H.
  unfold bind at 1 in H.
  assert (Hdry1 : dry_run (config s1) = false) by congruence.
  destruct (when _ _ s1) as [s2 [e|[]]] eqn:Hstep; [discriminate|].
  unfold ret in H. injection H as <- <-.
  split; [reflexivity|]. split; [|exact Hcfg].
  assert (Hstep' :
    when (negb (dry_run (config s1)))
         (fs_op (FS.alter true (time_now os) (FS.make_dir (time_now os))
                          (PurePath.div (PurePath.div base_path "organized")
                                        "Miscellaneous"));;; ret tt) s1
    = (s2, inr tt)).
  { revert Hstep. unfold_m. rewrite Hdry1. simpl.
    unfold FS.mkdir_parents.
    destruct (FS.alter _ _ _ _ (fs s1)); simpl; congruence. }
  eapply mkdir_live; [exact Hdry1 | exact Hall1 | exact Hstep' |].
  intros s. reflexivity.
Qed.

(** ** Paths *)

Lemma name_div p x : PurePath.name (PurePath.div p x) = x.
Proof. apply last_last. Qed.

Lemma parent_div p x : PurePath.parent (PurePath.div p x) = p.
Proof. apply removelast_last. Qed.

Lemma segments_one (s : string) :
  Str.contains "/" s = false -> Str.segments s = [s].
Proof.
  induction s as [|c s IH]; intros H; [reflexivity|].
  rewrite contains_cons in H. apply orb_false_iff in H as [Hp Hs].
  simpl. destruct (Ascii.eqb_spec c "/") as [->|Hne].
  - simpl in Hp. destruct s; discriminate.
  - now rewrite (IH Hs).
Qed.

(** On a text that is one name, [truediv] is [div]: this is how the
    names of directory entries, and the names made from them, are
    joined. *)
Lemma truediv_one_name p nm :
  Str.contains "/" nm = false -> nm <> "" -> nm <> "." ->
  PurePath.truediv p nm = PurePath.div p nm.
Proof.
  intros Hslash He Hd. unfold PurePath.truediv, PurePath.parts.
  rewrite (segments_one _ Hslash).
  assert (Hp : String.prefix "/" nm = false).
  { destruct nm as [|c nm]; [reflexivity|].
    rewrite contains_cons in Hslash.
    now apply orb_false_iff in Hslash as [Hp _]. }
  rewrite Hp. simpl.
  destruct (String.eqb_spec nm ""); [contradiction|].
  destruct (String.eqb_spec nm "."); [contradiction|].
  reflexivity.
Qed.

(** What pathlib makes of some configured texts. *)
Example truediv_texts :
  let organized_path := ["home"; "u"; "organized"] in
  PurePath.truediv organized_path "Images" = ["home"; "u"; "organized"; "Images"]
  /\ PurePath.truediv organized_path "Media/Images/"
     = ["home"; "u"; "organized"; "Media"; "Images"]
  /\ PurePath.truediv organized_path "a//b/./c"
     = ["home"; "u"; "organized"; "a"; "b"; "c"]
  /\ PurePath.truediv organized_path "" = organized_path
  /\ PurePath.truediv organized_path "../elsewhere"
     = ["home"; "u"; "organized"; ".."; "elsewhere"]
  /\ PurePath.truediv organized_path "/srv/media" = ["srv"; "media"].
Proof. repeat split; reflexivity. Qed.

Lemma is_relative_to_app a b : PurePath.is_relative_to (a ++ b) a = true.
Proof.
  induction a as [|x a IH]; simpl; [destruct b; reflexivity|].
  now rewrite String.eqb_refl, IH.
Qed.

Lemma is_relative_to_parent a b :
  PurePath.is_relative_to (a ++ b) (PurePath.parent a) = true.
Proof.
  unfold PurePath.parent. destruct a as [|x a] using rev_ind.
  - simpl. destruct b; reflexivity.
  - rewrite removelast_last, <- app_assoc. apply is_relative_to_app.
Qed.

Lemma alter_succeeds mk now f p x fs m es r :
  FS.lookup fs p = Some (Dir m es) ->
  f (FS.assoc x es) = inr r ->
  exists fs', FS.alter mk now f (PurePath.div p x) fs = inr fs'.
Proof.
  intros Hp Hf. unfold FS.alter, PurePath.div.
  destruct (alter_from_succeeds mk now f p x (Some fs) m es r Hp Hf)
    as [o' ->]. eauto.
Qed.

Lemma mkdir_succeeds now p x fs :
  FS.is_dir fs p = true ->
  FS.is_file fs (PurePath.div p x) = false ->
  exists fs', FS.mkdir now (PurePath.div p x) fs = inr fs'.
Proof.
  unfold FS.is_dir, FS.is_file. rewrite lookup_div.
  destruct (FS.lookup fs p) as [[fm fd|m es]|] eqn:Hp; try discriminate.
  intros _ Hx.
  destruct (FS.assoc x es) as [[fm fd|dm des]|] eqn:Hx'; try discriminate;
    eapply alter_succeeds; try exact Hp; rewrite Hx'; reflexivity.
Qed.

Lemma write_succeeds p x v fs :
  FS.is_dir fs p = true ->
  FS.lookup fs (PurePath.div p x) = None ->
  exists fs', FS.write (PurePath.div p x) v fs = inr fs'.
Proof.
  unfold FS.is_dir. rewrite lookup_div.
  destruct (FS.lookup fs p) as [[fm fd|m es]|] eqn:Hp; try discriminate.
  intros _ Hx. eapply alter_succeeds; try exact Hp. rewrite Hx. reflexivity.
Qed.

(** ** Calendar *)

(** Every day of 2024 has year 2024 and a month from 1 to 12, and the days
    before October have a month of one digit. *)
Lemma civil_year_month_2024 (days : Z) :
  (19723 <= days < 20089)%Z ->
  exists mo, Calendar.civil_year_month days = (2024%Z, mo)
             /\ (1 <= mo <= 12)%Z
             /\ ((days < 19997)%Z -> (mo <= 9)%Z).
Proof.
  intros Hd.
  assert (Hall :
    forallb (fun i =>
               let days := (19723 + Z.of_nat i)%Z in
               let (y, mo) := Calendar.civil_year_month days in
               (y =? 2024)%Z && (1 <=? mo)%Z && (mo <=? 12)%Z
               && ((19997 <=? days)%Z || (mo <=? 9)%Z))
            (seq 0 366) = true) by (vm_compute; reflexivity).
  rewrite forallb_forall in Hall.
  specialize (Hall (Z.to_nat (days - 19723))).
  rewrite in_seq in Hall. cbv zeta in Hall.
  replace (19723 + Z.of_nat (Z.to_nat (days - 19723)))%Z with days in Hall
    by lia.
  destruct (Calendar.civil_year_month days) as [y mo].
  assert (Hin : 0 <= Z.to_nat (days - 19723) < 0 + 366) by lia.
  specialize (Hall Hin).
  repeat rewrite andb_true_iff in Hall.
  destruct Hall as [[[Hy H1] H12] H9].
  apply Z.eqb_eq in Hy. apply Z.leb_le in H1, H12. subst y.
  exists mo. repeat split; lia.
Qed.

Lemma strftime_Ym_2024 (offset t : Z) :
  (1704067200 <= t + offset < 1727740800)%Z ->
  exists mo, (1 <= mo <= 9)%Z
             /\ Calendar.fromtimestamp offset t = Some (2024%Z, mo)
             /\ Calendar.strftime_Ym (2024%Z, mo)
                = "2024-0" +++ Str.of_nat (Z.to_nat mo).
Proof.
  intros Ht.
  assert (Hd : (19723 <= (t + offset) / 86400 < 19997)%Z).
  { split; [apply Z.div_le_lower_bound | apply Z.div_lt_upper_bound]; lia. }
  destruct (civil_year_month_2024 ((t + offset) / 86400)) as (mo & Hym & Hmo & H9);
    [lia|].
  exists mo. split; [lia|]. split.
  - unfold Calendar.fromtimestamp. rewrite Hym. reflexivity.
  - unfold Calendar.strftime_Ym, Calendar.two_digits.
    destruct (Z.ltb_spec mo 10); [reflexivity | lia].
Qed.

(** ** The worked example *)

(** C9. Under the default configuration, right after the organized
    structure is created, a regular file [screenshot_2024.png] of the
    source directory is classified as [("images", "screenshots")], and
    when its modification time is one [datetime.fromtimestamp] takes and
    nothing is in the way at the destination, [organize_file] completes
    and leaves a copy of it at
    [organized/Images/screenshots/YYYY-MM/screenshot_2024.png], where
    [YYYY-MM] is the year and month of its modification time; for a file
    last modified between January and September 2024 that folder is
    [2024-0M]. [str.lower] leaves the stem and the extension, which are
    in lower case, as they are. *)
Theorem screenshot_example os st0 st folder_map source m d file_date :
  config st0 = default_config ->
  create_organized_structure os source st0 = (st, inr folder_map) ->
  str_lower os "screenshot_2024" = "screenshot_2024" ->
  str_lower os ".png" = ".png" ->
  Calendar.fromtimestamp (utcoffset os m) m = Some file_date ->
  let file_path := PurePath.div source "screenshot_2024.png" in
  let year_month := Calendar.strftime_Ym file_date in
  let date_folder :=
    source ++ ["organized"; "Images"; "screenshots"; year_month] in
  let dest_path := PurePath.div date_folder "screenshot_2024.png" in
  FS.lookup (fs st) file_path = Some (File m d) ->
  FS.is_file (fs st) date_folder = false ->
  FS.path_exists (fs st) dest_path = false ->
  Classifier.get_file_category (str_lower os) (config st) file_path
  = ("images", "screenshots")
  /\ (exists st',
        organize_file os file_path folder_map st = (st', inr tt)
        /\ FS.lookup (fs st') dest_path = Some (File m d)
        /\ FS.lookup (fs st') file_path = Some (File m d))
  /\ ((1704067200 <= m + utcoffset os m < 1727740800)%Z ->
      exists mo, (1 <= mo <= 9)%Z
                 /\ year_month = "2024-0" +++ Str.of_nat (Z.to_nat mo)).
Proof.
  intros Hcfg0 Hstruct Hstem Hext Hdate0 file_path year_month date_folder
         dest_path Hfile Hnf Hfree.
  assert (Hdry0 : dry_run (config st0) = false) by (now rewrite Hcfg0).
  destruct (create_organized_structure_live _ _ _ _ _ Hdry0 Hstruct)
    as (Hmap & Hall & Hcfg).
  rewrite Hcfg0 in Hcfg, Hmap.
  assert (Hcat : Classifier.get_file_category (str_lower os) default_config
                                               file_path
                 = ("images", "screenshots")).
  { unfold Classifier.get_file_category, PurePath.suffix, PurePath.stem,
      file_path. rewrite name_div.
    change (PurePath.suffix_of "screenshot_2024.png") with ".png".
    change (PurePath.stem_of "screenshot_2024.png") with "screenshot_2024".
    rewrite Hstem, Hext. reflexivity. }
  set (shots := PurePath.div
                  (PurePath.div (PurePath.div source "organized") "Images")
                  "screenshots").
  assert (Hdate : date_folder = PurePath.div shots year_month).
  { unfold date_folder, shots, PurePath.div.
    repeat rewrite <- app_assoc. reflexivity. }
  assert (Hget1 : Dict.get "images" folder_map
                  = Some (PurePath.div (PurePath.div source "organized")
                                       "Images"))
    by (rewrite Hmap; reflexivity).
  assert (Hget2 : Dict.get "images_screenshots" folder_map = Some shots)
    by (rewrite Hmap; reflexivity).
  assert (Hshots : FS.is_dir (fs st) shots = true)
    by (apply (dict_get_Forall _ _ _ _ Hall Hget2)).
  rewrite Hdate in Hnf. unfold dest_path in *. rewrite Hdate in *.
  destruct (mkdir_succeeds (time_now os) shots year_month (fs st) Hshots Hnf)
    as [fs1 Hmk].
  assert (Hfile1 : FS.lookup fs1 file_path = Some (File m d))
    by (eapply make_dir_keeps_file; [exact Hfile | exact Hmk]).
  assert (Hfree1 : FS.lookup fs1 (PurePath.div (PurePath.div shots year_month)
                                              "screenshot_2024.png") = None).
  { rewrite (mkdir_below _ _ _ _ _ Hmk).
    now apply path_exists_false_lookup. }
  assert (Hdatedir : FS.is_dir fs1 (PurePath.div shots year_month) = true)
    by (eapply make_dir_is_dir; exact Hmk).
  destruct (write_succeeds (PurePath.div shots year_month)
              "screenshot_2024.png" (File m d) fs1 Hdatedir Hfree1)
    as [fs2 Hwr].
  split; [rewrite Hcfg; exact Hcat|]. split.
  - exists (mkState (config st)
                    (mkStats (files_processed (stats st))
                             (S (files_moved (stats st)))
                             (directories_created (stats st))
                             (errors (stats st)))
                    fs2
                    (console st
                     ++ [MsgAction "COPY" "screenshot_2024.png"
                           (skipn (List.length
                                     (PurePath.parent (PurePath.parent file_path)))
                                  (PurePath.div (PurePath.div shots year_month)
                                                "screenshot_2024.png"))])).
    simpl. split; [|split].
    + assert (Hres : resolve_conflict fs1 (PurePath.div shots year_month)
                                      file_path
                     = PurePath.div (PurePath.div shots year_month)
                                    "screenshot_2024.png").
      { destruct (resolve_conflict_least fs1 (PurePath.div shots year_month)
                    file_path) as [[_ Heq] | [Htaken _]].
        - rewrite Heq. unfold file_path. now rewrite name_div.
        - unfold file_path in Htaken. rewrite name_div in Htaken.
          unfold FS.path_exists in Htaken. rewrite Hfree1 in Htaken.
          discriminate. }
      assert (Hrel : PurePath.is_relative_to
                       (PurePath.div (PurePath.div shots year_month)
                                     "screenshot_2024.png")
                       (PurePath.parent (PurePath.parent file_path)) = true).
      { unfold file_path. rewrite parent_div. unfold shots, PurePath.div.
        repeat rewrite <- app_assoc. apply is_relative_to_parent. }
      assert (Hcp : FS.copy2 file_path
                      (PurePath.div (PurePath.div shots year_month)
                                    "screenshot_2024.png") fs1 = inr fs2).
      { unfold FS.copy2, FS.is_dir. rewrite Hfree1.
        unfold FS.path_exists at 1. rewrite Hfree1. cbv beta iota.
        change (false && FS.path_exists fs1 file_path) with false.
        cbv beta iota.
        rewrite (proj2 (resolve_lookup _ _ _) Hfile1). exact Hwr. }
      unfold organize_file, destination_folder. unfold_m.
      rewrite Hcfg, Hcat. cbv beta iota zeta.
      change (negb ("screenshots" =? "")%string) with true. cbv iota.
      rewrite Hget1.
      change ("images" +++ "_" +++ "screenshots") with "images_screenshots".
      rewrite Hget2.
      change (create_date_folders default_config) with true.
      change (dry_run default_config) with false.
      change (backup_enabled default_config) with true.
      cbv beta iota zeta.
      rewrite (proj2 (resolve_lookup _ _ _) Hfile). cbv beta iota zeta.
      rewrite Hdate0. cbv beta iota zeta.
      change (negb false) with true. cbv beta iota. fold year_month.
      rewrite Hmk. cbn [fs config stats console].
      rewrite Hres, Hrel. cbv beta iota. cbn [fs config stats console].
      rewrite Hcfg.
      change (dry_run default_config) with false.
      change (backup_enabled default_config) with true.
      change (negb false) with true. change (negb true) with false.
      cbv beta iota. cbn [fs config stats console].
      rewrite Hcp. cbn [fs config stats console files_processed files_moved
                        directories_created errors].
      unfold file_path at 1. rewrite name_div. reflexivity.
    + eapply write_at; exact Hwr.
    + eapply write_keeps_file; [|exact Hfile1|exact Hwr].
      intros Heq. rewrite Heq in Hfile1. congruence.
  - intros Hrange.
    destruct (strftime_Ym_2024 (utcoffset os m) m Hrange)
      as (mo & Hmo & Hsome & Hstr).
    exists mo. split; [exact Hmo|].
    rewrite Hsome in Hdate0. injection Hdate0 as <-. exact Hstr.
Qed.

(** A modification time in the year 10000 is one [datetime.fromtimestamp]
    does not take: [organize_file] raises before it has touched
    anything. *)
Example time_out_of_range_raises :
  let tree :=
    Dir 0 [ ("home",
             Dir 0 [ ("u", Dir 0 [ ("screenshot_2024.png",
                                    File 253402300800 "PNG") ]) ]) ] in
  let st := mkState default_config zero_stats tree [] in
  organize_file Sample.platform (Sample.source ++ ["screenshot_2024.png"])
                Sample.folder_map st
  = (st, inl ValueError).
Proof. vm_compute. reflexivity. Qed.

(** ** The command line *)

(** Without [--execute], what [main] does to the file system is what the
    constructor did: nothing when the configuration file exists, the
    writing of the default configuration when it does not. *)
Lemma main_dry_run_frame os args tree out :
  arg_execute args = false ->
  fs (fst (main os args tree out))
  = fs (fst (init os (arg_config args) tree out)).
Proof.
  intros Hex. unfold main.
  destruct (init os (arg_config args) tree out) as [st [e|[]]];
    [reflexivity|].
  rewrite Hex. unfold_m. cbn [negb fst fs config].
  set (cfg := if arg_no_date_folders args then _ else _).
  set (st1 := mkState cfg _ _ _).
  assert (Hdry : dry_run (config st1) = true).
  { unfold st1, cfg. simpl.
    destruct (arg_no_date_folders args), (arg_backup args); reflexivity. }
  pose proof (organize_directory_frame os (arg_directory args)
                (arg_recursive args) st1) as [_ Hfs].
  specialize (Hfs Hdry).
  destruct (organize_directory os (arg_directory args) (arg_recursive args) st1)
    as [st2 [e|r]]; simpl in *; exact Hfs.
Qed.

(** ** Instances on the worked input *)

Lemma mem_In (x : string) (l : list string) : Str.mem x l = true <-> In x l.
Proof.
  unfold Str.mem. rewrite existsb_exists. split.
  - intros (y & Hin & Heq). apply String.eqb_eq in Heq. now subst.
  - intros Hin. exists x. split; [exact Hin | apply String.eqb_refl].
Qed.

(** C2, a counterexample to the claim as stated: run without [--execute]
    where no configuration file exists, the script is in dry-run mode and
    yet leaves a file system that differs from the one it found: it has
    written the default configuration file. *)
Lemma dry_run_invocation_writes_config :
  let r := main Sample.platform Sample.args Sample.tree [] in
  dry_run (config (fst r)) = true
  /\ FS.path_exists Sample.tree Sample.config_file = false
  /\ FS.path_exists (fs (fst r)) Sample.config_file = true
  /\ fs (fst r) <> Sample.tree.
Proof.
  cbv zeta. repeat split; try (vm_compute; reflexivity).
  intros H.
  apply (f_equal (fun t => FS.path_exists t Sample.config_file)) in H.
  vm_compute in H. discriminate.
Qed.

Lemma dry_run_no_mutation_witness :
  dry_run (config Sample.dry) = true
  /\ fs (fst (organize_directory Sample.platform Sample.source true
                                 Sample.dry))
     = fs Sample.dry.
Proof.
  split; [reflexivity|].
  apply (dry_run_no_mutation Sample.platform Sample.source true Sample.dry).
  reflexivity.
Defined.

(** C3, a counterexample to the claim as stated: in a dry run the
    destination of [notes.txt] exists, [organize_file] settles on
    [notes_1.txt] and completes, and no file is placed at that path. *)
Lemma dry_run_places_nothing :
  let file_path := Sample.source ++ ["notes.txt"] in
  let dest_folder :=
    Sample.source ++ ["organized"; "Documents"; "text_files"; "2023-11"] in
  let r := organize_file Sample.platform file_path Sample.folder_map
                         Sample.dry in
  FS.path_exists (fs Sample.dry) (PurePath.div dest_folder "notes.txt") = true
  /\ resolve_conflict (fs Sample.dry) dest_folder file_path
     = PurePath.div dest_folder "notes_1.txt"
  /\ snd r = inr tt
  /\ FS.lookup (fs (fst r)) (PurePath.div dest_folder "notes_1.txt") = None.
Proof. cbv zeta. repeat split; vm_compute; reflexivity. Qed.

Lemma collision_takes_least_free_suffix_witness :
  let file_path := Sample.source ++ ["notes.txt"] in
  let dest_folder :=
    Sample.source ++ ["organized"; "Documents"; "text_files"; "2023-11"] in
  let r := organize_file Sample.platform file_path Sample.folder_map
                         Sample.live in
  snd r = inr tt
  /\ FS.lookup (fs (fst r)) (PurePath.div dest_folder "notes_1.txt")
     = Some (File 1700000000 "new")
  /\ FS.lookup (fs (fst r)) (PurePath.div dest_folder "notes.txt")
     = Some (File 1 "old").
Proof.
  cbv zeta.
  set (file_path := Sample.source ++ ["notes.txt"]).
  set (dest_folder :=
         Sample.source ++ ["organized"; "Documents"; "text_files"; "2023-11"]).
  assert (H1 : destination_folder Sample.platform file_path Sample.folder_map
                                  Sample.live
               = (fst (destination_folder Sample.platform file_path
                                          Sample.folder_map Sample.live),
                  inr dest_folder)) by (vm_compute; reflexivity).
  assert (H2 : FS.lookup (fs Sample.live) file_path
               = Some (File 1700000000 "new")) by (vm_compute; reflexivity).
  assert (H3 : FS.path_exists
                 (fs (fst (destination_folder Sample.platform file_path
                                              Sample.folder_map Sample.live)))
                 (PurePath.div dest_folder (PurePath.name file_path)) = true)
    by (vm_compute; reflexivity).
  destruct (collision_takes_least_free_suffix Sample.platform Sample.live
              file_path Sample.folder_map _ dest_folder _ _ H1 H2 H3)
    as (k & Hk & Hres & _ & _ & Hplaced & Hkept).
  cbv zeta in Hplaced.
  assert (Hrun : snd (organize_file Sample.platform file_path
                                    Sample.folder_map Sample.live) = inr tt)
    by (vm_compute; reflexivity).
  split; [exact Hrun|]. split.
  - assert (Hk1 : PurePath.div dest_folder
                    (numbered (PurePath.stem file_path)
                              (PurePath.suffix file_path) k)
                  = PurePath.div dest_folder "notes_1.txt").
    { rewrite <- Hres. vm_compute. reflexivity. }
    rewrite <- Hk1. apply Hplaced; [reflexivity|].
    destruct (organize_file Sample.platform file_path Sample.folder_map
                            Sample.live) as [st' [e|[]]];
      [discriminate | reflexivity].
  - apply Hkept; [discriminate | vm_compute; reflexivity].
Defined.

(** C4, a counterexample to the claim as stated: [ecosystem/a.txt] is a
    file under the source, in no folder named in [ignore_folders] and not
    under the organized root, and the recursive run does not gather it:
    the folder name contains the ignored word [system]. *)
Lemma substring_match_drops_candidate :
  ~ (forall p,
       claimed_candidate (str_lower Sample.platform) (config Sample.dry)
                         Sample.source Sample.source_node p ->
       In p (gathered (snd (organize_directory Sample.platform Sample.source
                                               true Sample.dry)))).
Proof.
  intros H.
  specialize (H (Sample.source ++ ["ecosystem"; "a.txt"])).
  assert (Hc : claimed_candidate (str_lower Sample.platform)
                 (config Sample.dry) Sample.source Sample.source_node
                 (Sample.source ++ ["ecosystem"; "a.txt"])).
  { exists ["ecosystem"; "a.txt"]. split; [reflexivity|]. split; [|split].
    - eapply file_deeper; [right; right; left; reflexivity|].
      eapply file_here. left. reflexivity.
    - intros d [<-|[]]. vm_compute.
      intros [Hd|[Hd|[Hd|[Hd|[]]]]]; discriminate.
    - discriminate. }
  apply H in Hc. vm_compute in Hc.
  destruct Hc as [Hc|[Hc|[Hc|[Hc|[]]]]]; discriminate.
Qed.

Lemma recursive_candidates_witness :
  FS.lookup (fs Sample.dry) Sample.source = Some Sample.source_node
  /\ exists files_to_process,
       gather Sample.platform Sample.source true Sample.dry
       = (Sample.dry, inr files_to_process)
       /\ In (Sample.source ++ ["sub"; "b.py"]) files_to_process
       /\ ~ In (Sample.source ++ ["organized"; "Documents"; "text_files";
                                   "2023-11"; "notes.txt"])
               files_to_process.
Proof.
  split; [reflexivity|].
  destruct (recursive_candidates Sample.platform Sample.source Sample.dry
              Sample.source_node eq_refl)
    as (files_to_process & Hgather & Hsound & Hcomplete).
  exists files_to_process. split; [exact Hgather|]. split.
  - apply Hcomplete.
    + eapply file_deeper; [right; right; right; left; reflexivity|].
      eapply file_here. right. left. reflexivity.
    + repeat constructor.
    + vm_compute. reflexivity.
  - intros Hin. destruct (Hsound _ Hin) as (rel & Heq & _ & _ & Hhd).
    apply app_inv_head in Heq. subst rel. apply Hhd. reflexivity.
Defined.

Lemma missing_source_aborts_witness :
  FS.path_exists (fs Sample.live) ["nowhere"] = false
  /\ organize_directory Sample.platform ["nowhere"] false Sample.live
     = (mkState default_config zero_stats Sample.tree
                [MsgSourceMissing ["nowhere"]],
        inr SourceMissing).
Proof.
  split; [reflexivity|].
  apply (missing_source_aborts Sample.platform ["nowhere"] false Sample.live).
  reflexivity.
Defined.


(** C7, a counterexample to the claim as stated: the configuration file
    exists and its contents are no text, so they do not parse as JSON;
    [json.load] raises [UnicodeDecodeError], which the [except] clause of
    line 93 does not name: [load_config] does not fall back to the
    default configuration with a warning, the constructor raises and
    prints nothing. *)
Lemma undecodable_config_raises :
  let st :=
    mkState default_config zero_stats Sample.tree_with_binary_config [] in
  FS.lookup (fs st) Sample.config_file = Some (File 7 Sample.binary)
  /\ json_load Sample.platform Sample.binary = inl UnicodeDecodeError
  /\ load_config Sample.platform Sample.config_file st
     <> (mkState default_config (stats st) (fs st)
                 (console st ++ [MsgInvalidConfig]), inr tt)
  /\ init Sample.platform Sample.config_file
          Sample.tree_with_binary_config []
     = (st, inl UnicodeDecodeError).
Proof.
  cbv zeta. repeat split; try (vm_compute; reflexivity).
  vm_compute. discriminate.
Qed.

Lemma invalid_config_falls_back_witness :
  let st := mkState default_config zero_stats Sample.tree_with_bad_config [] in
  FS.lookup (fs st) Sample.config_file = Some (File 7 "{oops")
  /\ json_load Sample.platform "{oops" = inl JSONDecodeError
  /\ init Sample.platform Sample.config_file
          Sample.tree_with_bad_config []
     = (mkState default_config zero_stats Sample.tree_with_bad_config
                [MsgInvalidConfig], inr tt).
Proof.
  cbv zeta. split; [reflexivity|]. split; [reflexivity|].
  apply (invalid_config_falls_back Sample.platform Sample.config_file
           (mkState default_config zero_stats Sample.tree_with_bad_config [])
           7%Z "{oops" eq_refl eq_refl).
Defined.

Lemma collision_loop_terminates_witness :
  exists r,
    (forall fuel, 4 <= fuel ->
       collision_loop fuel (fun nm => Str.mem nm ["a.txt"; "a_1.txt"])
                      "a" ".txt" 1 "a.txt" = Some r)
    /\ Str.mem r ["a.txt"; "a_1.txt"] = false
    /\ ~ In r ["a.txt"; "a_1.txt"].
Proof.
  apply (collision_loop_terminates
           (fun nm => Str.mem nm ["a.txt"; "a_1.txt"]) ["a.txt"; "a_1.txt"]
           "a" ".txt" "a.txt").
  intros nm. apply mem_In.
Defined.

Lemma screenshot_example_witness :
  let file_path := Sample.source ++ ["screenshot_2024.png"] in
  let st := fst (create_organized_structure Sample.platform Sample.source
                                            Sample.live) in
  Classifier.get_file_category (str_lower Sample.platform) default_config
                               file_path
  = ("images", "screenshots")
  /\ exists st',
       organize_file Sample.platform file_path Sample.folder_map st
       = (st', inr tt)
       /\ FS.lookup (fs st')
            (Sample.source ++ ["organized"; "Images"; "screenshots";
                                "2024-03"; "screenshot_2024.png"])
          = Some (File 1710000000 "PNG").
Proof.
  cbv zeta.
  assert (H1 : create_organized_structure Sample.platform Sample.source
                                          Sample.live
               = (fst (create_organized_structure Sample.platform
                                                  Sample.source Sample.live),
                  inr Sample.folder_map)) by (vm_compute; reflexivity).
  destruct (screenshot_example Sample.platform Sample.live _
              Sample.folder_map Sample.source 1710000000%Z "PNG"
              (2024%Z, 3%Z) eq_refl H1 eq_refl eq_refl eq_refl)
    as (Hcat & (st' & Hrun & Hdest & _) & _);
    try (vm_compute; reflexivity).
  split; [vm_compute; reflexivity|].
  exists st'. split; [exact Hrun | exact Hdest].
Defined.


(* ================================================================== *)
(** * Further properties of the organizer *)

(** ** The folder map *)

Lemma dict_get_set_same {V} k (v : V) d : Dict.get k (Dict.set k v d) = Some v.
Proof.
  induction d as [|[k' w] d IH]; simpl.
  - now rewrite String.eqb_refl.
  - destruct (String.eqb k k') eqn:E; simpl; rewrite E; [reflexivity | exact IH].
Qed.

Lemma dict_get_set_other {V} k k' (v : V) d :
  k <> k' -> Dict.get k' (Dict.set k v d) = Dict.get k' d.
Proof.
  intros Hne. induction d as [|[k0 w] d IH]; simpl.
  - destruct (String.eqb_spec k' k); [congruence | reflexivity].
  - destruct (String.eqb_spec k k0) as [->|Hk]; simpl.
    + destruct (String.eqb_spec k' k0); [congruence | reflexivity].
    + now rewrite IH.
Qed.

Lemma dict_set_keeps_key {V} k k' (v : V) d :
  (exists w, Dict.get k' d = Some w) ->
  exists w, Dict.get k' (Dict.set k v d) = Some w.
Proof.
  intros [w Hw]. destruct (string_dec k k') as [->|Hne].
  - exists v. apply dict_get_set_same.
  - exists w. now rewrite dict_get_set_other.
Qed.

Lemma subfolder_entries_keeps_key category category_path subs k :
  forall folder_map,
    (exists w, Dict.get k folder_map = Some w) ->
    exists w, Dict.get k (subfolder_entries category category_path subs
                                            folder_map) = Some w.
Proof.
  induction subs as [|[subfolder patterns] rest IH]; intros folder_map H;
    simpl; [exact H|].
  apply IH, dict_set_keeps_key, H.
Qed.

Lemma category_entries_keeps_key organized_path rs k :
  forall folder_map,
    (exists w, Dict.get k folder_map = Some w) ->
    exists w, Dict.get k (category_entries organized_path rs folder_map)
              = Some w.
Proof.
  induction rs as [|[category r] rest IH]; intros folder_map H; simpl;
    [exact H|].
  apply IH. destruct (subfolders r).
  - apply subfolder_entries_keeps_key, dict_set_keeps_key, H.
  - apply dict_set_keeps_key, H.
Qed.

Lemma category_entries_has_category organized_path rs category r :
  In (category, r) rs ->
  forall folder_map,
    exists w, Dict.get category
                (category_entries organized_path rs folder_map) = Some w.
Proof.
  induction rs as [|[c0 r0] rest IH]; intros Hin folder_map; [contradiction|].
  destruct Hin as [[= -> ->]|Hin]; simpl.
  - apply category_entries_keeps_key. destruct (subfolders r).
    + apply subfolder_entries_keeps_key. eexists. apply dict_get_set_same.
    + eexists. apply dict_get_set_same.
  - apply IH, Hin.
Qed.

(** The category [get_file_category] returns is [misc] or one of the
    rule table, and the subfolder is empty or one of that category. *)
Lemma scan_subfolders_In subs file_name file_ext subfolder :
  Classifier.scan_subfolders subs file_name file_ext = Some subfolder ->
  exists patterns, In (subfolder, patterns) subs.
Proof.
  induction subs as [|[sf patterns] rest IH]; simpl; [discriminate|].
  destruct (Classifier.scan_patterns patterns file_name file_ext).
  - intros [= <-]. exists patterns. now left.
  - intros H. destruct (IH H) as [ps Hps]. exists ps. now right.
Qed.

Lemma scan_rules_In rs file_name file_ext category subfolder :
  Classifier.scan_rules rs file_name file_ext = Some (category, subfolder) ->
  exists r,
    In (category, r) rs
    /\ Str.mem file_ext (extensions r) = true
    /\ (subfolder = ""
        \/ exists subs patterns,
             subfolders r = Some subs /\ In (subfolder, patterns) subs).
Proof.
  induction rs as [|[c r] rest IH]; simpl; [discriminate|].
  destruct (Str.mem file_ext (extensions r)) eqn:Hext.
  - intros H. exists r. split; [|split; [exact Hext|]].
    + left. f_equal.
      destruct (subfolders r) as [subs|];
        [destruct (Classifier.scan_subfolders subs file_name file_ext)|];
        congruence.
    + destruct (subfolders r) as [subs|]; [|left; congruence].
      destruct (Classifier.scan_subfolders subs file_name file_ext) as [sf|]
        eqn:Hsf; [|left; congruence].
      injection H as <- <-. right.
      destruct (scan_subfolders_In _ _ _ _ Hsf) as [patterns Hp].
      exists subs, patterns. auto.
  - intros H. destruct (IH H) as (r0 & Hin & Hrest).
    exists r0. split; [now right | exact Hrest].
Qed.

Lemma create_subfolders_map os category category_path subs :
  forall folder_map st st' folder_map',
    create_subfolders os category category_path subs folder_map st
    = (st', inr folder_map') ->
    folder_map' = subfolder_entries category category_path subs folder_map.
Proof.
  induction subs as [|[subfolder patterns] rest IH];
    intros folder_map st st' folder_map' H; simpl in H.
  - now injection H as <- <-.
  - unfold bind at 1 in H. unfold get_config at 1 in H. cbv beta iota in H.
    unfold bind at 1 in H.
    destruct (when _ _ st) as [s1 [e|[]]]; [discriminate|].
    apply IH in H. exact H.
Qed.

Lemma create_categories_map os organized_path rs :
  forall folder_map st st' folder_map',
    create_categories os organized_path rs folder_map st
    = (st', inr folder_map') ->
    folder_map' = category_entries organized_path rs folder_map.
Proof.
  induction rs as [|[category r] rest IH];
    intros folder_map st st' folder_map' H; simpl in H.
  - now injection H as <- <-.
  - unfold bind at 1 in H. unfold get_config at 1 in H. cbv beta iota in H.
    unfold bind at 1 in H.
    destruct (when _ _ st) as [s1 [e|[]]]; [discriminate|].
    unfold bind at 1 in H. simpl.
    destruct (subfolders r) as [subs|].
    + destruct (create_subfolders os category _ subs _ s1)
        as [s2 [e|fm2]] eqn:Hsub; [discriminate|].
      apply create_subfolders_map in Hsub. subst fm2.
      apply IH in H. exact H.
    + simpl in H. apply IH in H. exact H.
Qed.

(** In every mode, the map [create_organized_structure] returns is the
    one the rule table determines. *)
Lemma create_organized_structure_map os base_path st st' folder_map :
  create_organized_structure os base_path st = (st', inr folder_map) ->
  folder_map = folder_map_of (config st) base_path.
Proof.
  intros H. unfold create_organized_structure in H.
  unfold bind at 1 in H. unfold get_config at 1 in H. cbv beta iota in H.
  unfold bind at 1 in H.
  destruct (create_categories os _ (rules (config st)) [] st)
    as [s1 [e|fm1]] eqn:Hcat; [discriminate|].
  apply create_categories_map in Hcat. subst fm1.
  unfold bind at 1 in H. unfold get_config at 1 in H. cbv beta iota in H.
  unfold bind at 1 in H.
  destruct (when _ _ s1) as [s2 [e|[]]]; [discriminate|].
  unfold ret in H. now injection H as <- <-.
Qed.

(** X1. The map [create_organized_structure] returns has an entry for
    the category [get_file_category] gives to any file, [misc] included,
    so the lookup [folder_map[category]] of [organize_file] never raises
    [KeyError]. *)
Theorem category_lookup_never_fails os base_path st st' folder_map file_path :
  create_organized_structure os base_path st = (st', inr folder_map) ->
  exists dest_folder,
    Dict.get (fst (Classifier.get_file_category (str_lower os) (config st)
                                                file_path))
             folder_map = Some dest_folder.
Proof.
  intros H. apply create_organized_structure_map in H. subst folder_map.
  unfold folder_map_of, Classifier.get_file_category.
  destruct (Classifier.scan_rules _ _ _) as [[category subfolder]|] eqn:Hscan;
    simpl.
  - destruct (scan_rules_In _ _ _ _ _ Hscan) as (r & Hin & _).
    apply dict_set_keeps_key. apply (category_entries_has_category _ _ _ _ Hin).
  - eexists. apply dict_get_set_same.
Qed.

Lemma category_lookup_never_fails_witness :
  exists dest_folder,
    Dict.get (fst (Classifier.get_file_category
                     (str_lower Sample.platform) (config Sample.dry)
                     (Sample.source ++ ["strange.xyz"])))
             Sample.folder_map = Some dest_folder.
Proof.
  apply (category_lookup_never_fails Sample.platform Sample.source Sample.dry
           Sample.dry Sample.folder_map).
  vm_compute. reflexivity.
Defined.

(** ** Files below a folder of the source *)

Lemma under_organized_div base_path p x :
  under_organized base_path p -> under_organized base_path (PurePath.div p x).
Proof.
  intros [rest ->]. exists (rest ++ [x]). unfold PurePath.div.
  now rewrite <- app_assoc.
Qed.

(** Joining a text that is not an absolute path stays below. *)
Lemma under_organized_truediv base_path p text :
  String.prefix "/" text = false ->
  under_organized base_path p ->
  under_organized base_path (PurePath.truediv p text).
Proof.
  intros Hrel [rest ->]. unfold PurePath.truediv. rewrite Hrel.
  exists (rest ++ PurePath.parts text). now rewrite <- app_assoc.
Qed.

Lemma subfolder_entries_under base_path category category_path subs :
  forallb (fun sp => negb (String.prefix "/" (fst sp))) subs = true ->
  under_organized base_path category_path ->
  forall folder_map,
    Forall (fun kv => under_organized base_path (snd kv)) folder_map ->
    Forall (fun kv => under_organized base_path (snd kv))
           (subfolder_entries category category_path subs folder_map).
Proof.
  intros Hrel Hc. induction subs as [|[subfolder patterns] rest IH];
    intros folder_map H; simpl; [exact H|].
  simpl in Hrel. apply andb_true_iff in Hrel as [Hsub Hrest]. flags.
  apply IH; [exact Hrest|]. apply dict_set_Forall; [exact H|]. simpl.
  apply under_organized_truediv; [exact Hsub | exact Hc].
Qed.

Lemma category_entries_under base_path rs :
  relative_names rs = true ->
  forall folder_map,
    Forall (fun kv => under_organized base_path (snd kv)) folder_map ->
    Forall (fun kv => under_organized base_path (snd kv))
           (category_entries (PurePath.div base_path "organized") rs folder_map).
Proof.
  assert (Hc : forall text,
             String.prefix "/" text = false ->
             under_organized base_path
               (PurePath.truediv (PurePath.div base_path "organized") text)).
  { intros text Hrel. apply under_organized_truediv; [exact Hrel|].
    exists []. reflexivity. }
  induction rs as [|[category r] rest IH]; intros Hrel folder_map H; simpl;
    [exact H|].
  simpl in Hrel. apply andb_true_iff in Hrel as [Hr Hrest].
  apply andb_true_iff in Hr as [Hfolder Hsubs]. flags.
  apply IH; [exact Hrest|]. destruct (subfolders r).
  - apply subfolder_entries_under; [exact Hsubs | apply Hc, Hfolder|].
    apply dict_set_Forall; [exact H | apply Hc, Hfolder].
  - apply dict_set_Forall; [exact H | apply Hc, Hfolder].
Qed.

Lemma folder_map_of_under cfg base_path :
  relative_names (rules cfg) = true ->
  Forall (fun kv => under_organized base_path (snd kv))
         (folder_map_of cfg base_path).
Proof.
  intros Hrel. unfold folder_map_of. apply dict_set_Forall.
  - apply category_entries_under; [exact Hrel | constructor].
  - exists ["Miscellaneous"]. unfold PurePath.div. now rewrite <- app_assoc.
Qed.

(** The destination folder is one of the map, or a date folder in one. *)
Lemma destination_folder_under os base_path file_path folder_map st st1
      dest_folder :
  Forall (fun kv => under_organized base_path (snd kv)) folder_map ->
  destination_folder os file_path folder_map st = (st1, inr dest_folder) ->
  under_organized base_path dest_folder.
Proof.
  intros Hall. unfold destination_folder. unfold_m.
  repeat (case_step; simpl); intros [= <- <-] || intros [=];
    repeat match goal with
           | |- under_organized _ (PurePath.div _ _) =>
               apply under_organized_div
           end;
    match goal with
    | H : Dict.get ?k folder_map = Some ?p |- under_organized _ ?p =>
        exact (dict_get_Forall _ k p folder_map Hall H)
    end.
Qed.

Lemma is_relative_to_app_cancel a p q :
  PurePath.is_relative_to (a ++ p) (a ++ q) = PurePath.is_relative_to p q.
Proof.
  induction a as [|x a IH]; simpl; [reflexivity|].
  now rewrite String.eqb_refl, IH.
Qed.

(** X2. When no folder and no subfolder of the rule table is written as
    an absolute path, a file two or more folders below the source, in a
    folder other than [organized], is never organized: with the map of
    [create_organized_structure], [organize_file] does not complete, and
    once the destination folder is worked out it raises [ValueError] from
    [relative_to] before anything is copied or moved. *)
Theorem nested_file_is_never_organized
        os base_path st0 st' folder_map d1 mid d2 name st :
  relative_names (rules (config st0)) = true ->
  create_organized_structure os base_path st0 = (st', inr folder_map) ->
  d1 <> "organized" ->
  let file_path :=
    PurePath.div (PurePath.div (base_path ++ d1 :: mid) d2) name in
  snd (organize_file os file_path folder_map st) <> inr tt
  /\ forall st1 dest_folder,
       destination_folder os file_path folder_map st = (st1, inr dest_folder) ->
       organize_file os file_path folder_map st = (st1, inl ValueError).
Proof.
  intros Hnames Hmap Hd1 file_path.
  apply create_organized_structure_map in Hmap.
  assert (Hall : Forall (fun kv => under_organized base_path (snd kv))
                        folder_map)
    by (subst folder_map; apply folder_map_of_under, Hnames).
  assert (Hraise : forall st1 dest_folder,
    destination_folder os file_path folder_map st = (st1, inr dest_folder) ->
    organize_file os file_path folder_map st = (st1, inl ValueError)).
  { intros st1 dest_folder Hdest.
    destruct (resolve_conflict_is_loop (fs st1) dest_folder file_path)
      as (nm & Hres & _).
    destruct (under_organized_div _ _ nm
                (destination_folder_under _ _ _ _ _ _ _ Hall Hdest))
      as [rest Hrest].
    unfold organize_file. unfold bind at 1. rewrite Hdest.
    unfold_m. cbv beta iota. rewrite Hres, Hrest.
    unfold file_path. rewrite !parent_div.
    rewrite is_relative_to_app_cancel. simpl.
    destruct (String.eqb_spec d1 "organized"); [contradiction|].
    reflexivity. }
  split; [|exact Hraise].
  destruct (destination_folder os file_path folder_map st)
    as [st1 [e|dest_folder]] eqn:Hdest.
  - unfold organize_file. unfold bind at 1. rewrite Hdest. discriminate.
  - rewrite (Hraise _ _ eq_refl). discriminate.
Qed.

Lemma nested_file_is_never_organized_witness :
  organize_file Sample.platform (Sample.source ++ ["sub"; "deep"; "a.mp3"])
                Sample.folder_map
                (fst (create_organized_structure Sample.platform Sample.source
                                                 Sample.live))
  = (fst (destination_folder Sample.platform
            (Sample.source ++ ["sub"; "deep"; "a.mp3"]) Sample.folder_map
            (fst (create_organized_structure Sample.platform Sample.source
                                             Sample.live))),
     inl ValueError).
Proof.
  assert (Hmap : create_organized_structure Sample.platform Sample.source
                                            Sample.live
                 = (fst (create_organized_structure Sample.platform
                           Sample.source Sample.live),
                    inr Sample.folder_map)) by (vm_compute; reflexivity).
  assert (Hd1 : "sub" <> "organized") by discriminate.
  apply (proj2 (nested_file_is_never_organized Sample.platform Sample.source
                  Sample.live _ Sample.folder_map "sub" [] "deep" "a.mp3"
                  (fst (create_organized_structure Sample.platform
                          Sample.source Sample.live)) eq_refl Hmap Hd1)
               _
               (Sample.source ++ ["organized"; "Audio"; "1970-01"])).
  vm_compute. reflexivity.
Defined.

(** A folder written as an absolute path takes the place of the
    organized root: the file two folders down is then below the path
    [relative_to] is given, and it is copied. *)
Example absolute_folder_takes_nested_file :
  let cfg :=
    mkConfig [("audio", mkRule [".mp3"] "/home/u/sub/music" None)] []
             false true true in
  let made := create_organized_structure Sample.platform Sample.source
                (mkState cfg zero_stats Sample.tree []) in
  let folder_map :=
    [("audio", ["home"; "u"; "sub"; "music"]);
     ("misc", Sample.source ++ ["organized"; "Miscellaneous"])] in
  let r := organize_file Sample.platform
             (Sample.source ++ ["sub"; "deep"; "a.mp3"]) folder_map
             (fst made) in
  relative_names (rules cfg) = false
  /\ snd made = inr folder_map
  /\ snd r = inr tt
  /\ FS.lookup (fs (fst r))
               ["home"; "u"; "sub"; "music"; "1970-01"; "a.mp3"]
     = Some (File 5 "x").
Proof. cbv zeta. repeat split; vm_compute; reflexivity. Qed.

(** ** The counters *)

Lemma counters_idle_refl st : counters_idle st st.
Proof. repeat split. Qed.

Lemma counters_idle_trans a b c :
  counters_idle a b -> counters_idle b c -> counters_idle a c.
Proof.
  intros (Hc1 & Hm1 & Hd1) (Hc2 & Hm2 & Hd2). repeat split; try congruence.
  intros Hdry. rewrite Hd2, Hd1; congruence.
Qed.

Lemma moves_tally_refl st : moves_tally st st.
Proof. repeat split. Qed.

Lemma moves_tally_trans a b c :
  moves_tally a b -> moves_tally b c -> moves_tally a c.
Proof.
  intros (Hc1 & Hd1 & Hdry1 & Hlive1) (Hc2 & Hd2 & Hdry2 & Hlive2).
  repeat split; try congruence.
  - intros Hdry. rewrite Hdry2, Hdry1; congruence.
  - intros Hlive. specialize (Hlive1 Hlive).
    assert (Hlive' : dry_run (config b) = false) by congruence.
    specialize (Hlive2 Hlive'). lia.
Qed.

Ltac idle :=
  flags; unfold counters_idle; simpl;
  repeat split; try reflexivity; intros; congruence.

Lemma mkdir_counted_idle mk now p st :
  counters_idle st
    (fst (when (negb (dry_run (config st)))
               (fs_op (FS.alter mk now (FS.make_dir now) p);;;
                incr_directories_created) st)).
Proof. unfold_m. repeat (case_step; simpl); idle. Qed.

Lemma mkdir_uncounted_idle mk now p st :
  counters_idle st
    (fst (when (negb (dry_run (config st)))
               (fs_op (FS.alter mk now (FS.make_dir now) p)) st)).
Proof. unfold_m. repeat (case_step; simpl); idle. Qed.

Lemma create_subfolders_idle os category category_path subs :
  forall folder_map st,
    counters_idle st
      (fst (create_subfolders os category category_path subs folder_map st)).
Proof.
  induction subs as [|[subfolder patterns] rest IH]; intros folder_map st; simpl.
  - apply counters_idle_refl.
  - apply bind_step; [exact counters_idle_trans | apply counters_idle_refl |].
    intros cfg st' [= <- <-].
    apply bind_step; [exact counters_idle_trans | apply mkdir_counted_idle |].
    intros _ st' _. apply IH.
Qed.

Lemma create_categories_idle os organized_path rs :
  forall folder_map st,
    counters_idle st
      (fst (create_categories os organized_path rs folder_map st)).
Proof.
  induction rs as [|[category r] rest IH]; intros folder_map st; simpl.
  - apply counters_idle_refl.
  - apply bind_step; [exact counters_idle_trans | apply counters_idle_refl |].
    intros cfg st' [= <- <-].
    apply bind_step; [exact counters_idle_trans | apply mkdir_counted_idle |].
    intros _ st' _.
    apply bind_step; [exact counters_idle_trans | | intros; apply IH].
    destruct (subfolders r);
      [apply create_subfolders_idle | apply counters_idle_refl].
Qed.

Lemma create_organized_structure_idle os base_path st :
  counters_idle st (fst (create_organized_structure os base_path st)).
Proof.
  unfold create_organized_structure.
  apply bind_step; [exact counters_idle_trans | apply counters_idle_refl |].
  intros cfg st' [= <- <-].
  apply bind_step; [exact counters_idle_trans | apply create_categories_idle |].
  intros folder_map st' _.
  apply bind_step; [exact counters_idle_trans | apply counters_idle_refl |].
  intros cfg' st'' [= <- <-].
  apply bind_step; [exact counters_idle_trans | apply mkdir_uncounted_idle |].
  intros _ st'' _. apply counters_idle_refl.
Qed.

(** [destination_folder] changes nothing but the file system. *)
Lemma destination_folder_stats os file_path folder_map st :
  let st1 := fst (destination_folder os file_path folder_map st) in
  config st1 = config st /\ stats st1 = stats st /\ console st1 = console st.
Proof.
  cbv zeta. unfold destination_folder. unfold_m.
  repeat (case_step; simpl); repeat split.
Qed.

(** What [organize_file] does to the counters: [files_moved] is one more
    exactly when it completes in a live run; the others are as before. *)
Lemma organize_file_counters os file_path folder_map st :
  let r := organize_file os file_path folder_map st in
  config (fst r) = config st
  /\ files_processed (stats (fst r)) = files_processed (stats st)
  /\ errors (stats (fst r)) = errors (stats st)
  /\ directories_created (stats (fst r)) = directories_created (stats st)
  /\ files_moved (stats (fst r))
     = match snd r with
       | inr _ => if dry_run (config st) then files_moved (stats st)
                  else S (files_moved (stats st))
       | inl _ => files_moved (stats st)
       end.
Proof.
  cbv zeta.
  pose proof (destination_folder_stats os file_path folder_map st)
    as (Hc & Hs & _). cbv zeta in Hc, Hs.
  unfold organize_file. unfold_m.
  destruct (destination_folder os file_path folder_map st)
    as [st1 [e|dest_folder]]; simpl in Hc, Hs.
  - simpl. rewrite Hs. repeat split; assumption.
  - rewrite Hc.
    repeat (case_step; simpl); flags; rewrite ?Hs;
      repeat split; try assumption; try reflexivity; congruence.
Qed.

(** One turn of the file loop keeps the tally. *)
Lemma process_one_tally os file_path folder_map st :
  moves_tally st
    (fst (try_except
            (organize_file os file_path folder_map;;; incr_files_processed)
            (fun e => print (MsgFileError (PurePath.name file_path) e);;;
                      incr_errors) st)).
Proof.
  pose proof (organize_file_counters os file_path folder_map st)
    as (Hc & Hp & He & Hd & Hm). cbv zeta in *.
  unfold_m.
  destruct (organize_file os file_path folder_map st) as [st1 [e|[]]];
    unfold moves_tally; simpl in *; repeat split; try assumption;
    intros Hdry; try rewrite Hdry in Hm; lia.
Qed.

Lemma process_files_tally os files_to_process folder_map :
  forall st,
    moves_tally st (fst (process_files os files_to_process folder_map st)).
Proof.
  induction files_to_process as [|file_path rest IH]; intros st; simpl.
  - apply moves_tally_refl.
  - apply bind_step; [exact moves_tally_trans | apply process_one_tally |].
    intros _ st' _. apply IH.
Qed.

Lemma run_tally_refl st : run_tally st st.
Proof. repeat split. Qed.

Lemma run_tally_trans a b c : run_tally a b -> run_tally b c -> run_tally a c.
Proof.
  intros (Hc1 & Hdry1 & Hlive1) (Hc2 & Hdry2 & Hlive2).
  split; [congruence|]. split.
  - intros Hdry. destruct (Hdry1 Hdry) as [Hm1 Hd1].
    assert (Hdry' : dry_run (config b) = true) by congruence.
    destruct (Hdry2 Hdry') as [Hm2 Hd2]. split; congruence.
  - intros Hlive. specialize (Hlive1 Hlive).
    assert (Hlive' : dry_run (config b) = false) by congruence.
    specialize (Hlive2 Hlive'). lia.
Qed.

Lemma idle_quiet_tally a b : counters_idle a b -> quiet a b -> run_tally a b.
Proof.
  intros (Hc & Hm & Hd) (_ & Hp & _ & _). split; [exact Hc|]. split.
  - intros Hdry. split; [exact Hm | exact (Hd Hdry)].
  - intros _. lia.
Qed.

Lemma moves_run_tally a b : moves_tally a b -> run_tally a b.
Proof.
  intros (Hc & Hd & Hdry & Hlive). split; [exact Hc|]. split.
  - intros H. split; [exact (Hdry H) | exact Hd].
  - exact Hlive.
Qed.

Lemma same_stats_tally st out :
  run_tally st (mkState (config st) (stats st) (fs st) out).
Proof. repeat split. Qed.

Lemma organize_directory_tally os source recursive st :
  run_tally st (fst (organize_directory os source recursive st)).
Proof.
  unfold organize_directory.
  apply bind_step; [exact run_tally_trans | apply run_tally_refl |].
  intros tree st' [= <- <-].
  destruct (negb (FS.path_exists (fs st) source)).
  - unfold_m. simpl. apply same_stats_tally.
  - apply bind_step; [exact run_tally_trans | apply run_tally_refl |].
    intros cfg st' [= <- <-].
    apply bind_step;
      [exact run_tally_trans | unfold_m; simpl; apply same_stats_tally |].
    intros _ st1 _.
    apply bind_step; [exact run_tally_trans | |].
    { apply idle_quiet_tally;
        [apply create_organized_structure_idle
        | apply settled_quiet, create_organized_structure_settled]. }
    intros folder_map st2 _.
    apply bind_step;
      [exact run_tally_trans
      | rewrite gather_same_state; apply run_tally_refl |].
    intros files_to_process st3 _.
    apply bind_step;
      [exact run_tally_trans | apply moves_run_tally, process_files_tally |].
    intros _ st4 _.
    unfold_m. simpl. apply same_stats_tally.
Qed.

(** X3. In a dry run [organize_directory] leaves [files_moved] and
    [directories_created] as they were, whatever it finds: the summary of
    a dry run reports no file moved and no directory created. *)
Theorem dry_run_counts_nothing os source recursive st :
  dry_run (config st) = true ->
  let st' := fst (organize_directory os source recursive st) in
  files_moved (stats st') = files_moved (stats st)
  /\ directories_created (stats st') = directories_created (stats st).
Proof.
  intros Hdry. apply (organize_directory_tally os source recursive st), Hdry.
Qed.

Lemma dry_run_counts_nothing_witness :
  let st' := fst (organize_directory Sample.platform Sample.source true
                                     Sample.dry) in
  files_processed (stats st') = 3
  /\ files_moved (stats st') = 0
  /\ directories_created (stats st') = 0.
Proof.
  cbv zeta. split; [vm_compute; reflexivity|].
  apply (dry_run_counts_nothing Sample.platform Sample.source true Sample.dry).
  reflexivity.
Defined.

(** X4. In a live run [organize_directory] adds to [files_moved] exactly
    what it adds to [files_processed]: every file counted as processed
    was copied or moved, and no file that failed was. From the zero
    counters of a new organizer the two are equal. *)
Theorem live_run_moves_what_it_processes os source recursive st :
  dry_run (config st) = false ->
  let st' := fst (organize_directory os source recursive st) in
  files_moved (stats st') + files_processed (stats st)
  = files_moved (stats st) + files_processed (stats st')
  /\ (stats st = zero_stats ->
      files_moved (stats st') = files_processed (stats st')).
Proof.
  intros Hlive. cbv zeta.
  pose proof (organize_directory_tally os source recursive st)
    as (_ & _ & H).
  specialize (H Hlive). split; [exact H|].
  intros Hz. rewrite Hz in H. simpl in H. lia.
Qed.

Lemma live_run_moves_what_it_processes_witness :
  let st' := fst (organize_directory Sample.platform Sample.source true
                                     Sample.live) in
  errors (stats st') = 1
  /\ files_moved (stats st') = files_processed (stats st').
Proof.
  cbv zeta. split; [vm_compute; reflexivity|].
  apply (live_run_moves_what_it_processes Sample.platform Sample.source true
           Sample.live); reflexivity.
Defined.

(** One counted [mkdir] of a live run that goes through adds one to
    [directories_created]. *)
Lemma mkdir_counted_live mk now p st st' :
  dry_run (config st) = false ->
  when (negb (dry_run (config st)))
       (fs_op (FS.alter mk now (FS.make_dir now) p);;;
        incr_directories_created) st = (st', inr tt) ->
  directories_created (stats st') = S (directories_created (stats st))
  /\ config st' = config st.
Proof.
  intros Hdry. rewrite Hdry. unfold_m. simpl.
  destruct (FS.alter mk now (FS.make_dir now) p (fs st)); simpl;
    [discriminate|].
  intros [= <-]. split; reflexivity.
Qed.

Lemma create_subfolders_count os category category_path subs :
  forall folder_map st st' folder_map',
    dry_run (config st) = false ->
    create_subfolders os category category_path subs folder_map st
    = (st', inr folder_map') ->
    directories_created (stats st')
    = directories_created (stats st) + List.length subs
    /\ config st' = config st.
Proof.
  induction subs as [|[subfolder patterns] rest IH];
    intros folder_map st st' folder_map' Hdry H; simpl in H.
  - injection H as <- <-. split; [simpl; lia | reflexivity].
  - unfold bind at 1 in H. unfold get_config at 1 in H. cbv beta iota in H.
    unfold bind at 1 in H.
    destruct (when _ _ st) as [s1 [e|[]]] eqn:Hstep; [discriminate|].
    destruct (mkdir_counted_live _ _ _ _ _ Hdry Hstep) as [Hn Hc].
    apply IH in H; [|congruence]. destruct H as [Hn' Hc'].
    split; [simpl; lia | congruence].
Qed.

Lemma create_categories_count os organized_path rs :
  forall folder_map st st' folder_map',
    dry_run (config st) = false ->
    create_categories os organized_path rs folder_map st
    = (st', inr folder_map') ->
    directories_created (stats st')
    = directories_created (stats st) + structure_size rs
    /\ config st' = config st.
Proof.
  induction rs as [|[category r] rest IH];
    intros folder_map st st' folder_map' Hdry H; simpl in H.
  - injection H as <- <-. split; [simpl; lia | reflexivity].
  - unfold bind at 1 in H. unfold get_config at 1 in H. cbv beta iota in H.
    unfold bind at 1 in H.
    destruct (when _ _ st) as [s1 [e|[]]] eqn:Hstep; [discriminate|].
    destruct (mkdir_counted_live _ _ _ _ _ Hdry Hstep) as [Hn Hc].
    assert (Hdry1 : dry_run (config s1) = false) by congruence.
    unfold bind at 1 in H. simpl structure_size.
    destruct (subfolders r) as [subs|].
    + destruct (create_subfolders os category _ subs _ s1)
        as [s2 [e|fm2]] eqn:Hsub; [discriminate|].
      destruct (create_subfolders_count _ _ _ _ _ _ _ _ Hdry1 Hsub)
        as [Hn2 Hc2].
      apply IH in H; [|congruence]. destruct H as [Hn' Hc'].
      split; [lia | congruence].
    + simpl in H. apply IH in H; [|exact Hdry1]. destruct H as [Hn' Hc'].
      split; [lia | congruence].
Qed.

(** X5. A live [create_organized_structure] that completes adds to
    [directories_created] one for each category and one for each
    subfolder of the rule table, whether or not the directory was already
    there, and nothing for the [Miscellaneous] folder; every folder of
    the map it returns is then a directory, and every regular file is as
    before. *)
Theorem live_structure_is_made_and_counted os base_path st st' folder_map :
  dry_run (config st) = false ->
  create_organized_structure os base_path st = (st', inr folder_map) ->
  directories_created (stats st')
  = directories_created (stats st) + structure_size (rules (config st))
  /\ all_dirs (fs st') folder_map
  /\ files_kept None st st'.
Proof.
  intros Hdry H. split; [|split].
  - unfold create_organized_structure in H.
    unfold bind at 1 in H. unfold get_config at 1 in H. cbv beta iota in H.
    unfold bind at 1 in H.
    destruct (create_categories os _ (rules (config st)) [] st)
      as [s1 [e|fm1]] eqn:Hcat; [discriminate|].
    destruct (create_categories_count _ _ _ _ _ _ _ Hdry Hcat) as [Hn Hc].
    revert H. unfold_m. rewrite Hc, Hdry. simpl.
    destruct (FS.mkdir_parents _ _ (fs s1)); simpl; [discriminate|].
    intros [= <- _]. simpl. exact Hn.
  - apply (create_organized_structure_live _ _ _ _ _ Hdry H).
  - pose proof (create_organized_structure_settled os base_path st)
      as (_ & Hk & _).
    rewrite H in Hk. exact Hk.
Qed.

Lemma live_structure_is_made_and_counted_witness :
  directories_created
    (stats (fst (create_organized_structure Sample.platform Sample.source
                                            Sample.live))) = 20
  /\ FS.is_dir (fs (fst (create_organized_structure Sample.platform
                           Sample.source Sample.live)))
               (Sample.source ++ ["organized"; "Documents"; "text_files"])
     = true.
Proof.
  assert (Hmap : create_organized_structure Sample.platform Sample.source
                                            Sample.live
                 = (fst (create_organized_structure Sample.platform
                           Sample.source Sample.live),
                    inr Sample.folder_map)) by (vm_compute; reflexivity).
  destruct (live_structure_is_made_and_counted Sample.platform Sample.source
              Sample.live _ Sample.folder_map eq_refl Hmap)
    as (Hn & Hdirs & _).
  split; [exact Hn|].
  apply (dict_get_Forall _ "documents_text_files" _ _ Hdirs).
  vm_compute. reflexivity.
Defined.

(** ** Running the structure creation again *)

Lemma set_entry_same_value x v es :
  FS.assoc x es = Some v -> FS.set_entry x v es = es.
Proof.
  induction es as [|[k w] es IH]; simpl; [discriminate|].
  destruct (String.eqb_spec x k) as [->|Hne].
  - now intros [= ->].
  - intros H. now rewrite IH.
Qed.

Lemma alter_from_existing_dir mk now p o m es :
  FS.lookup_from p o = Some (Dir m es) ->
  FS.alter_from mk now (FS.make_dir now) p o = inr o.
Proof.
  revert o. induction p as [|x p IH]; intros o H; simpl in *.
  - subst o. reflexivity.
  - destruct o as [[fm fd|dm des]|]; try discriminate.
    rewrite (IH _ H).
    destruct (FS.assoc x des) as [v|] eqn:Hx.
    + simpl. now rewrite (set_entry_same_value _ _ _ Hx).
    + now rewrite lookup_from_None in H.
Qed.

(** [mkdir] of a directory that exists changes nothing. *)
Lemma make_dir_existing mk now p fs :
  FS.is_dir fs p = true ->
  FS.alter mk now (FS.make_dir now) p fs = inr fs.
Proof.
  unfold FS.is_dir, FS.alter, FS.lookup. intros H.
  destruct (FS.lookup_from p (Some fs)) as [[fm fd|m es]|] eqn:Hp;
    try discriminate.
  now rewrite (alter_from_existing_dir mk now p _ m es Hp).
Qed.

Lemma mkdir_counted_existing mk now p st :
  dry_run (config st) = false ->
  FS.is_dir (fs st) p = true ->
  exists st',
    when (negb (dry_run (config st)))
         (fs_op (FS.alter mk now (FS.make_dir now) p);;;
          incr_directories_created) st = (st', inr tt)
    /\ fs st' = fs st /\ config st' = config st.
Proof.
  intros Hdry Hdir. rewrite Hdry. unfold_m. simpl.
  rewrite (make_dir_existing mk now p (fs st) Hdir). simpl.
  eexists. split; [reflexivity|]. split; reflexivity.
Qed.

Lemma create_subfolders_existing os category category_path subs :
  forall folder_map st,
    dry_run (config st) = false ->
    Forall (fun p => FS.is_dir (fs st) p = true)
           (map (fun sp => PurePath.truediv category_path (fst sp)) subs) ->
    exists st',
      create_subfolders os category category_path subs folder_map st
      = (st', inr (subfolder_entries category category_path subs folder_map))
      /\ fs st' = fs st /\ config st' = config st.
Proof.
  induction subs as [|[subfolder patterns] rest IH];
    intros folder_map st Hdry Hall; simpl.
  - exists st. repeat split.
  - inversion Hall as [|? ? Hhere Hrest]; subst. simpl in Hhere.
    destruct (mkdir_counted_existing false (time_now os)
                (PurePath.truediv category_path subfolder) st Hdry Hhere)
      as (s1 & Hstep & Hfs1 & Hc1).
    assert (Hstep' :
      when (negb (dry_run (config st)))
           (fs_op (FS.mkdir (time_now os)
                            (PurePath.truediv category_path subfolder));;;
            incr_directories_created) st = (s1, inr tt)) by exact Hstep.
    unfold bind at 1. unfold get_config at 1. cbv beta iota.
    unfold bind at 1. rewrite Hstep'.
    destruct (IH (Dict.set (category +++ "_" +++ subfolder)
                           (PurePath.truediv category_path subfolder) folder_map)
                 s1) as (s2 & Hrun & Hfs2 & Hc2).
    + congruence.
    + rewrite Hfs1. exact Hrest.
    + exists s2. split; [exact Hrun|]. split; congruence.
Qed.

Lemma create_categories_existing os organized_path rs :
  forall folder_map st,
    dry_run (config st) = false ->
    Forall (fun p => FS.is_dir (fs st) p = true)
           (category_paths organized_path rs) ->
    exists st',
      create_categories os organized_path rs folder_map st
      = (st', inr (category_entries organized_path rs folder_map))
      /\ fs st' = fs st /\ config st' = config st.
Proof.
  induction rs as [|[category r] rest IH];
    intros folder_map st Hdry Hall; simpl.
  - exists st. repeat split.
  - unfold category_paths in Hall. simpl in Hall.
    inversion Hall as [|? ? Hhere Hrest]; subst.
    apply Forall_app in Hrest as [Hsubs Hrest].
    destruct (mkdir_counted_existing true (time_now os)
                (PurePath.truediv organized_path (folder r)) st Hdry Hhere)
      as (s1 & Hstep & Hfs1 & Hc1).
    assert (Hstep' :
      when (negb (dry_run (config st)))
           (fs_op (FS.mkdir_parents (time_now os)
                                    (PurePath.truediv organized_path (folder r)));;;
            incr_directories_created) st = (s1, inr tt)) by exact Hstep.
    unfold bind at 1. unfold get_config at 1. cbv beta iota.
    unfold bind at 1. rewrite Hstep'.
    assert (Hdry1 : dry_run (config s1) = false) by congruence.
    unfold bind at 1.
    destruct (subfolders r) as [subs|].
    + destruct (create_subfolders_existing os category
                  (PurePath.truediv organized_path (folder r)) subs
                  (Dict.set category (PurePath.truediv organized_path (folder r))
                            folder_map) s1 Hdry1)
        as (s2 & Hsub & Hfs2 & Hc2).
      { rewrite Hfs1. exact Hsubs. }
      rewrite Hsub.
      destruct (IH (subfolder_entries category
                      (PurePath.truediv organized_path (folder r)) subs
                      (Dict.set category
                                (PurePath.truediv organized_path (folder r))
                                folder_map)) s2)
        as (s3 & Hrun & Hfs3 & Hc3).
      * congruence.
      * rewrite Hfs2, Hfs1. exact Hrest.
      * exists s3. split; [exact Hrun|]. split; congruence.
    + unfold ret at 1. cbv beta iota.
      destruct (IH (Dict.set category (PurePath.truediv organized_path (folder r))
                             folder_map) s1)
        as (s3 & Hrun & Hfs3 & Hc3).
      * exact Hdry1.
      * rewrite Hfs1. exact Hrest.
      * exists s3. split; [exact Hrun|]. split; congruence.
Qed.

(** When every directory of the structure is there, a live
    [create_organized_structure] completes and leaves the file system as
    it is. *)
Lemma create_organized_structure_existing os base_path st :
  dry_run (config st) = false ->
  Forall (fun p => FS.is_dir (fs st) p = true)
         (structure_paths (config st) base_path) ->
  exists st',
    create_organized_structure os base_path st
    = (st', inr (folder_map_of (config st) base_path))
    /\ fs st' = fs st /\ config st' = config st.
Proof.
  intros Hdry Hall. unfold structure_paths in Hall.
  apply Forall_app in Hall as [Hcats Hmisc].
  inversion Hmisc as [|? ? Hm _]; subst.
  destruct (create_categories_existing os (PurePath.div base_path "organized")
              (rules (config st)) [] st Hdry Hcats)
    as (s1 & Hrun & Hfs1 & Hc1).
  unfold create_organized_structure.
  unfold bind at 1. unfold get_config at 1. cbv beta iota.
  unfold bind at 1. rewrite Hrun.
  unfold_m. rewrite Hc1, Hdry. simpl. unfold FS.mkdir_parents.
  rewrite make_dir_existing by (rewrite Hfs1; exact Hm). simpl.
  eexists. split; [reflexivity|]. simpl. split; [exact Hfs1 | exact Hc1].
Qed.

Lemma mkdir_counted_live_dir mk now p st st' :
  dry_run (config st) = false ->
  when (negb (dry_run (config st)))
       (fs_op (FS.alter mk now (FS.make_dir now) p);;;
        incr_directories_created) st = (st', inr tt) ->
  FS.is_dir (fs st') p = true /\ config st' = config st.
Proof.
  intros Hdry. rewrite Hdry. unfold_m. simpl.
  destruct (FS.alter mk now (FS.make_dir now) p (fs st)) eqn:Hmk; simpl;
    [discriminate|].
  intros [= <-]. simpl. split; [|reflexivity].
  eapply make_dir_is_dir. exact Hmk.
Qed.

Lemma Forall_dirs_kept st st' (l : list Path) :
  dirs_kept st st' ->
  Forall (fun p => FS.is_dir (fs st) p = true) l ->
  Forall (fun p => FS.is_dir (fs st') p = true) l.
Proof.
  intros Hk H. rewrite Forall_forall in *. intros p Hin. apply Hk, H, Hin.
Qed.

Lemma create_subfolders_paths os category category_path subs :
  forall folder_map st st' folder_map',
    dry_run (config st) = false ->
    create_subfolders os category category_path subs folder_map st
    = (st', inr folder_map') ->
    Forall (fun p => FS.is_dir (fs st') p = true)
           (map (fun sp => PurePath.truediv category_path (fst sp)) subs).
Proof.
  induction subs as [|[subfolder patterns] rest IH];
    intros folder_map st st' folder_map' Hdry H; simpl in *; [constructor|].
  unfold bind at 1 in H. unfold get_config at 1 in H. cbv beta iota in H.
  unfold bind at 1 in H.
  destruct (when _ _ st) as [s1 [e|[]]] eqn:Hstep; [discriminate|].
  destruct (mkdir_counted_live_dir false _ _ _ _ Hdry Hstep) as [Hdir Hc].
  assert (Hk : dirs_kept s1 st').
  { match type of H with
    | create_subfolders ?a ?b ?c ?d ?e ?f = _ =>
        pose proof (create_subfolders_settled a b c d e f) as (_ & _ & Hk)
    end.
    rewrite H in Hk. exact Hk. }
  constructor; [apply Hk, Hdir|].
  eapply IH; [|exact H]. congruence.
Qed.

Lemma create_categories_paths os organized_path rs :
  forall folder_map st st' folder_map',
    dry_run (config st) = false ->
    create_categories os organized_path rs folder_map st
    = (st', inr folder_map') ->
    Forall (fun p => FS.is_dir (fs st') p = true)
           (category_paths organized_path rs).
Proof.
  induction rs as [|[category r] rest IH];
    intros folder_map st st' folder_map' Hdry H; simpl in H; [constructor|].
  unfold bind at 1 in H. unfold get_config at 1 in H. cbv beta iota in H.
  unfold bind at 1 in H.
  destruct (when _ _ st) as [s1 [e|[]]] eqn:Hstep; [discriminate|].
  destruct (mkdir_counted_live_dir true _ _ _ _ Hdry Hstep) as [Hdir Hc].
  assert (Hdry1 : dry_run (config s1) = false) by congruence.
  unfold bind at 1 in H.
  change (category_paths organized_path ((category, r) :: rest))
    with ((PurePath.truediv organized_path (folder r)
           :: match subfolders r with
              | Some subs =>
                  map (fun sp => PurePath.truediv
                                   (PurePath.truediv organized_path (folder r))
                                   (fst sp)) subs
              | None => []
              end)
          ++ category_paths organized_path rest).
  destruct (subfolders r) as [subs|].
  - pose proof (create_subfolders_settled os category
                  (PurePath.truediv organized_path (folder r)) subs
                  (Dict.set category (PurePath.truediv organized_path (folder r))
                            folder_map) s1) as ((Hc2 & _) & _ & Hk2).
    destruct (create_subfolders os category _ subs _ s1)
      as [s2 [e|fm2]] eqn:Hsub; [discriminate|].
    simpl in Hc2, Hk2.
    pose proof (create_subfolders_paths _ _ _ _ _ _ _ _ Hdry1 Hsub) as Hsubs.
    pose proof (create_categories_settled os organized_path rest fm2 s2)
      as (_ & _ & Hk3).
    rewrite H in Hk3. simpl in Hk3.
    apply Forall_app. split.
    + constructor; [apply Hk3, Hk2, Hdir|].
      eapply Forall_dirs_kept; [exact Hk3 | exact Hsubs].
    + eapply IH; [|exact H]. congruence.
  - simpl in H.
    pose proof (create_categories_settled os organized_path rest
                  (Dict.set category (PurePath.truediv organized_path (folder r))
                            folder_map) s1) as (_ & _ & Hk3).
    rewrite H in Hk3. simpl in Hk3.
    apply Forall_app. split.
    + constructor; [apply Hk3, Hdir | constructor].
    + eapply IH; [|exact H]. exact Hdry1.
Qed.

(** After a live [create_organized_structure] that completes, every
    directory of the structure is there. *)
Lemma create_organized_structure_paths os base_path st st' folder_map :
  dry_run (config st) = false ->
  create_organized_structure os base_path st = (st', inr folder_map) ->
  Forall (fun p => FS.is_dir (fs st') p = true)
         (structure_paths (config st) base_path).
Proof.
  intros Hdry H. unfold create_organized_structure in H.
  unfold bind at 1 in H. unfold get_config at 1 in H. cbv beta iota in H.
  unfold bind at 1 in H.
  pose proof (create_categories_settled os (PurePath.div base_path "organized")
                (rules (config st)) [] st) as ((Hc1 & _) & _).
  destruct (create_categories os _ (rules (config st)) [] st)
    as [s1 [e|fm1]] eqn:Hcat; [discriminate|].
  simpl in Hc1.
  pose proof (create_categories_paths _ _ _ _ _ _ _ Hdry Hcat) as Hcats.
  revert H. unfold_m. rewrite Hc1, Hdry. simpl.
  destruct (FS.mkdir_parents _ _ (fs s1)) as [e|n] eqn:Hmk; simpl;
    [discriminate|].
  intros [= <- _]. simpl. unfold structure_paths. apply Forall_app. split.
  - rewrite Forall_forall in *. intros p Hin.
    eapply make_dir_keeps_dir; [apply Hcats, Hin | exact Hmk].
  - constructor; [|constructor]. eapply make_dir_is_dir. exact Hmk.
Qed.

(** X6. Creating the organized structure a second time changes nothing
    in the file system: after a live [create_organized_structure] that
    completed, a second one from the state it left completes too, returns
    the same map and leaves the file system as the first one left it. *)
Theorem structure_creation_is_idempotent os base_path st st1 folder_map :
  dry_run (config st) = false ->
  create_organized_structure os base_path st = (st1, inr folder_map) ->
  exists st2,
    create_organized_structure os base_path st1 = (st2, inr folder_map)
    /\ fs st2 = fs st1.
Proof.
  intros Hdry H.
  pose proof (create_organized_structure_paths _ _ _ _ _ Hdry H) as Hpaths.
  pose proof (create_organized_structure_map _ _ _ _ _ H) as Hmap.
  pose proof (create_organized_structure_settled os base_path st)
    as ((Hc & _) & _).
  rewrite H in Hc. simpl in Hc.
  destruct (create_organized_structure_existing os base_path st1)
    as (st2 & Hrun & Hfs & _).
  - congruence.
  - rewrite Hc. exact Hpaths.
  - exists st2. split; [|exact Hfs]. rewrite Hrun, Hc, Hmap. reflexivity.
Qed.

Lemma structure_creation_is_idempotent_witness :
  let st1 := fst (create_organized_structure Sample.platform Sample.source
                                             Sample.live) in
  FS.path_exists (fs Sample.live) (Sample.source ++ ["organized"; "Images"])
  = false
  /\ exists st2,
       create_organized_structure Sample.platform Sample.source st1
       = (st2, inr Sample.folder_map)
       /\ fs st2 = fs st1.
Proof.
  cbv zeta. split; [vm_compute; reflexivity|].
  apply (structure_creation_is_idempotent Sample.platform Sample.source
           Sample.live); [reflexivity | vm_compute; reflexivity].
Defined.

(** ** Copying and moving *)

Lemma keeps_all_files_refl st : keeps_all_files st st.
Proof. split; [reflexivity | apply files_kept_refl]. Qed.

Lemma keeps_all_files_trans a b c :
  keeps_all_files a b -> keeps_all_files b c -> keeps_all_files a c.
Proof.
  intros [Hc1 Hk1] [Hc2 Hk2].
  split; [congruence | eapply files_kept_trans; eassumption].
Qed.

Lemma settled_keeps_all_files a b : settled a b -> keeps_all_files a b.
Proof. intros ((Hc & _) & Hk & _). split; assumption. Qed.

Lemma same_fs_keeps_all_files st s out :
  keeps_all_files st (mkState (config st) s (fs st) out).
Proof. split; [reflexivity | intros q m d _ H; exact H]. Qed.

(** With [backup_enabled], [organize_file] keeps every regular file,
    whatever its outcome. *)
Lemma organize_file_copy_keeps os file_path folder_map st :
  backup_enabled (config st) = true ->
  keeps_all_files st (fst (organize_file os file_path folder_map st)).
Proof.
  intros Hbackup. unfold organize_file.
  apply bind_step;
    [exact keeps_all_files_trans
    | apply settled_keeps_all_files, destination_folder_settled |].
  intros dest_folder st1 Hdest.
  pose proof (destination_folder_stats os file_path folder_map st)
    as (Hc & _). cbv zeta in Hc. rewrite Hdest in Hc. simpl in Hc.
  pose proof (resolve_conflict_fresh (fs st1) dest_folder file_path) as Hfresh.
  unfold_m. rewrite Hc, Hbackup.
  repeat (case_step; simpl);
    try apply same_fs_keeps_all_files; try apply keeps_all_files_refl;
    (split; [reflexivity|]); intros q m d _ Hq; simpl;
    match goal with H : FS.copy2 _ _ _ = inr _ |- _ =>
      apply (proj2 (copy2_fresh _ _ _ _ Hfresh H)); exact Hq end.
Qed.

Lemma process_files_copy_keeps os files_to_process folder_map :
  forall st,
    backup_enabled (config st) = true ->
    keeps_all_files st (fst (process_files os files_to_process folder_map st)).
Proof.
  induction files_to_process as [|file_path rest IH]; intros st Hbackup; simpl.
  - apply keeps_all_files_refl.
  - assert (Hstep : keeps_all_files st
      (fst (try_except
              (organize_file os file_path folder_map;;; incr_files_processed)
              (fun e => print (MsgFileError (PurePath.name file_path) e);;;
                        incr_errors) st))).
    { pose proof (organize_file_copy_keeps os file_path folder_map st Hbackup)
        as [Hc Hk].
      unfold_m.
      destruct (organize_file os file_path folder_map st) as [st1 [e|[]]];
        simpl in *; split; simpl; assumption. }
    apply bind_step; [exact keeps_all_files_trans | exact Hstep |].
    intros u st' Heq. apply IH.
    destruct Hstep as [Hc _]. rewrite Heq in Hc. simpl in Hc. congruence.
Qed.

(** X7. With [backup_enabled] (the default, which no command-line flag
    turns off), a run of [organize_directory] leaves every regular file
    that existed before it where it was, with its contents and time: the
    organizer only adds copies. *)
Theorem copy_mode_keeps_every_file os source recursive st :
  backup_enabled (config st) = true ->
  files_kept None st (fst (organize_directory os source recursive st)).
Proof.
  intros Hbackup.
  cut (keeps_all_files st (fst (organize_directory os source recursive st)));
    [intros [_ H]; exact H|].
  unfold organize_directory.
  apply bind_step;
    [exact keeps_all_files_trans | apply keeps_all_files_refl |].
  intros tree st' [= <- <-].
  destruct (negb (FS.path_exists (fs st) source)).
  - unfold_m. simpl. apply same_fs_keeps_all_files.
  - apply bind_step;
      [exact keeps_all_files_trans | apply keeps_all_files_refl |].
    intros cfg st' [= <- <-].
    apply bind_step;
      [exact keeps_all_files_trans
      | unfold_m; simpl; apply same_fs_keeps_all_files |].
    intros u st1' Hst1. unfold print in Hst1. injection Hst1 as <- _.
    set (st1 := mkState _ _ _ _).
    pose proof (create_organized_structure_settled os source st1)
      as Hsettled.
    apply bind_step;
      [exact keeps_all_files_trans
      | apply settled_keeps_all_files, Hsettled |].
    intros folder_map st2 Hst2.
    assert (Hb2 : backup_enabled (config st2) = true).
    { destruct Hsettled as ((Hc & _) & _). rewrite Hst2 in Hc.
      simpl in Hc. rewrite Hc. exact Hbackup. }
    apply bind_step;
      [exact keeps_all_files_trans
      | rewrite gather_same_state; apply keeps_all_files_refl |].
    intros files_to_process st3 Hst3.
    pose proof (gather_same_state os source recursive st2) as Hg.
    rewrite Hst3 in Hg. simpl in Hg. subst st3.
    apply bind_step;
      [exact keeps_all_files_trans
      | apply process_files_copy_keeps, Hb2 |].
    intros _ st4 _. simpl. apply same_fs_keeps_all_files.
Qed.

Lemma copy_mode_keeps_every_file_witness :
  FS.lookup (fs (fst (organize_directory Sample.platform Sample.source true
                                         Sample.live)))
            (Sample.source ++ ["notes.txt"])
  = Some (File 1700000000 "new").
Proof.
  apply (copy_mode_keeps_every_file Sample.platform Sample.source true
           Sample.live eq_refl (Sample.source ++ ["notes.txt"]));
    [discriminate | reflexivity].
Defined.

(** The file system [destination_folder] leaves is the one it found, or
    that one with the destination folder made in it. *)
Lemma destination_folder_fs os file_path folder_map st st1 dest_folder :
  destination_folder os file_path folder_map st = (st1, inr dest_folder) ->
  fs st1 = fs st
  \/ FS.mkdir (time_now os) dest_folder (fs st) = inr (fs st1).
Proof.
  unfold destination_folder. unfold_m.
  repeat (case_step; simpl); intros [= <- <-] || intros [=]; simpl; auto.
Qed.

Lemma destination_folder_below os file_path folder_map st st1 dest_folder nm :
  destination_folder os file_path folder_map st = (st1, inr dest_folder) ->
  FS.lookup (fs st1) (PurePath.div dest_folder nm)
  = FS.lookup (fs st) (PurePath.div dest_folder nm).
Proof.
  intros H. destruct (destination_folder_fs _ _ _ _ _ _ H) as [->|Hmk];
    [reflexivity|].
  eapply mkdir_below. exact Hmk.
Qed.

(** X8. A live [organize_file] of a regular file that completes puts the
    file, with its contents and time, at a path that did not exist before
    the call, and adds one to [files_moved]; with [backup_enabled] the
    source stays where it was, without it the source path is gone. *)
Theorem live_organize_file_outcome os file_path folder_map st st' m d :
  dry_run (config st) = false ->
  FS.lookup (fs st) file_path = Some (File m d) ->
  organize_file os file_path folder_map st = (st', inr tt) ->
  exists dest_path,
    FS.path_exists (fs st) dest_path = false
    /\ FS.lookup (fs st') dest_path = Some (File m d)
    /\ FS.lookup (fs st') file_path
       = (if backup_enabled (config st) then Some (File m d) else None)
    /\ files_moved (stats st') = S (files_moved (stats st)).
Proof.
  intros Hlive Hfile Hrun.
  pose proof (organize_file_counters os file_path folder_map st)
    as (_ & _ & _ & _ & Hmoved).
  cbv zeta in Hmoved. rewrite Hrun, Hlive in Hmoved. simpl in Hmoved.
  pose proof (destination_folder_settled os file_path folder_map st)
    as (_ & Hkept & _).
  pose proof (destination_folder_stats os file_path folder_map st)
    as (Hc & _). cbv zeta in Hc.
  unfold organize_file in Hrun. unfold bind at 1 in Hrun.
  destruct (destination_folder os file_path folder_map st)
    as [st1 [e|dest_folder]] eqn:Hdest; [discriminate|].
  simpl in Hkept, Hc.
  assert (Hfile1 : FS.lookup (fs st1) file_path = Some (File m d))
    by (apply Hkept; [discriminate | exact Hfile]).
  destruct (resolve_conflict_is_loop (fs st1) dest_folder file_path)
    as (nm & Hres & _).
  pose proof (resolve_conflict_fresh (fs st1) dest_folder file_path) as Hfresh.
  rewrite Hres in Hfresh.
  exists (PurePath.div dest_folder nm).
  split.
  { unfold FS.path_exists in *.
    now rewrite <- (destination_folder_below _ _ _ _ _ _ nm Hdest). }
  revert Hrun. unfold_m. rewrite Hres, Hc, Hlive. simpl.
  destruct (PurePath.is_relative_to _ _); simpl; [|discriminate].
  destruct (backup_enabled (config st)); simpl.
  - destruct (FS.copy2 file_path (PurePath.div dest_folder nm) (fs st1))
      as [e|n] eqn:Hcp; simpl; [discriminate|].
    intros [= <-]. simpl.
    destruct (copy2_fresh _ _ _ _ Hfresh Hcp)
      as [(m' & d' & Hsrc & Hdst) Hall].
    repeat split; [congruence | apply Hall, Hfile1 | exact Hmoved].
  - destruct (FS.move file_path (PurePath.div dest_folder nm) (fs st1))
      as [e|n] eqn:Hmv; simpl; [discriminate|].
    intros [= <-]. simpl.
    destruct (move_fresh _ _ _ _ _ _ Hfresh Hfile1 Hmv) as (Hdst & Hgone & _).
    repeat split; [exact Hdst | exact Hgone | exact Hmoved].
Qed.

Lemma live_organize_file_outcome_witness :
  let st := fst (create_organized_structure Sample.platform Sample.source
                                            Sample.live) in
  let r := organize_file Sample.platform (Sample.source ++ ["sub"; "b.py"])
                         Sample.folder_map st in
  snd r = inr tt
  /\ exists dest_path,
       FS.path_exists (fs st) dest_path = false
       /\ FS.lookup (fs (fst r)) dest_path = Some (File 6 "y")
       /\ FS.lookup (fs (fst r)) (Sample.source ++ ["sub"; "b.py"])
          = Some (File 6 "y").
Proof.
  cbv zeta.
  set (st := fst (create_organized_structure Sample.platform Sample.source
                                             Sample.live)).
  set (r := organize_file Sample.platform (Sample.source ++ ["sub"; "b.py"])
                          Sample.folder_map st).
  assert (Hr : snd r = inr tt) by (vm_compute; reflexivity).
  split; [exact Hr|].
  assert (Hrun : organize_file Sample.platform
                   (Sample.source ++ ["sub"; "b.py"]) Sample.folder_map st
                 = (fst r, inr tt)).
  { fold r. destruct r as [s [e|[]]]; [discriminate | reflexivity]. }
  destruct (live_organize_file_outcome Sample.platform
              (Sample.source ++ ["sub"; "b.py"]) Sample.folder_map st (fst r)
              6%Z "y")
    as (dest_path & Hnew & Hdest & Hsrc & _);
    [vm_compute; reflexivity | vm_compute; reflexivity | exact Hrun |].
  exists dest_path. split; [exact Hnew|]. split; [exact Hdest|].
  exact Hsrc.
Defined.

(** ** Letter case in the ignore list *)

Lemma lower_ascii_not_upper c : is_upper (Str.lower_ascii c) = false.
Proof. destruct c as [[] [] [] [] [] [] [] []]; reflexivity. Qed.

(** The ASCII lower-casing leaves no ASCII upper-case letter. *)
Lemma ascii_lower_not_upper s : has_upper (Str.ascii_lower s) = false.
Proof.
  induction s as [|c s IH]; simpl; [reflexivity|].
  now rewrite lower_ascii_not_upper, IH.
Qed.

Lemma prefix_has_upper pat s :
  String.prefix pat s = true -> has_upper pat = true -> has_upper s = true.
Proof.
  revert s. induction pat as [|c pat IH]; intros s Hp Hu; simpl in *;
    [discriminate|].
  destruct s as [|x s]; simpl in Hp; [discriminate|].
  revert Hp. destruct (ascii_dec c x) as [->|]; intros Hp; [|discriminate].
  simpl. apply orb_true_iff in Hu as [Hu|Hu]; [now rewrite Hu|].
  rewrite (IH _ Hp Hu). apply orb_true_r.
Qed.

Lemma contains_has_upper pat s :
  Str.contains pat s = true -> has_upper pat = true -> has_upper s = true.
Proof.
  intros Hc Hu. induction s as [|x s IH].
  - destruct pat; simpl in *; discriminate.
  - rewrite contains_cons in Hc. apply orb_true_iff in Hc as [Hc|Hc].
    + eapply prefix_has_upper; eassumption.
    + simpl. rewrite (IH Hc). apply orb_true_r.
Qed.

(** X9. [should_ignore_folder] lower-cases the folder name and not the
    configured entries. As [str.lower] leaves no ASCII upper-case letter
    in its result, a folder is ignored only through an entry of
    [ignore_folders] without such a letter; when every entry has one, no
    folder is ignored, whatever its name; and an empty entry makes every
    folder ignored. *)
Theorem ignore_list_letter_case (lower : string -> string) (cfg : Config)
        (folder_name : string) :
  (forall s, has_upper (lower s) = false) ->
  (should_ignore_folder lower cfg folder_name = true ->
   exists ignore,
     In ignore (ignore_folders cfg)
     /\ has_upper ignore = false
     /\ Str.contains ignore (lower folder_name) = true)
  /\ (forallb has_upper (ignore_folders cfg) = true ->
      should_ignore_folder lower cfg folder_name = false)
  /\ (In "" (ignore_folders cfg) ->
      should_ignore_folder lower cfg folder_name = true).
Proof.
  intros Hlower.
  assert (Hfirst : should_ignore_folder lower cfg folder_name = true ->
                   exists ignore,
                     In ignore (ignore_folders cfg)
                     /\ has_upper ignore = false
                     /\ Str.contains ignore (lower folder_name) = true).
  { unfold should_ignore_folder.
    intros H. apply existsb_exists in H as (ignore & Hin & Hc).
    exists ignore. split; [exact Hin|]. split; [|exact Hc].
    destruct (has_upper ignore) eqn:Hu; [|reflexivity].
    pose proof (contains_has_upper _ _ Hc Hu) as Hl.
    now rewrite Hlower in Hl. }
  split; [exact Hfirst|]. split.
  - intros Hall.
    destruct (should_ignore_folder lower cfg folder_name) eqn:Hig;
      [|reflexivity].
    destruct (Hfirst eq_refl) as (ignore & Hin & Hu & _).
    rewrite forallb_forall in Hall. rewrite (Hall _ Hin) in Hu. discriminate.
  - intros Hin. unfold should_ignore_folder.
    apply existsb_exists. exists "". split; [exact Hin|].
    destruct (lower folder_name); reflexivity.
Qed.

Lemma ignore_list_letter_case_witness :
  let cfg := mkConfig (rules default_config) ["System"; "Windows"] true true
                      true in
  should_ignore_folder Str.ascii_lower cfg "System" = false.
Proof.
  cbv zeta.
  apply (ignore_list_letter_case Str.ascii_lower
           (mkConfig (rules default_config) ["System"; "Windows"] true true
                     true)
           "System" ascii_lower_not_upper).
  reflexivity.
Defined.

(** ** The configuration file *)

(** X10. [load_config] changes the file system in one case only: when
    the configuration file does not exist it writes it, with the dumped
    default configuration; otherwise, and whenever it raises, the file
    system is as it was. *)
Theorem load_config_writes_only_when_absent os config_file st :
  let r := load_config os config_file st in
  fs (fst r) = fs st
  \/ (FS.path_exists (fs st) config_file = false
      /\ snd r = inr tt
      /\ FS.write config_file
                  (File (time_now os) (json_dump os default_config)) (fs st)
         = inr (fs (fst r))).
Proof.
  cbv zeta. unfold load_config, save_config. unfold_m.
  destruct (FS.path_exists (fs st) config_file) eqn:Hex.
  - left. repeat (case_step; simpl); reflexivity.
  - simpl.
    destruct (FS.write config_file
                (File (time_now os) (json_dump os default_config)) (fs st))
      as [e|n] eqn:Hw; simpl; [left; reflexivity|].
    right. repeat split.
Qed.

(** X11. The configuration file written by a first construction is read
    back by the next one: when the file is absent and the constructor
    completes, and the JSON reader reads the dumped default configuration
    back, a second constructor on the file system the first one left loads
    the default configuration from the file and writes nothing. *)
Theorem written_config_is_loaded_back os config_file tree out st1 :
  FS.path_exists tree config_file = false ->
  init os config_file tree out = (st1, inr tt) ->
  json_load os (json_dump os default_config) = inr default_config ->
  init os config_file (fs st1) (console st1)
  = (mkState default_config zero_stats (fs st1)
             (console st1 ++ [MsgLoadedConfig config_file]),
     inr tt).
Proof.
  intros Habsent Hinit Hjson.
  assert (Hfile : FS.lookup (fs st1) config_file
                  = Some (File (time_now os) (json_dump os default_config))).
  { revert Hinit. unfold init, load_config, save_config. unfold_m. simpl.
    rewrite Habsent. simpl.
    destruct (FS.write config_file _ tree) as [e|n] eqn:Hw; simpl;
      [discriminate|].
    intros [= <-]. simpl. eapply write_at. exact Hw. }
  unfold init, load_config. unfold_m. simpl.
  unfold FS.path_exists. rewrite Hfile.
  rewrite (proj2 (resolve_lookup _ _ _) Hfile), Hjson. reflexivity.
Qed.

Lemma written_config_is_loaded_back_witness :
  let st1 := fst (init round_trip_platform Sample.config_file Sample.tree []) in
  FS.path_exists Sample.tree Sample.config_file = false
  /\ config (fst (init round_trip_platform Sample.config_file (fs st1)
                       (console st1))) = default_config
  /\ fs (fst (init round_trip_platform Sample.config_file (fs st1)
                   (console st1))) = fs st1.
Proof.
  cbv zeta. split; [reflexivity|].
  rewrite (written_config_is_loaded_back round_trip_platform
             Sample.config_file Sample.tree []
             (fst (init round_trip_platform Sample.config_file Sample.tree [])));
    [split; reflexivity | reflexivity | vm_compute; reflexivity | reflexivity].
Defined.

(** X12. [--execute] does not switch off a dry run asked for by the
    configuration file: when the file sets [dry_run], [main] leaves the
    file system exactly as it found it, with or without [--execute]. *)
Theorem configured_dry_run_wins os args tree out m data cfg :
  FS.lookup tree (arg_config args) = Some (File m data) ->
  json_load os data = inr cfg ->
  dry_run cfg = true ->
  fs (fst (main os args tree out)) = tree.
Proof.
  intros Hfile Hjson Hdry.
  assert (Hinit : init os (arg_config args) tree out
                  = (mkState cfg zero_stats tree
                             (out ++ [MsgLoadedConfig (arg_config args)]),
                     inr tt)).
  { unfold init, load_config. unfold_m. simpl.
    unfold FS.path_exists. rewrite Hfile.
    rewrite (proj2 (resolve_lookup _ _ _) Hfile), Hjson. reflexivity. }
  unfold main. rewrite Hinit. unfold_m. cbn [fst fs config].
  set (cfg' := if arg_no_date_folders args then _ else _).
  set (st1 := mkState cfg' _ _ _).
  assert (Hdry1 : dry_run (config st1) = true).
  { unfold st1, cfg'. simpl.
    destruct (arg_no_date_folders args), (arg_backup args),
      (arg_execute args); simpl; try reflexivity; exact Hdry. }
  pose proof (organize_directory_frame os (arg_directory args)
                (arg_recursive args) st1) as [_ Hfs].
  specialize (Hfs Hdry1).
  destruct (organize_directory os (arg_directory args) (arg_recursive args) st1)
    as [st2 [e|r]]; simpl in *; exact Hfs.
Qed.

Lemma configured_dry_run_wins_witness :
  fs (fst (main (mkPlatform (fun _ => inr Sample.dry_config) (fun _ => "{}")
                            1700000000%Z (fun _ => 0%Z)
                            (fun _ => ValueError) Str.ascii_lower)
                (mkArgs ["home"; "u"] true true Sample.config_file false false)
                Sample.tree_with_bad_config []))
  = Sample.tree_with_bad_config.
Proof.
  apply (configured_dry_run_wins
           (mkPlatform (fun _ => inr Sample.dry_config) (fun _ => "{}")
                       1700000000%Z (fun _ => 0%Z)
                       (fun _ => ValueError) Str.ascii_lower)
           (mkArgs ["home"; "u"] true true Sample.config_file false false)
           Sample.tree_with_bad_config [] 7%Z "{oops" Sample.dry_config);
    reflexivity.
Defined.

(** ** The name chosen on a collision *)

Lemma append_assoc (a b c : string) : (a +++ b) +++ c = a +++ (b +++ c).
Proof. induction a as [|x a IH]; simpl; [reflexivity | now rewrite IH]. Qed.

Lemma rfind_dot_append (a rest : string) :
  Str.rfind_dot rest = None ->
  Str.rfind_dot (a +++ String "." rest) = Some (String.length a).
Proof.
  intros Hrest. induction a as [|c a IH]; simpl.
  - now rewrite Hrest.
  - change (Str.rfind_dot (a +++ String "." rest) = Some (String.length a))
      in IH.
    now rewrite IH.
Qed.

Lemma rfind_dot_split (nm : string) (i : nat) :
  Str.rfind_dot nm = Some i ->
  exists a rest,
    nm = a +++ String "." rest
    /\ String.length a = i
    /\ Str.rfind_dot rest = None.
Proof.
  revert i. induction nm as [|c nm IH]; intros i H; simpl in H; [discriminate|].
  destruct (Str.rfind_dot nm) as [j|] eqn:Hj.
  - injection H as <-. destruct (IH j eq_refl) as (a & rest & -> & Hlen & Hr).
    exists (String c a), rest. simpl. repeat split; [now rewrite Hlen | exact Hr].
  - destruct (Ascii.eqb_spec c "."%char) as [->|]; [|discriminate].
    injection H as <-. exists "", nm. repeat split. exact Hj.
Qed.

Lemma substring_append_l (a b : string) :
  substring 0 (String.length a) (a +++ b) = a.
Proof. induction a as [|x a IH]; simpl; [now destruct b | now rewrite IH]. Qed.

Lemma substring_whole (b : string) : substring 0 (String.length b) b = b.
Proof. induction b as [|x b IH]; simpl; [reflexivity | now rewrite IH]. Qed.

Lemma substring_append_r (a b : string) :
  substring (String.length a) (String.length b) (a +++ b) = b.
Proof.
  induction a as [|x a IH]; simpl; [apply substring_whole | exact IH].
Qed.

(** [Path.stem] and [Path.suffix] of a name made of a non-empty stem, a
    dot and a non-empty extension without dots. *)
Lemma split_of_append (a rest : string) :
  a <> "" -> rest <> "" -> Str.rfind_dot rest = None ->
  PurePath.stem_of (a +++ String "." rest) = a
  /\ PurePath.suffix_of (a +++ String "." rest) = String "." rest.
Proof.
  intros Ha Hrest Hdot.
  assert (Hsplit : PurePath.split_at (a +++ String "." rest)
                   = Some (String.length a)).
  { unfold PurePath.split_at. rewrite (rfind_dot_append a rest Hdot).
    rewrite length_append. simpl.
    destruct a as [|x a]; [congruence|]. destruct rest as [|y rest]; [congruence|].
    simpl.
    replace (String.length a + S (S (String.length rest)) - 0)
      with (S (S (String.length a + String.length rest))) by lia.
    destruct (Nat.ltb_spec (S (String.length a))
                           (S (S (String.length a + String.length rest))));
      [reflexivity | lia]. }
  unfold PurePath.stem_of, PurePath.suffix_of. rewrite Hsplit. split.
  - apply substring_append_l.
  - rewrite length_append.
    replace (String.length a + String.length (String "." rest)
             - String.length a)
      with (String.length (String "." rest)) by lia.
    apply substring_append_r.
Qed.

(** A name with an extension is its stem, a dot, and the extension's
    letters, which hold no dot. *)
Lemma suffix_of_shape (nm : string) :
  PurePath.suffix_of nm <> "" ->
  exists a rest,
    nm = a +++ String "." rest
    /\ a <> "" /\ rest <> "" /\ Str.rfind_dot rest = None.
Proof.
  unfold PurePath.suffix_of, PurePath.split_at. intros H.
  destruct (Str.rfind_dot nm) as [i|] eqn:Hi; [|congruence].
  destruct ((0 <? i) && (i <? String.length nm - 1))%nat eqn:Hb; [|congruence].
  apply andb_true_iff in Hb as [H0 H1].
  apply Nat.ltb_lt in H0, H1.
  destruct (rfind_dot_split nm i Hi) as (a & rest & -> & Hlen & Hr).
  exists a, rest. repeat split; try assumption.
  - intros ->. simpl in Hlen. lia.
  - intros ->. rewrite length_append in H1. simpl in H1. lia.
Qed.

(** X13. The name [organize_file] gives a colliding file keeps the
    extension: for a file name with an extension, the numbered name
    [stem_k suffix] has the same [suffix], and its stem is the old stem
    followed by [_k]. *)
Theorem numbered_name_keeps_extension (nm : string) (k : nat) :
  PurePath.suffix_of nm <> "" ->
  let renamed := numbered (PurePath.stem_of nm) (PurePath.suffix_of nm) k in
  PurePath.suffix_of renamed = PurePath.suffix_of nm
  /\ PurePath.stem_of renamed = PurePath.stem_of nm +++ "_" +++ Str.of_nat k.
Proof.
  intros H. cbv zeta.
  destruct (suffix_of_shape nm H) as (a & rest & -> & Ha & Hrest & Hdot).
  destruct (split_of_append a rest Ha Hrest Hdot) as [-> ->].
  unfold numbered.
  replace (a +++ "_" +++ Str.of_nat k +++ String "." rest)
    with ((a +++ "_" +++ Str.of_nat k) +++ String "." rest)
    by (now rewrite !append_assoc).
  assert (Ha' : a +++ "_" +++ Str.of_nat k <> "").
  { destruct a; [congruence | discriminate]. }
  destruct (split_of_append _ rest Ha' Hrest Hdot) as [-> ->].
  split; reflexivity.
Qed.

Lemma numbered_name_keeps_extension_witness :
  PurePath.suffix_of (numbered (PurePath.stem_of "a.tar.gz")
                               (PurePath.suffix_of "a.tar.gz") 12) = ".gz"
  /\ PurePath.stem_of (numbered (PurePath.stem_of "a.tar.gz")
                                (PurePath.suffix_of "a.tar.gz") 12)
     = "a.tar_12".
Proof.
  apply (numbered_name_keeps_extension "a.tar.gz" 12). discriminate.
Defined.

(** ** The candidates, once each *)

Lemma assoc_unique es k v :
  NoDup (map fst es) -> In (k, v) es -> FS.assoc k es = Some v.
Proof.
  induction es as [|[k0 v0] es IH]; simpl; intros Hnd Hin; [contradiction|].
  inversion Hnd as [|? ? Hnotin Hnd']; subst.
  destruct Hin as [[= -> ->]|Hin].
  - now rewrite String.eqb_refl.
  - destruct (String.eqb_spec k k0) as [->|Hne]; [|apply IH; assumption].
    exfalso. apply Hnotin. apply in_map_iff. exists (k0, v). auto.
Qed.

Lemma unique_names_lookup p :
  forall n n',
    unique_names n -> FS.lookup_from p (Some n) = Some n' -> unique_names n'.
Proof.
  induction p as [|x p IH]; intros n n' Hu H; simpl in H.
  - now injection H as <-.
  - destruct n as [m d|m es]; [discriminate|].
    inversion Hu as [|? ? Hnd Hall]; subst.
    destruct (FS.assoc x es) as [c|] eqn:Hx;
      [|now rewrite lookup_from_None in H].
    apply (IH c n'); [|exact H].
    rewrite Forall_forall in Hall.
    assert (Hin : In (x, c) es).
    { clear -Hx. induction es as [|[k v] es IHes]; simpl in *; [discriminate|].
      destruct (String.eqb_spec x k) as [->|]; [left; congruence | right; auto]. }
    apply (Hall _ Hin).
Qed.

Lemma file_below_lookup n rel :
  file_below n rel ->
  unique_names n ->
  exists m d, FS.lookup_from rel (Some n) = Some (File m d).
Proof.
  induction 1 as [m es nm fm fd Hes|m es d dm des rel Hes Hbelow IH];
    intros Hu; inversion Hu as [|? ? Hnd Hall]; subst; simpl.
  - rewrite (assoc_unique _ _ _ Hnd Hes). eauto.
  - rewrite (assoc_unique _ _ _ Hnd Hes). apply IH.
    rewrite Forall_forall in Hall. apply (Hall _ Hes).
Qed.

Lemma NoDup_flat_map_disjoint {A B} (f : A -> list B) (l : list A) :
  NoDup l ->
  (forall x, In x l -> NoDup (f x)) ->
  (forall x y b, In x l -> In y l -> In b (f x) -> In b (f y) -> x = y) ->
  NoDup (flat_map f l).
Proof.
  induction 1 as [|x l Hx Hnd IH]; intros Heach Hdisj; simpl; [constructor|].
  apply NoDup_app.
  - apply Heach. now left.
  - apply IH; [intros; apply Heach; now right|].
    intros y z b Hy Hz. apply Hdisj; now right.
  - intros b Hb Hin. apply in_flat_map in Hin as (y & Hy & Hby).
    assert (x = y) by (apply (Hdisj x y b); auto; [now left | now right]).
    subst y. contradiction.
Qed.

(** [walk] on a directory: the kept files of the listing, then what the
    folders that are not pruned give. *)
Lemma walk_Dir lower cfg root m es :
  walk lower cfg root (Dir m es)
  = flat_map (fun kv => match snd kv with
                        | File _ _ => keep_file root (fst kv)
                        | Dir _ _ => []
                        end) es
    ++ flat_map (fun kv => match snd kv with
                           | Dir _ _ =>
                               if should_ignore_folder lower cfg (fst kv) then []
                               else walk lower cfg (PurePath.div root (fst kv))
                                         (snd kv)
                           | File _ _ => []
                           end) es.
Proof.
  simpl walk. f_equal.
  induction es as [|[d c] es IH]; [reflexivity|].
  simpl flat_map. rewrite <- IH. destruct c; reflexivity.
Qed.

Lemma entries_unique (es : list (string * Node)) k v v' :
  NoDup (map fst es) -> In (k, v) es -> In (k, v') es -> v = v'.
Proof.
  intros Hnd H1 H2.
  pose proof (assoc_unique _ _ _ Hnd H1) as E1.
  pose proof (assoc_unique _ _ _ Hnd H2) as E2. congruence.
Qed.

Lemma walk_NoDup lower cfg n :
  unique_names n -> forall root, NoDup (walk lower cfg root n).
Proof.
  induction n as [m d|m es IH] using Node_nested_ind; intros Hu root.
  - constructor.
  - inversion Hu as [|? ? Hnd Hall]; subst.
    rewrite Forall_forall in IH, Hall.
    assert (Hes : NoDup es) by (eapply NoDup_map_inv; exact Hnd).
    rewrite walk_Dir. apply NoDup_app.
    + apply NoDup_flat_map_disjoint; [exact Hes | |].
      * intros [nm [fm fd|dm des]] _; cbn [snd fst]; [|constructor].
        unfold keep_file. destruct (negb _); repeat constructor. intros [].
      * intros [k1 v1] [k2 v2] b H1 H2 Hb1 Hb2.
        destruct v1 as [fm1 fd1|]; [|contradiction].
        destruct v2 as [fm2 fd2|]; [|contradiction].
        cbn [snd fst] in Hb1, Hb2. unfold keep_file in Hb1, Hb2.
        destruct (negb _) in Hb1; [|contradiction].
        destruct (negb _) in Hb2; [|contradiction].
        destruct Hb1 as [<-|[]]. destruct Hb2 as [Heq|[]].
        unfold PurePath.div in Heq. apply app_inv_head in Heq.
        injection Heq as <-. f_equal.
        eapply entries_unique; eassumption.
    + apply NoDup_flat_map_disjoint; [exact Hes | |].
      * intros [d [fm fd|dm des]] Hin; cbn [snd fst]; [constructor|].
        destruct (should_ignore_folder lower cfg d); [constructor|].
        apply (IH _ Hin). apply (Hall _ Hin).
      * intros [k1 v1] [k2 v2] b H1 H2 Hb1 Hb2.
        destruct v1 as [|dm1 des1]; [contradiction|].
        destruct v2 as [|dm2 des2]; [contradiction|].
        cbn [snd fst] in Hb1, Hb2.
        destruct (should_ignore_folder lower cfg k1); [contradiction|].
        destruct (should_ignore_folder lower cfg k2); [contradiction|].
        destruct (walk_sound _ _ _ _ _ Hb1) as (r1 & -> & _).
        destruct (walk_sound _ _ _ _ _ Hb2) as (r2 & Heq & _).
        unfold PurePath.div in Heq. rewrite <- !app_assoc in Heq.
        apply app_inv_head in Heq. simpl in Heq. injection Heq as -> _.
        f_equal. eapply entries_unique; eassumption.
    + intros b Hb1 Hb2.
      apply in_flat_map in Hb1 as ([k1 v1] & _ & Hb1).
      apply in_flat_map in Hb2 as ([k2 v2] & _ & Hb2).
      destruct v1 as [fm1 fd1|]; [|contradiction].
      destruct v2 as [|dm2 des2]; [contradiction|].
      cbn [snd fst] in Hb1, Hb2. unfold keep_file in Hb1.
      destruct (negb _) in Hb1; [|contradiction].
      destruct Hb1 as [<-|[]].
      destruct (should_ignore_folder lower cfg k2); [contradiction|].
      destruct (walk_sound _ _ _ _ _ Hb2) as (r2 & Heq & Hbelow & _).
      unfold PurePath.div in Heq. rewrite <- app_assoc in Heq.
      apply app_inv_head in Heq. simpl in Heq. injection Heq as _ Hr.
      apply file_below_nonempty in Hbelow. congruence.
Qed.

(** X14. In a file system where no directory lists a name twice, the
    candidates [organize_directory] gathers, in either mode, are regular
    files of the tree and no file is gathered twice. *)
Theorem candidates_are_files_once os source recursive st st' files_to_process :
  unique_names (fs st) ->
  gather os source recursive st = (st', inr files_to_process) ->
  NoDup files_to_process
  /\ forall p, In p files_to_process -> FS.is_file (fs st) p = true.
Proof.
  intros Hu. unfold gather. unfold_m. destruct recursive.
  - destruct (FS.lookup (fs st) source) as [n|] eqn:Hsrc;
      intros [= _ <-]; [|split; [constructor | contradiction]].
    pose proof (unique_names_lookup _ _ _ Hu Hsrc) as Hun.
    split; [apply walk_NoDup; exact Hun|].
    intros p Hin.
    destruct (walk_sound _ _ _ _ _ Hin) as (rel & -> & Hbelow & _).
    destruct (file_below_lookup _ _ Hbelow Hun) as (m & d & Hl).
    unfold FS.is_file, FS.lookup. rewrite lookup_from_app.
    unfold FS.lookup in Hsrc. now rewrite Hsrc, Hl.
  - destruct (FS.resolve (fs st) source) as [e|[m d|m es]] eqn:Hsrc;
      intros [=]. subst.
    apply resolve_lookup in Hsrc.
    pose proof (unique_names_lookup _ _ _ Hu Hsrc) as Hun.
    inversion Hun as [|? ? Hnd _]; subst. split.
    + apply NoDup_filter.
      rewrite <- (map_map fst (fun nm => PurePath.div source nm)).
      apply Injective_map_NoDup; [|exact Hnd].
      intros a b Hab. unfold PurePath.div in Hab.
      apply app_inv_head in Hab. now injection Hab.
    + intros p Hin. apply filter_In in Hin. apply Hin.
Qed.

Lemma candidates_are_files_once_witness :
  unique_names (fs Sample.dry)
  /\ NoDup (walk Str.ascii_lower default_config Sample.source
                 Sample.source_node)
  /\ FS.is_file (fs Sample.dry) (Sample.source ++ ["sub"; "deep"; "a.mp3"])
     = true.
Proof.
  assert (Hu : unique_names (fs Sample.dry)).
  { repeat (constructor; simpl); intuition discriminate. }
  split; [exact Hu|].
  destruct (candidates_are_files_once Sample.platform Sample.source true
              Sample.dry Sample.dry
              (walk Str.ascii_lower default_config Sample.source
                    Sample.source_node) Hu eq_refl) as [Hnd Hfiles].
  split; [exact Hnd|].
  apply Hfiles. vm_compute. auto 10.
Defined.

(* ================================================================== *)
(** ** The analysis report *)

Lemma analyze_file_recorded lower cfg tree analysis file_path m data :
  FS.lookup tree file_path = Some (File m data) ->
  analyze_file lower cfg tree analysis file_path
  = recorded (analysis_key (Classifier.get_file_category lower cfg file_path))
             (PurePath.name file_path) data analysis.
Proof.
  intros Hl. unfold analyze_file. rewrite Hl.
  generalize (analysis_key (Classifier.get_file_category lower cfg file_path)) as key.
  generalize (PurePath.name file_path) as nm. intros nm key.
  destruct (Dict.get key analysis) as [t|] eqn:Hget.
  - rewrite Hget. revert t Hget.
    induction analysis as [|[k t0] d IH]; intros t Hget; simpl in *;
      [discriminate|].
    destruct (String.eqb key k); [congruence|].
    f_equal. apply (IH t Hget).
  - rewrite dict_get_set_same.
    induction analysis as [|[k t0] d IH]; simpl in *.
    + now rewrite String.eqb_refl.
    + destruct (String.eqb key k) eqn:Hk; [discriminate|].
      simpl. rewrite Hk. f_equal. apply IH. exact Hget.
Qed.

Lemma analyze_file_other lower cfg tree analysis file_path :
  FS.is_file tree file_path = false ->
  analyze_file lower cfg tree analysis file_path = analysis.
Proof.
  unfold FS.is_file, analyze_file.
  destruct (FS.lookup tree file_path) as [[m d|m es]|];
    [discriminate | reflexivity | reflexivity].
Qed.

Lemma recorded_keys key nm data d :
  NoDup (map fst d) -> NoDup (map fst (recorded key nm data d)).
Proof.
  induction d as [|[k t] d IH]; simpl; intros Hnd.
  - repeat constructor. intros [].
  - inversion Hnd as [|? ? Hnotin Hnd']; subst.
    destruct (String.eqb_spec key k) as [->|Hne]; simpl;
      [constructor; assumption|].
    constructor; [|apply IH; exact Hnd'].
    intros Hin. apply Hnotin. clear -Hin Hne.
    induction d as [|[k' t'] d IHd]; simpl in *.
    + destruct Hin as [->|[]]. congruence.
    + destruct (String.eqb_spec key k') as [->|Hne']; simpl in Hin;
        [exact Hin|].
      destruct Hin as [Hin|Hin]; [now left | right; apply IHd; exact Hin].
Qed.

Lemma recorded_sound key nm data d :
  Forall sound_tally d -> Forall sound_tally (recorded key nm data d).
Proof.
  induction d as [|[k t] d IH]; simpl; intros Hall.
  - repeat constructor.
  - inversion Hall as [|? ? [Hc Hpos] Hall']; subst. simpl in Hc, Hpos.
    destruct (String.eqb key k).
    + constructor; [|exact Hall'].
      split; simpl; [|lia]. rewrite length_app. simpl. lia.
    + constructor; [split; assumption | apply IH; exact Hall'].
Qed.

Lemma recorded_total key nm data d :
  total_count (recorded key nm data d) = S (total_count d).
Proof.
  unfold total_count.
  induction d as [|[k t] d IH]; simpl; [reflexivity|].
  destruct (String.eqb key k); simpl; [reflexivity|].
  rewrite IH. lia.
Qed.

Lemma recorded_keeps key nm data d k t :
  Dict.get k d = Some t ->
  exists t',
    Dict.get k (recorded key nm data d) = Some t'
    /\ incl (tally_files t) (tally_files t').
Proof.
  induction d as [|[k0 t0] d IH]; simpl; [discriminate|].
  intros Hget.
  destruct (String.eqb_spec key k0) as [->|Hne]; simpl.
  - destruct (String.eqb k k0); [|eauto using incl_refl].
    injection Hget as ->. eexists. split; [reflexivity|].
    simpl. apply incl_appl, incl_refl.
  - destruct (String.eqb k k0); [eauto using incl_refl | apply IH; exact Hget].
Qed.

Lemma recorded_has key nm data d :
  exists t,
    Dict.get key (recorded key nm data d) = Some t /\ In nm (tally_files t).
Proof.
  induction d as [|[k0 t0] d IH]; simpl.
  - rewrite String.eqb_refl. eexists. split; [reflexivity|]. simpl. now left.
  - destruct (String.eqb_spec key k0) as [->|Hne]; simpl.
    + rewrite String.eqb_refl. eexists. split; [reflexivity|].
      simpl. apply in_or_app. right. now left.
    + destruct (String.eqb_spec key k0); [contradiction | exact IH].
Qed.

Lemma analyze_file_keeps lower cfg tree analysis file_path k t :
  Dict.get k analysis = Some t ->
  exists t',
    Dict.get k (analyze_file lower cfg tree analysis file_path) = Some t'
    /\ incl (tally_files t) (tally_files t').
Proof.
  intros Hget.
  destruct (FS.lookup tree file_path) as [[m data|m es]|] eqn:Hl.
  - rewrite (analyze_file_recorded _ _ _ _ _ _ _ Hl).
    apply recorded_keeps. exact Hget.
  - rewrite analyze_file_other by (unfold FS.is_file; now rewrite Hl).
    eauto using incl_refl.
  - rewrite analyze_file_other by (unfold FS.is_file; now rewrite Hl).
    eauto using incl_refl.
Qed.

Lemma analysis_fold_keeps lower cfg tree l :
  forall analysis k t,
    Dict.get k analysis = Some t ->
    exists t',
      Dict.get k (fold_left (analyze_file lower cfg tree) l analysis) = Some t'
      /\ incl (tally_files t) (tally_files t').
Proof.
  induction l as [|p l IH]; intros analysis k t Hget; simpl.
  - eauto using incl_refl.
  - destruct (analyze_file_keeps lower cfg tree analysis p k t Hget)
      as (t1 & Hget1 & Hincl1).
    destruct (IH _ _ _ Hget1) as (t2 & Hget2 & Hincl2).
    exists t2. split; [exact Hget2|]. eapply incl_tran; eassumption.
Qed.

Lemma analysis_fold_has lower cfg tree l :
  forall analysis file_path,
    In file_path l ->
    FS.is_file tree file_path = true ->
    exists t,
      Dict.get (analysis_key (Classifier.get_file_category lower cfg file_path))
               (fold_left (analyze_file lower cfg tree) l analysis) = Some t
      /\ In (PurePath.name file_path) (tally_files t).
Proof.
  induction l as [|p l IH]; intros analysis file_path Hin Hfile;
    [contradiction|].
  destruct Hin as [->|Hin]; [|simpl; apply IH; assumption].
  simpl. unfold FS.is_file in Hfile.
  destruct (FS.lookup tree file_path) as [[m data|m es]|] eqn:Hl;
    try discriminate.
  rewrite (analyze_file_recorded _ _ _ _ _ _ _ Hl).
  destruct (recorded_has
              (analysis_key (Classifier.get_file_category lower cfg file_path))
              (PurePath.name file_path) data analysis) as (t & Hget & Hnm).
  destruct (analysis_fold_keeps lower cfg tree l _ _ _ Hget) as (t' & Hget' & Hincl).
  exists t'. split; [exact Hget' | apply Hincl; exact Hnm].
Qed.

Lemma analysis_fold_invariant lower cfg tree l :
  forall analysis,
    NoDup (map fst analysis) ->
    Forall sound_tally analysis ->
    let result := fold_left (analyze_file lower cfg tree) l analysis in
    NoDup (map fst result)
    /\ Forall sound_tally result
    /\ total_count result
       = total_count analysis + List.length (filter (FS.is_file tree) l).
Proof.
  induction l as [|p l IH]; intros analysis Hnd Hall; simpl.
  - repeat split; [assumption | assumption | lia].
  - destruct (FS.is_file tree p) eqn:Hfile.
    + unfold FS.is_file in Hfile.
      destruct (FS.lookup tree p) as [[m data|m es]|] eqn:Hl;
        try discriminate.
      rewrite (analyze_file_recorded _ _ _ _ _ _ _ Hl).
      set (key := analysis_key (Classifier.get_file_category lower cfg p)).
      destruct (IH _ (recorded_keys key (PurePath.name p) data _ Hnd)
                  (recorded_sound key (PurePath.name p) data _ Hall))
        as (H1 & H2 & H3).
      repeat split; [exact H1 | exact H2|].
      rewrite H3, recorded_total. simpl. lia.
    + rewrite analyze_file_other by exact Hfile.
      apply IH; assumption.
Qed.

Lemma rglob_Dir root m es :
  rglob root (Dir m es)
  = map (fun kv => PurePath.div root (fst kv)) es
    ++ flat_map (fun kv => rglob (PurePath.div root (fst kv)) (snd kv)) es.
Proof.
  simpl rglob. f_equal.
  induction es as [|[d c] es IH]; [reflexivity|].
  simpl flat_map. now rewrite <- IH.
Qed.

Lemma rglob_complete n rel :
  file_below n rel -> forall root, In (root ++ rel) (rglob root n).
Proof.
  induction 1 as [m es nm fm fd Hes|m es d dm des rel Hes Hbelow IH];
    intros root; rewrite rglob_Dir; apply in_or_app.
  - left. apply in_map_iff. exists (nm, File fm fd). split; [reflexivity|].
    exact Hes.
  - right. apply in_flat_map. exists (d, Dir dm des). split; [exact Hes|].
    simpl. specialize (IH (PurePath.div root d)).
    unfold PurePath.div in IH. rewrite <- app_assoc in IH. exact IH.
Qed.

(** X15. The dictionary [analyze_directory] builds has no key twice, and
    its counts add up: each entry counts as many files as it lists names
    and at least one, the names printed and the number announced as
    [... and n more] make up the count, at most five names are printed,
    and the counts of all entries together are the number of regular
    files among the entries below the directory. *)
Theorem analysis_counts_add_up lower cfg tree source n :
  FS.lookup tree source = Some n ->
  let analysis := analysis_of lower cfg tree source in
  NoDup (map fst analysis)
  /\ (forall key t,
        In (key, t) analysis ->
        (0 < tally_count t)%nat
        /\ tally_count t = List.length (tally_files t)
        /\ (List.length (fst (listed (tally_files t))) <= 5)%nat
        /\ List.length (fst (listed (tally_files t)))
           + match snd (listed (tally_files t)) with
             | Some more => more
             | None => 0
             end
           = tally_count t)
  /\ total_count analysis
     = List.length (filter (FS.is_file tree) (rglob source n)).
Proof.
  intros Hsrc. unfold analysis_of. rewrite Hsrc. cbv zeta.
  destruct (analysis_fold_invariant lower cfg tree (rglob source n) []
              (NoDup_nil _) (Forall_nil _)) as (Hnd & Hall & Htotal).
  split; [exact Hnd|]. split; [|exact Htotal].
  intros key t Hin. rewrite Forall_forall in Hall.
  destruct (Hall _ Hin) as [Hc Hpos]. simpl in Hc, Hpos.
  split; [exact Hpos|]. split; [exact Hc|].
  unfold listed.
  destruct (Nat.leb_spec (List.length (tally_files t)) 5) as [Hle|Hgt];
    cbn [fst snd].
  - lia.
  - rewrite length_firstn. lia.
Qed.

Lemma analysis_counts_add_up_witness :
  total_count (analysis_of Str.ascii_lower default_config Sample.tree Sample.source)
  = List.length (filter (FS.is_file Sample.tree)
                        (rglob Sample.source Sample.source_node)).
Proof.
  apply (analysis_counts_add_up Str.ascii_lower default_config Sample.tree Sample.source
           Sample.source_node eq_refl).
Defined.

(** X16. The analysis leaves no regular file out: in a file system where
    no directory lists a name twice, every regular file below the
    directory, also one in an ignored folder or in the organized folder,
    is listed by name under the key of the category [get_file_category]
    gives it. *)
Theorem analysis_lists_every_file lower cfg tree source n rel :
  unique_names tree ->
  FS.lookup tree source = Some n ->
  file_below n rel ->
  exists t,
    Dict.get (analysis_key
                (Classifier.get_file_category lower cfg (source ++ rel)))
             (analysis_of lower cfg tree source) = Some t
    /\ In (PurePath.name (source ++ rel)) (tally_files t).
Proof.
  intros Hu Hsrc Hbelow. unfold analysis_of. rewrite Hsrc.
  apply analysis_fold_has; [apply rglob_complete; exact Hbelow|].
  pose proof (unique_names_lookup _ _ _ Hu Hsrc) as Hun.
  destruct (file_below_lookup _ _ Hbelow Hun) as (m & d & Hl).
  unfold FS.is_file, FS.lookup. rewrite lookup_from_app.
  unfold FS.lookup in Hsrc. now rewrite Hsrc, Hl.
Qed.

Lemma analysis_lists_every_file_witness :
  exists t,
    Dict.get "documents/text_files"
             (analysis_of Str.ascii_lower default_config Sample.tree Sample.source) = Some t
    /\ In "notes.txt" (tally_files t).
Proof.
  assert (Hu : unique_names Sample.tree).
  { repeat (constructor; simpl); intuition discriminate. }
  assert (Hbelow : file_below Sample.source_node
                     ["organized"; "Documents"; "text_files"; "2023-11";
                      "notes.txt"]).
  { eapply file_deeper; [simpl; do 4 right; left; reflexivity|].
    eapply file_deeper; [simpl; left; reflexivity|].
    eapply file_deeper; [simpl; left; reflexivity|].
    eapply file_deeper; [simpl; left; reflexivity|].
    eapply file_here. simpl. left. reflexivity. }
  exact (analysis_lists_every_file Str.ascii_lower default_config Sample.tree Sample.source
           Sample.source_node _ Hu eq_refl Hbelow).
Defined.
